(* ===== verification/_CoqProject ===== *)
-Q . S2P
Prelude.v
Python.v
Json.v
Registry.v
Services.v
HistoryDecoder.v
MediaCache.v
Thread.v
Orchestrator.v
EndToEnd.v
Startup.v
Concurrency.v
