(* ===== verification/Prelude.v ===== *)
(** * Verification of slack_agent: a Slack mention bot driving a Gemini chat
      session with tool calls

    ** The program

    [src/main.py] and [src/slack_agent/main_function.py] read the tokens,
    build a Bolt app and register the handler that
    [make_app_mention_event] (in [src/slack_agent/events/app_mention.py])
    returns. That handler, [event_fun], does all the work of a mention:
    - it acks the event, then builds the message for the model: outside a
      thread the mention's text followed by its files; inside a thread the
      whole thread rebuilt by [get_thread_messages] as a history plus a last
      message;
    - thread rebuilding turns every Slack message into one turn (role
      "model" for bot messages, "user" otherwise). A file named
      [function_call.json] is a trace artifact: it is downloaded and decoded
      by [get_function_call_history] into turns of its own. Any other file
      of a supported MIME type goes through [get_file_part];
    - [get_file_part] keeps the cache [file_upload_dict] from Slack file id
      to Gemini file name. It reuses a cached upload unless the service
      answers [PermissionDenied], re-uploads otherwise, and for videos polls
      until the file is no longer PROCESSING;
    - the model's answer is inspected in a [while] loop: as long as it
      contains function calls, every call is run through the tool registry
      ([registry.py]: [register], [get_functions], [call_function]), the
      results are collected in a dict keyed by tool name, one call record
      and one response record per dict entry are appended to the trace, and
      the results are sent back;
    - the reply is the answer text. When the trace is not empty it is posted
      as a [files_upload_v2] of [function_call.json] holding the trace,
      otherwise with [say].

    ** Files, in dependency order

    - [Prelude] (this file): the [result] type with [let?], the
      state-and-error monad [st] with its notation ([agent_scope]), monadic
      loops ([result_mapM], [st_fold]), [pydict] (an insertion-ordered
      association list with the semantics of a Python [dict]), the relation
      framework [st_preserves] (a computation whose runs, returning or
      raising, relate their start and end states) with the tactic
      [st_preserves_tac], the hint database [agent].
      A run of [st S E A] from a state returns [Ok (a, s')] or
      [Err (e, s')]: an exception carries the state reached when it was
      raised, because in Python the effects made before an exception (an
      upload, a dict assignment, a post) remain. [st_final] is the end
      state of any run.
    - [Python]: JSON values as [json.loads] returns them, [dict_of_pairs]
      (duplicate keys: the last value wins), [v[k]] ([py_getitem]),
      [for x in v] ([py_iter]) and the substring test [x in s]
      ([py_in_str], proved equal to "some split of [s] has [x] in the
      middle") with CPython's [KeyError]/[TypeError], and the exceptions
      [exn].
    - [Json]: the two calls of Python's [json] module the code makes, on
      the bytes of the text: [json_dumps] is
      [json.dumps(v, ensure_ascii=False, indent=2)] (line 221: the
      layout of [_make_iterencode], [py_encode_basestring]'s escapes,
      [int.__repr__]) and [json_loads_str] is [json.loads] (line 74: the
      scanner of [json.decoder], [scanstring] with [\uXXXX] escapes and
      surrogate pairs decoded to UTF-8, [NUMBER_RE], whitespace and the
      "Extra data" check). The parser's mutual fixpoints [parse_value],
      [parse_array] and [parse_object] run on a fuel.
    - [Registry]: Module [Registry] models [registry.py] (the module-level
      dict threaded as an explicit value) and [example.py]; the class
      [ToolDispatch] is the interface the orchestrator is proved against,
      and [registry_dispatch] is its instance. [registered] is the dict
      after the package's [@register] decorators have run.
    - [Services]: the libraries the code calls, at the interface it uses.
      Module [Genai] holds the file service as a [Backend] (files by name,
      a per-MIME processing profile, expiry), [Part], [Content], [Response]
      and the [ChatModel] record of operations ([start_chat],
      [send_message]). Module [Slack] holds events, files, thread messages
      and posts. The [World] record is the cache, the backend, the Slack
      server and a log of effects, and [M] is the monad over it. A file
      on the Slack file server is a [Blob] of bytes, and [json_loads] of
      a download is [json_loads_str] of its bytes. The
      Section [LogBound] counts effects: [log_bound p n c] says that every
      run of [c] logs at most [n] effects satisfying [p], with the rules
      for each combinator and primitive and the tactic [log_bound0].
    - [HistoryDecoder]: Module [Decoder] models [get_function_call_history]
      (lines 70-97) and Module [Trace] the records of the trace and the JSON
      the writer produces (lines 188-194, 207-213, 219-225).
    - [MediaCache]: [SUPPORTED_MIME_TYPES], [init_cache] (lines 65-68) and
      [get_file_part] (lines 99-125), split into [lookup_cached],
      [fetch_and_upload] and [wait_if_video]/[poll_processing].
    - [Thread]: [get_thread_messages] (lines 127-154): [process_file],
      [process_message], [split_last].
    - [Orchestrator]: the body of [event_fun] (lines 156-229) over an
      abstract [ChatModel] and [ToolDispatch]: [build_message], [tool_loop]
      with [execute_calls], [response_records] and
      [function_response_parts], and [reply_post]. It also holds the
      design's state machine [OStep] (Sending / Inspecting / Executing /
      Done / Failed) and [scripted_chat], a chat model answering from a
      script.
    - [EndToEnd]: what Slack does with a post ([deliver], an environment
      model: the uploaded file holds the bytes [json.dumps] wrote), and
      two consecutive mentions in one thread.
    - [Startup]: [src/main.py] ([load_dotenv], the three [os.environ]
      reads, the model name and system instruction), [make_main_function]
      ([App], [app.event("app_mention")], [main] with the app token), the
      set-up half of [make_app_mention_event] (the model configuration and
      [file_upload_dict] from [genai.list_files]), Bolt's choice of a
      listener, and the running app as the step relation [session_step]:
      a mention handled by [event_fun], a file the service deletes, an
      upload by another client, a change to Slack.
    - [Concurrency]: Bolt's worker threads. A handler is a [thread]: a
      sequence of atomic steps, one per operation on [file_upload_dict]
      ([in], [[]], [del], assignment) and one per service call, with the
      code of [get_file_part] and [event_fun] cut at those points
      ([get_file_part_t] ... [event_fun_t]). A schedule runs a pool of
      threads one step at a time ([interleave]), and a rely-guarantee
      predicate ([tsafe]) carries the state invariant across the other
      threads' steps. The pointwise equality [≡ₛ] defined in this file
      is the setoid the refinement is stated in.

    ** What is proved

    - The trace artifact cannot be read back ([HistoryDecoder], C2 and C3).
      Any trace the handler writes decodes to [KeyError('parts')]. Inside
      the envelope the reader expects it still fails, with
      [KeyError('value')]. End to end ([EndToEnd], C1): after a turn that
      used a tool, the next mention in the same thread fails while the
      thread is rebuilt, and nothing is posted; the artifact goes through
      the modelled [json.dumps] and [json.loads], so the failure is in the
      format, not in the serialisation. After a turn answered with
      [say], the next mention rebuilds the thread as expected (C4).
    - A turn that raises posts nothing and leaves Slack as it was (C5).
    - Concurrent mentions ([Concurrency]): two handlers evicting the same
      expired handle make the second [del] raise [KeyError] (C6); two
      handlers missing on the same attachment upload it twice (C7); under
      every interleaving of any number of handlers the state invariant
      holds (C8). The handler cut into atomic steps is checked to be
      [event_fun] when nothing interleaves ([event_fun_t_refines]), which
      ties the concurrent model to the sequential one; it is a check of
      the model, not a property of the program.
    - The loop against its specification ([Orchestrator]):
      - refinement in both directions between [tool_loop] and [OStep], for
        results and for exceptions (C9, C10);
      - termination with the exact number of rounds against a scripted
        model (C11);
      - the shape of a round: one call record per call, one response per
        distinct name, last write wins (C12, C13);
      - calls and responses of the trace are paired by name in both
        directions: each call record is followed by a response record of
        its tool, each response record preceded by a call record (C14).
    - The handler ([Orchestrator]):
      - the order of effects: ack first, one post last, and no post in
        between; the post is [reply_post] of the text the tool loop ends
        with and of that loop's trace (C15, through the relation [silent]
        of [Services]);
      - the state invariant is kept by every run, those that raise
        included: cached names were issued by the service, and the service
        is well formed (C16, through [keeps_wf]); along a whole run of the
        app from the state [main.py] starts it in, by rule induction on
        [session_step] ([Startup], C17);
      - the unregistered tool and the plain answer (C18, C19);
      - a turn uploads at most one file per attachment it reads (C20).
    - Start-up ([Startup]): the configuration the app runs with, the
      precedence of the process environment over [.env] (C21), and the
      [KeyError] of a missing token (C22).
    - Thread rebuilding ([Thread]): the number of turns (C23); the last
      message, with its media the files [get_file_part] returns for its
      attachments ([media_of]) (C24); outside a thread, the text followed
      by the files resolved for the event's attachments ([resolves] in
      [Orchestrator]) (C25); and the empty thread (C26).
    - The reader ([HistoryDecoder]): a history in its own format, uploaded
      as the bytes of [json.dumps], is read back whole by
      [get_function_call_history] (C27); [json.loads] reads back every
      value [json.dumps(..., ensure_ascii=False, indent=2)] writes ([Json],
      C28, by induction on the value through its nested lists, with
      string escapes checked character by character and integers digit by
      digit); what the reader returns is typed, except the role (C29); an
      unknown part type raises (C30).
    - The media cache ([MediaCache]):
      - what a miss or an expired handle does (C31);
      - idempotence (C32);
      - the cache invariant is kept by every run of [get_file_part] (C33);
      - at most one upload and at most [fuel] sleeps per run (C34);
      - the code's test ["video" in mimetype] is the media type [video/]
        on every accepted type (C35);
      - termination when processing ends within the fuel (C36), and the
        unbounded video wait otherwise (C37).
    - The registry: lookup after registration and the missing tool
      (C38, C39).

    The relations [silent] (no post; Slack unchanged), [grows] (the cache
    is unchanged and the service only grows) and [keeps_wf] are preorders.
    A whole operation preserves one of them by [st_preserves_tac], from
    the lemmas about each service primitive in the hint database [agent].

    ** Fuel

    The code has two loops with no bound: the video poll (lines 120-122)
    and the tool loop (line 181). [poll_processing] spends one unit of
    [poll_fuel] per [time.sleep]. [tool_loop] spends one unit of
    [loop_fuel] per round of tool calls. Exhausting either one raises
    [OutOfFuel], which is not a Python exception, and no theorem that
    concludes a result allows it. [poll_processing_terminates] shows that
    fuel equal to the file's remaining processing steps is enough.
    [get_file_part_terminates] shows that fuel above every pending count is
    enough for a whole [get_file_part]. [tool_loop_scripted] shows that
    fuel equal to the number of tool rounds is enough and that less is
    not. The JSON parser's fuel is the length of its input: every call of
    [parse_value], [parse_array] and [parse_object] reads a character
    before the next, so [json_loads_str] gives it [String.length s] and
    [json_loads_dumps] shows it is enough.
    [get_file_part_video_never_ready] shows that no fuel is enough
    when the service never finishes, which is the real loop's divergence.
    The bounds of C20 and C34 hold for every fuel: the upload count does
    not depend on it, and the sleep count is at most the fuel.

    ** Not modelled

    - The internals of Bolt, python-dotenv and [SocketModeHandler]: Bolt
      is modelled by its listener list and its choice of the first
      listener, python-dotenv by the values it sets, the socket by the
      events [session_step] receives, and the worker pool by the
      schedules of [interleave]. The interleavings are at the level of
      the interpreter's atomic operations; a service call is one step,
      as its effect on the service is.
    - The Gemini and Slack services themselves (the component "Gemini API
      and Slack Web API" is partly modelled): they are modelled by the
      behaviour the code relies on ([Backend], [SlackServer]), not by
      their implementations, which are not part of the repository.
    - The model's replies: [ChatModel] is abstract, and theorems quantify
      over it.
    - Network failures of [requests.get] and of the Slack client other
      than those the code handles.
    - JSON numbers other than integers (a float, [NaN], [Infinity]): the
      code never inspects one, and the parser rejects them where Python
      returns a [float]. Lone surrogate escapes, which Python keeps in
      the [str] and which have no UTF-8 encoding, are rejected too.
    - The proto values of a function call's arguments: line 192 stores
      [dict(function_arguments)], whose nested values (an object or array
      argument) are proto-plus containers on which [json.dumps] at line
      221 raises [TypeError]; the model takes the arguments as JSON values
      (see the findings).
    - The byte decoding [json.loads] does before parsing (a UTF-8 BOM,
      UTF-16 or UTF-32 input, invalid UTF-8): the bytes are taken to be
      UTF-8, which is what [files_upload_v2] of a [str] stores. *)

From stdpp Require Import base list sets gmap strings.

Declare Scope agent_scope.
Delimit Scope agent_scope with agent.
Open Scope agent_scope.

Create HintDb agent discriminated.

(** ** Results: a computation that returns a value or raises *)

Inductive result (E A : Type) : Type :=
| Ok (a : A)
| Err (e : E).
Arguments Ok {E A} a.
Arguments Err {E A} e.

Definition result_bind {E A B} (r : result E A) (k : A -> result E B) : result E B :=
  match r with
  | Ok a => k a
  | Err e => Err e
  end.

Definition result_map {E A B} (f : A -> B) (r : result E A) : result E B :=
  result_bind r (fun a => Ok (f a)).

Notation "'let?' x ':=' c 'in' k" := (result_bind c (fun x => k))
  (at level 10, x name, c at level 100, k at level 200) : agent_scope.
Notation "'let?' ' p ':=' c 'in' k" := (result_bind c (fun x => match x with p => k end))
  (at level 10, p pattern, c at level 100, k at level 200) : agent_scope.

(** [for x in l: ys.append(f(x))] where [f] may raise: the first
    exception aborts the loop. *)
Fixpoint result_mapM {E A B} (f : A -> result E B) (l : list A) : result E (list B) :=
  match l with
  | [] => Ok []
  | x :: xs => let? y := f x in let? ys := result_mapM f xs in Ok (y :: ys)
  end.

(** ** A state-and-error monad: [st S E A] threads a state [S] and may
    raise an [E]. An exception carries the state reached when it was
    raised: the effects made before it (a dict updated, a file uploaded, a
    message posted) are not undone in Python, and the next call starts
    from them. *)

Definition st (S E A : Type) : Type := S -> result (E * S) (A * S).

(** The state a run ends in, whether it returned or raised. *)
Definition st_final {S E A} (r : result (E * S) (A * S)) : S :=
  match r with Ok (_, s) => s | Err (_, s) => s end.

Definition st_ret {S E A} (a : A) : st S E A := fun s => Ok (a, s).
Definition st_bind {S E A B} (c : st S E A) (k : A -> st S E B) : st S E B :=
  fun s => match c s with
           | Ok (a, s') => k a s'
           | Err es => Err es
           end.
Definition st_get {S E} : st S E S := fun s => Ok (s, s).
Definition st_put {S E} (s : S) : st S E unit := fun _ => Ok (tt, s).
Definition st_modify {S E} (f : S -> S) : st S E unit := fun s => Ok (tt, f s).
Definition st_throw {S E A} (e : E) : st S E A := fun s => Err (e, s).
Definition st_lift {S E A} (r : result E A) : st S E A :=
  fun s => match r with Ok a => Ok (a, s) | Err e => Err (e, s) end.

Notation "x <- c ;; k" := (st_bind c (fun x => k))
  (at level 100, c at next level, right associativity) : agent_scope.
Notation "c ;; k" := (st_bind c (fun _ => k))
  (at level 100, right associativity) : agent_scope.

(** Monadic [for] loop over a list, threading an accumulator. *)
Fixpoint st_fold {S E A B} (f : B -> A -> st S E B) (l : list A) (b : B) : st S E B :=
  match l with
  | [] => st_ret b
  | x :: xs => b' <- f b x ;; st_fold f xs b'
  end.

(** ** Python dictionaries: insertion-ordered association lists.
    [d[k] = v] overwrites in place when [k] is present (its position is
    kept) and appends otherwise; [d.values()] and [d.items()] follow
    insertion order. *)

Section PyDict.
Context {K V : Type} `{EqDecision K}.

Definition pydict := list (K * V).

Fixpoint pd_get (k : K) (d : pydict) : option V :=
  match d with
  | [] => None
  | (k', v) :: d' => if decide (k = k') then Some v else pd_get k d'
  end.

Fixpoint pd_set (k : K) (v : V) (d : pydict) : pydict :=
  match d with
  | [] => [(k, v)]
  | (k', v') :: d' => if decide (k = k') then (k, v) :: d' else (k', v') :: pd_set k v d'
  end.

Definition pd_keys (d : pydict) : list K := map fst d.
Definition pd_values (d : pydict) : list V := map snd d.

Lemma pd_get_set_eq k v d : pd_get k (pd_set k v d) = Some v.
Proof. induction d as [|[k' v'] d IH]; simpl; repeat case_decide; simpl; try case_decide; done. Qed.

Lemma pd_get_set_ne k k' v d : k ≠ k' -> pd_get k' (pd_set k v d) = pd_get k' d.
Proof.
  intros Hne. induction d as [|[k'' v''] d IH]; simpl.
  - case_decide; congruence.
  - repeat (case_decide; simplify_eq; simpl); try done; congruence.
Qed.

Lemma pd_get_None k d : pd_get k d = None <-> k ∉ pd_keys d.
Proof.
  induction d as [|[k' v'] d IH]; simpl.
  - split; [intros _; apply not_elem_of_nil | done].
  - rewrite elem_of_cons. case_decide; [naive_solver |]. rewrite IH. naive_solver.
Qed.

Lemma pd_keys_set_in k v d : k ∈ pd_keys d -> pd_keys (pd_set k v d) = pd_keys d.
Proof.
  induction d as [|[k' v'] d IH]; simpl; [by rewrite elem_of_nil |].
  rewrite elem_of_cons. case_decide; simpl; [congruence |].
  intros [-> | Hin]; [done | by rewrite IH].
Qed.

Lemma pd_keys_set_notin k v d : k ∉ pd_keys d -> pd_keys (pd_set k v d) = pd_keys d ++ [k].
Proof.
  induction d as [|[k' v'] d IH]; simpl; [done |].
  rewrite not_elem_of_cons. intros [Hne Hin]. case_decide; [congruence |].
  simpl. by rewrite IH.
Qed.

Lemma pd_set_NoDup k v d : NoDup (pd_keys d) -> NoDup (pd_keys (pd_set k v d)).
Proof.
  intros Hnd. destruct (decide (k ∈ pd_keys d)) as [Hin | Hin].
  - by rewrite pd_keys_set_in.
  - rewrite pd_keys_set_notin by done. apply NoDup_app. split; [done |].
    split; [set_solver | apply NoDup_singleton].
Qed.

Lemma pd_length_set_in k v d : k ∈ pd_keys d -> length (pd_set k v d) = length d.
Proof.
  intros Hin. pose proof (f_equal length (pd_keys_set_in k v d Hin)) as E.
  unfold pd_keys in E. by rewrite !length_map in E.
Qed.

(** Overwriting a present key keeps its position. *)
Lemma pd_set_app_hit k v w pre post :
  k ∉ pd_keys pre -> pd_set k v (pre ++ (k, w) :: post) = pre ++ (k, v) :: post.
Proof.
  induction pre as [|[k' v'] pre IH]; simpl; intros Hin.
  - by rewrite decide_True.
  - rewrite not_elem_of_cons in Hin. destruct Hin as [Hne Hin].
    rewrite decide_False by done. by rewrite IH.
Qed.

Lemma pd_set_notin k v d : k ∉ pd_keys d -> pd_set k v d = d ++ [(k, v)].
Proof.
  induction d as [|[k' v'] d IH]; simpl; [done |].
  rewrite not_elem_of_cons. intros [Hne Hin]. rewrite decide_False by done. by rewrite IH.
Qed.

(** The key order of a dict built by successive assignments. *)
Definition add_key (ks : list K) (k : K) : list K :=
  if decide (k ∈ ks) then ks else ks ++ [k].

Lemma pd_keys_set k v d : pd_keys (pd_set k v d) = add_key (pd_keys d) k.
Proof.
  unfold add_key. case_decide; [by apply pd_keys_set_in | by apply pd_keys_set_notin].
Qed.

Lemma add_keys_length_le ks l : length (fold_left add_key l ks) <= length ks + length l.
Proof.
  revert ks. induction l as [|k l IH]; intros ks; simpl; [lia |].
  specialize (IH (add_key ks k)). unfold add_key in *. case_decide; rewrite ?length_app in IH; simpl in *; lia.
Qed.

Lemma elem_of_add_keys x ks l : x ∈ fold_left add_key l ks <-> x ∈ ks \/ x ∈ l.
Proof.
  revert ks. induction l as [|k l IH]; intros ks; simpl; [set_solver |].
  rewrite IH. unfold add_key. case_decide; set_solver.
Qed.

Lemma length_pd_keys d : length (pd_keys d) = length d.
Proof. apply length_map. Qed.

(** Assigning pairwise distinct new keys appends them in order. *)
Lemma add_keys_distinct ks l : NoDup (ks ++ l) -> fold_left add_key l ks = ks ++ l.
Proof.
  revert ks. induction l as [|k l IH]; intros ks Hnd; simpl; [by rewrite app_nil_r |].
  unfold add_key at 2. rewrite decide_False.
  - assert (Hnd' : NoDup ((ks ++ [k]) ++ l)) by (by rewrite <- app_assoc).
    rewrite (IH _ Hnd'). by rewrite <- app_assoc.
  - intros Hin. apply NoDup_app in Hnd as (_ & Hdis & _). apply (Hdis k Hin). left.
Qed.

(** A repeated key makes the dict shorter than the list of assignments. *)
Lemma add_keys_dup ks l : NoDup ks -> ~ NoDup (ks ++ l) -> length (fold_left add_key l ks) < length ks + length l.
Proof.
  revert ks. induction l as [|k l IH]; intros ks Hks Hnd; simpl.
  - rewrite app_nil_r in Hnd. done.
  - unfold add_key at 2. case_decide as Hin.
    + pose proof (add_keys_length_le ks l). lia.
    + assert (NoDup (ks ++ [k])) as Hks'.
      { apply NoDup_app. split_and!; [done | | apply NoDup_singleton]. set_solver. }
      specialize (IH (ks ++ [k]) Hks'). rewrite length_app in IH. simpl in IH.
      apply Nat.lt_le_trans with (length ks + 1 + length l); [| lia].
      apply IH. by rewrite <- app_assoc.
Qed.
(** In a dict without repeated keys, a stored pair is what lookup finds. *)
Lemma pd_get_elem_of (d : pydict) k v : NoDup (pd_keys d) -> (k, v) ∈ d -> pd_get k d = Some v.
Proof.
  induction d as [|[k' v'] d IH]; simpl; [by rewrite elem_of_nil |].
  unfold pd_keys. simpl. rewrite NoDup_cons, elem_of_cons. intros [Hn Hnd] [[= -> ->] | Hin].
  - by rewrite decide_True.
  - rewrite decide_False; [by apply IH |]. intros ->. apply Hn. apply list_elem_of_fmap. by exists (k', v).
Qed.

(** Setting a key keeps a property of all pairs that the new pair has. *)
Lemma Forall_pd_set (P : K * V -> Prop) k v (d : pydict) :
  P (k, v) -> Forall P d -> Forall P (pd_set k v d).
Proof.
  induction d as [|[k' v'] d IH]; simpl; intros Hp Hd; [by constructor |].
  inversion Hd; subst. case_decide; constructor; auto.
Qed.

End PyDict.

Arguments pydict : clear implicits.

#[export] Hint Rewrite @pd_get_set_eq : agent.
#[export] Hint Resolve pd_set_NoDup : agent.

(** ** Shared lemmas on results and the monad *)

Lemma result_bind_Ok {E A B} (r : result E A) (k : A -> result E B) b :
  result_bind r k = Ok b <-> exists a, r = Ok a /\ k a = Ok b.
Proof. destruct r; simpl; split; [eauto | naive_solver | done | naive_solver]. Qed.

Lemma st_bind_Ok {S E A B} (c : st S E A) (k : A -> st S E B) s b s' :
  st_bind c k s = Ok (b, s') <-> exists a s1, c s = Ok (a, s1) /\ k a s1 = Ok (b, s').
Proof.
  unfold st_bind. destruct (c s) as [[a s1]|[e s1]]; split; [eauto | naive_solver | done | naive_solver].
Qed.

Lemma st_bind_step {S E A B} (c : st S E A) (k : A -> st S E B) s a s1 :
  c s = Ok (a, s1) -> st_bind c k s = k a s1.
Proof. unfold st_bind. by intros ->. Qed.

Lemma st_bind_err {S E A B} (c : st S E A) (k : A -> st S E B) s e s' :
  c s = Err (e, s') -> st_bind c k s = Err (e, s').
Proof. unfold st_bind. by intros ->. Qed.

(** A bind raises when its first step raises, or when the first step
    returns and the continuation raises. *)
Lemma st_bind_Err {S E A B} (c : st S E A) (k : A -> st S E B) s e s' :
  st_bind c k s = Err (e, s') <->
  c s = Err (e, s') \/ exists a s1, c s = Ok (a, s1) /\ k a s1 = Err (e, s').
Proof.
  unfold st_bind. destruct (c s) as [[a s1]|[e1 s1]]; split; [eauto | naive_solver | naive_solver | naive_solver].
Qed.

(** [c] raises [e] from [s], whatever state it stops in. *)
Definition st_raises {S E A} (c : st S E A) (s : S) (e : E) : Prop :=
  exists s', c s = Err (e, s').

Lemma st_raises_bind_l {S E A B} (c : st S E A) (k : A -> st S E B) s e :
  st_raises c s e -> st_raises (st_bind c k) s e.
Proof. intros [s' H]. exists s'. by apply st_bind_err. Qed.

Lemma st_raises_bind_r {S E A B} (c : st S E A) (k : A -> st S E B) s a s1 e :
  c s = Ok (a, s1) -> st_raises (k a) s1 e -> st_raises (st_bind c k) s e.
Proof. intros H1 H2. unfold st_raises. by rewrite (st_bind_step _ _ _ _ _ H1). Qed.

Lemma st_fold_app {S E A B} (f : B -> A -> st S E B) l1 l2 b s :
  st_fold f (l1 ++ l2) b s = st_bind (st_fold f l1 b) (st_fold f l2) s.
Proof.
  revert b s. induction l1 as [|x l1 IH]; intros b s; simpl; [done |].
  unfold st_bind. destruct (f b x s) as [[b' s']|[e s']]; [| done]. by rewrite IH.
Qed.

Lemma result_mapM_length {E A B} (f : A -> result E B) l ys :
  result_mapM f l = Ok ys -> length ys = length l.
Proof.
  revert ys. induction l as [|x l IH]; intros ys; simpl; [by intros [= <-] |].
  destruct (f x); simpl; [| done]. destruct (result_mapM f l); simpl; [| done].
  intros [= <-]. simpl. by rewrite (IH _ eq_refl).
Qed.

(** What holds of every result of [f] holds of every element [result_mapM f]
    returns. *)
Lemma result_mapM_Forall {E A B} (f : A -> result E B) (P : B -> Prop) l ys :
  (forall x y, f x = Ok y -> P y) -> result_mapM f l = Ok ys -> Forall P ys.
Proof.
  intros Hf. revert ys. induction l as [|x l IH]; intros ys; simpl; [by intros [= <-] |].
  destruct (f x) as [y|] eqn:Ex; simpl; [| done].
  destruct (result_mapM f l) as [ys'|]; simpl; [| done]. intros [= <-]. constructor; eauto.
Qed.

(** A decoder that inverts an encoder on every element inverts it on lists. *)
Lemma result_mapM_map_inv {E A B} (f : A -> result E B) (g : B -> A) l :
  (forall y, y ∈ l -> f (g y) = Ok y) -> result_mapM f (map g l) = Ok l.
Proof.
  induction l as [|y l IH]; intros Hinv; simpl; [done |].
  rewrite Hinv by set_solver. simpl. rewrite IH by set_solver. done.
Qed.

(** The first failing element decides the exception. *)
Lemma result_mapM_first_err {E A B} (f : A -> result E B) l1 x l2 ys e :
  result_mapM f l1 = Ok ys -> f x = Err e -> result_mapM f (l1 ++ x :: l2) = Err e.
Proof.
  revert ys. induction l1 as [|y l1 IH]; intros ys; simpl.
  - intros _ ->. done.
  - destruct (f y); simpl; [| done]. destruct (result_mapM f l1) eqn:E1; simpl; [| done].
    intros _ Hx. by rewrite (IH _ eq_refl Hx).
Qed.

(** A sum of ones is a length. *)
Lemma sum_list_with_one {A} (l : list A) : sum_list_with (fun _ => 1) l = length l.
Proof. induction l; simpl; lia. Qed.

(** ** Pointwise equality of computations

    Two computations are equal when they agree on every start state. The
    relation is coarser than [=] (which would need functional
    extensionality), [st_bind] respects it, and so it rewrites under the
    binders of a [do]-block with [setoid_rewrite]. *)

Definition st_eq {S E A} (c c' : st S E A) : Prop := forall s, c s = c' s.
Infix "≡ₛ" := st_eq (at level 70) : agent_scope.

#[export] Instance st_eq_equiv {S E A} : Equivalence (@st_eq S E A).
Proof. split; [intros c s | intros c c' H s | intros c c' c'' H H' s]; congruence. Qed.

#[export] Instance st_bind_proper {S E A B} :
  Proper (st_eq ==> pointwise_relation A st_eq ==> st_eq) (@st_bind S E A B).
Proof.
  intros c c' Hc k k' Hk s. unfold st_bind. rewrite Hc.
  destruct (c' s) as [[a s']|]; [apply Hk | done].
Qed.

Lemma st_bind_ret_l {S E A B} (a : A) (k : A -> st S E B) : st_bind (st_ret a) k ≡ₛ k a.
Proof. done. Qed.

Lemma st_bind_ret_r {S E A} (c : st S E A) : st_bind c st_ret ≡ₛ c.
Proof. intros s. unfold st_bind, st_ret. by destruct (c s) as [[]|]. Qed.

Lemma st_bind_assoc {S E A B C} (c : st S E A) (k : A -> st S E B) (h : B -> st S E C) :
  st_bind (st_bind c k) h ≡ₛ st_bind c (fun a => st_bind (k a) h).
Proof. intros s. unfold st_bind. by destruct (c s) as [[]|]. Qed.

(** ** Relations a computation keeps between its start and end states *)

Section Preserves.
Context {S E : Type} (R : S -> S -> Prop) {HR : PreOrder R}.

(** [c] relates its start state to the state it ends in, on every run:
    the ones that return and the ones that raise. *)
Definition st_preserves {A} (c : st S E A) : Prop :=
  forall s, R s (st_final (c s)).

Lemma st_preserves_Ok {A} (c : st S E A) s a s' : st_preserves c -> c s = Ok (a, s') -> R s s'.
Proof. intros Hc H. specialize (Hc s). by rewrite H in Hc. Qed.

Lemma st_preserves_Err {A} (c : st S E A) s e s' : st_preserves c -> c s = Err (e, s') -> R s s'.
Proof. intros Hc H. specialize (Hc s). by rewrite H in Hc. Qed.

Lemma st_preserves_ret {A} (a : A) : st_preserves (st_ret a).
Proof. intros s. simpl. reflexivity. Qed.

Lemma st_preserves_throw {A} e : st_preserves (A:=A) (st_throw e).
Proof. intros s. simpl. reflexivity. Qed.

Lemma st_preserves_lift {A} (r : result E A) : st_preserves (st_lift r).
Proof. intros s. unfold st_lift. destruct r; simpl; reflexivity. Qed.

Lemma st_preserves_get : st_preserves st_get.
Proof. intros s. simpl. reflexivity. Qed.

Lemma st_preserves_modify (f : S -> S) : (forall s, R s (f s)) -> st_preserves (st_modify f).
Proof. intros Hf s. apply Hf. Qed.

Lemma st_preserves_bind {A B} (c : st S E A) (k : A -> st S E B) :
  st_preserves c -> (forall a, st_preserves (k a)) -> st_preserves (st_bind c k).
Proof.
  intros Hc Hk s. specialize (Hc s). unfold st_bind.
  destruct (c s) as [[a s1]|[e s1]]; simpl in *; [| done]. etrans; [exact Hc | apply Hk].
Qed.

Lemma st_preserves_fold {A B} (f : B -> A -> st S E B) l b :
  (forall b x, st_preserves (f b x)) -> st_preserves (st_fold f l b).
Proof.
  intros Hf. revert b. induction l as [|x l IH]; intros b; simpl;
    [apply st_preserves_ret | apply st_preserves_bind; auto].
Qed.
(** The same for the runs that raise only: a computation whose last
    steps cannot raise needs the relation only of the steps before them. *)
Definition st_preserves_err {A} (c : st S E A) : Prop :=
  forall s e s', c s = Err (e, s') -> R s s'.

Lemma st_preserves_err_of {A} (c : st S E A) : st_preserves c -> st_preserves_err c.
Proof. intros Hc s e s' H. exact (st_preserves_Err _ _ _ _ Hc H). Qed.

Lemma st_preserves_err_bind {A B} (c : st S E A) (k : A -> st S E B) :
  st_preserves c -> (forall a, st_preserves_err (k a)) -> st_preserves_err (st_bind c k).
Proof.
  intros Hc Hk s e s' H. apply st_bind_Err in H as [H | (a & s1 & H1 & H2)].
  - exact (st_preserves_Err _ _ _ _ Hc H).
  - etrans; [exact (st_preserves_Ok _ _ _ _ Hc H1) | exact (Hk _ _ _ _ H2)].
Qed.

Lemma st_preserves_err_modify_ret {A} (f : S -> S) (a : A) : st_preserves_err (st_modify f ;; st_ret a).
Proof. by intros s e s'. Qed.
Lemma st_preserves_err_total {A} (c : st S E A) :
  (forall s, exists a s', c s = Ok (a, s')) -> st_preserves_err c.
Proof. intros Hc s e s' H. destruct (Hc s) as (a & s1 & H'). congruence. Qed.
End Preserves.

Arguments st_preserves_Ok {S E R A c s a s'} _ _.
Arguments st_preserves_Err {S E R A c s e s'} _ _.

Lemma st_preserves_mono {S E A} (R R' : S -> S -> Prop) (c : st S E A) :
  (forall s s', R s s' -> R' s s') -> st_preserves R c -> st_preserves R' c.
Proof. intros HR Hc s. apply HR, Hc. Qed.

(** Decompose a computation built from binds, folds, conditionals and
    matches into the primitives it calls. *)
Ltac st_preserves_tac :=
  repeat match goal with
  | |- st_preserves _ (st_bind _ _) =>
      refine (@st_preserves_bind _ _ _ _ _ _ _ _ _ _); [| intros ?]
  | |- st_preserves _ (st_fold _ _ _) =>
      refine (@st_preserves_fold _ _ _ _ _ _ _ _ _ _); intros ? ?
  | |- st_preserves _ (st_ret _) => refine (@st_preserves_ret _ _ _ _ _ _)
  | |- st_preserves _ (st_throw _) => refine (@st_preserves_throw _ _ _ _ _ _)
  | |- st_preserves _ (st_lift _) => refine (@st_preserves_lift _ _ _ _ _ _)
  | |- st_preserves _ st_get => refine (@st_preserves_get _ _ _ _)
  | |- st_preserves _ (st_modify _) => refine (@st_preserves_modify _ _ _ _ _); intros ?
  | |- st_preserves _ (if ?b then _ else _) => destruct b
  | |- st_preserves _ (match ?x with _ => _ end) => destruct x
  end.

(** Tactic: unfold one layer of the monad in a goal or hypothesis. *)
Ltac st_simpl := unfold st_bind, st_ret, st_get, st_put, st_modify, st_throw, st_lift in *; simpl in *.

#[export] Hint Rewrite @st_fold_app : agent.
