(* ===== verification/Python.v ===== *)
(** * The Python runtime the program relies on

    - [Json]: the values [json.loads] returns (numbers restricted to
      integers; the code never inspects a number).
    - [dict_of_pairs]: how [json.loads] turns an object into a [dict]
      (a repeated key keeps its first position and its last value).
    - [py_getitem] and [py_iter]: [v[k]] with a string key and
      [for x in v], with the exceptions CPython raises for other types.
    - [exn]: the exceptions that reach the handler; [OutOfFuel] is not a
      Python exception but the outcome of a loop model that ran out of
      fuel (every theorem that concludes a success excludes it).
    - [py_in_list], [py_in_str]: [x in list] and substring [x in s]. *)

From stdpp Require Import base list sets strings.
From S2P Require Import Prelude.

Inductive Json : Type :=
| JNull
| JBool (b : bool)
| JNum (z : Z)
| JStr (s : string)
| JArr (l : list Json)
| JObj (kvs : list (string * Json)).

(** The messages of the [ValueError]s the code raises or triggers. *)
Inductive value_error : Type :=
| UnknownPartType (v : Json)        (* app_mention.py:93 *)
| ToolNotFound (name : string)      (* registry.py:18 *)
| NotEnoughValuesToUnpack           (* app_mention.py:153, empty thread *)
| SingleCandidateRequired (n : nat). (* genai [response.parts] accessor *)

Inductive exn : Type :=
| KeyError (k : string)
| TypeError (msg : string)
| ValueError (v : value_error)
| IndexError
| PermissionDenied (name : string)
| JSONDecodeError
| SlackApiError (what : string)
| OutOfFuel.

Abbreviation pyres := (result exn).

(** [dict(pairs)] / the object hook of [json.loads]. *)
Definition dict_of_pairs (kvs : list (string * Json)) : pydict string Json :=
  fold_left (fun d kv => pd_set kv.1 kv.2 d) kvs [].

(** [v[k]] for a string [k]. *)
Definition py_getitem (v : Json) (k : string) : pyres Json :=
  match v with
  | JObj kvs =>
      match pd_get k (dict_of_pairs kvs) with
      | Some x => Ok x
      | None => Err (KeyError k)
      end
  | JArr _ => Err (TypeError "list indices must be integers or slices, not str")
  | JStr _ => Err (TypeError "string indices must be integers, not 'str'")
  | _ => Err (TypeError "object is not subscriptable")
  end.

(** [for x in v]: lists yield their items, dicts their keys, strings
    their one-character strings. *)
Definition py_iter (v : Json) : pyres (list Json) :=
  match v with
  | JArr l => Ok l
  | JObj kvs => Ok (map JStr (pd_keys (dict_of_pairs kvs)))
  | JStr s => Ok (map (fun c => JStr (String c EmptyString)) (String.list_ascii_of_string s))
  | _ => Err (TypeError "object is not iterable")
  end.

Definition py_in_list (x : string) (l : list string) : bool :=
  existsb (String.eqb x) l.

(** [needle in hay] for strings: substring test. *)
Fixpoint py_in_str (needle hay : string) : bool :=
  String.prefix needle hay ||
  match hay with
  | EmptyString => false
  | String _ hay' => py_in_str needle hay'
  end.

(** ** Lemmas *)

Lemma dict_of_pairs_app kvs1 kvs2 :
  dict_of_pairs (kvs1 ++ kvs2) = fold_left (fun d kv => pd_set kv.1 kv.2 d) kvs2 (dict_of_pairs kvs1).
Proof. unfold dict_of_pairs. by rewrite fold_left_app. Qed.

(** On an object whose keys are pairwise distinct, [v[k]] is the usual
    association-list lookup. *)
Lemma pd_get_fold_distinct (kvs : list (string * Json)) d k :
  NoDup (kvs.*1) ->
  pd_get k (fold_left (fun d kv => pd_set kv.1 kv.2 d) kvs d) =
  match list_find (fun kv => kv.1 = k) kvs with
  | Some (_, kv) => Some kv.2
  | None => pd_get k d
  end.
Proof.
  revert d. induction kvs as [|[k' v'] kvs IH]; intros d Hnd; simpl; [done |].
  rewrite fmap_cons, NoDup_cons in Hnd. destruct Hnd as [Hnotin Hnd']. rewrite IH by done.
  destruct (decide (k' = k)) as [-> | Hne].
  - simpl. destruct (list_find _ kvs) as [[i [k'' v'']]|] eqn:Hf; [| by rewrite pd_get_set_eq].
    apply list_find_Some in Hf as (Hl & Hk & _). simpl in Hk; subst.
    exfalso. apply Hnotin. apply list_elem_of_lookup. exists i. by rewrite list_lookup_fmap, Hl.
  - destruct (list_find _ kvs) as [[i [k'' v'']]|]; simpl; [done |]. by apply pd_get_set_ne.
Qed.

Lemma py_getitem_obj_distinct kvs k :
  NoDup (kvs.*1) ->
  py_getitem (JObj kvs) k =
  match list_find (fun kv => kv.1 = k) kvs with
  | Some (_, kv) => Ok kv.2
  | None => Err (KeyError k)
  end.
Proof.
  intros Hnd. unfold py_getitem, dict_of_pairs. rewrite pd_get_fold_distinct by done.
  by destruct (list_find _ kvs) as [[i [k'' v'']]|].
Qed.

(** An object without repeated keys becomes the dict of its pairs. *)
Lemma fold_pd_set_distinct (kvs : list (string * Json)) d :
  NoDup (pd_keys d ++ kvs.*1) -> fold_left (fun d kv => pd_set kv.1 kv.2 d) kvs d = d ++ kvs.
Proof.
  revert d. induction kvs as [|[k v] kvs IH]; intros d Hnd; simpl; [by rewrite app_nil_r |].
  rewrite fmap_cons in Hnd. apply NoDup_app in Hnd as (Hd & Hdis & Hkvs).
  rewrite pd_set_notin by (intros Hin; by apply (Hdis k); [| left]).
  rewrite IH, <- app_assoc; [done |].
  unfold pd_keys. rewrite map_app. simpl. rewrite <- app_assoc. simpl.
  apply NoDup_app. split; [done | split; [| done]].
  intros x Hx Hx'. apply (Hdis x Hx). done.
Qed.

Lemma dict_of_pairs_distinct kvs : NoDup (kvs.*1) -> dict_of_pairs kvs = kvs.
Proof. intros Hnd. apply (fold_pd_set_distinct kvs []). done. Qed.

Lemma py_in_str_prefix needle hay : String.prefix needle hay = true -> py_in_str needle hay = true.
Proof. destruct hay; simpl; intros ->; done. Qed.

Lemma prefix_spec (needle hay : string) :
  String.prefix needle hay = true <-> exists post, hay = (needle ++ post)%string.
Proof.
  revert hay. induction needle as [|a needle IH]; intros [|b hay]; simpl.
  - split; [intros _; by exists EmptyString | done].
  - split; [intros _; by exists (String b hay) | done].
  - split; [done | by intros [post ?]].
  - destruct (Ascii.ascii_dec a b) as [-> | Hne].
    + rewrite IH. split; intros [post Hp]; exists post; [by rewrite Hp | by injection Hp].
    + split; [done | intros [post Hp]; injection Hp as ->; done].
Qed.

Lemma py_in_str_unfold needle hay :
  py_in_str needle hay =
  String.prefix needle hay || match hay with EmptyString => false | String _ hay' => py_in_str needle hay' end.
Proof. by destruct hay. Qed.

(** [x in s] for strings is the substring relation. *)
Lemma py_in_str_spec (needle hay : string) :
  py_in_str needle hay = true <-> exists pre post, hay = (pre ++ needle ++ post)%string.
Proof.
  induction hay as [|c hay IH]; rewrite py_in_str_unfold, orb_true_iff, prefix_spec.
  - split; [intros [[post Hp] | ?]; [by exists EmptyString, post | done] |].
    intros (pre & post & Hp). left. exists post. by destruct pre.
  - rewrite IH. split.
    + intros [[post Hp] | (pre & post & Hp)]; [by exists EmptyString, post |].
      exists (String c pre), post. by rewrite Hp.
    + intros ([|c' pre] & post & Hp); [left; by exists post |].
      right. injection Hp as -> ->. by exists pre, post.
Qed.

(** A repeated key keeps the last value it was given. *)
Lemma pd_get_fold_last (kvs : list (string * Json)) d k :
  pd_get k (fold_left (fun d kv => pd_set kv.1 kv.2 d) kvs d) =
  match last (omap (fun kv => if decide (kv.1 = k) then Some kv.2 else None) kvs) with
  | Some v => Some v
  | None => pd_get k d
  end.
Proof.
  revert d. induction kvs as [|[k' v'] kvs IH]; intros d; simpl; [done |]. rewrite IH.
  case_decide as Hk; simpl.
  - subst k'. rewrite last_cons. destruct (last _); [done | by rewrite pd_get_set_eq].
  - destruct (last _); [done | by apply pd_get_set_ne].
Qed.

Lemma fold_pd_set_NoDup (kvs : list (string * Json)) d :
  NoDup (pd_keys d) -> NoDup (pd_keys (fold_left (fun d kv => pd_set kv.1 kv.2 d) kvs d)).
Proof. revert d. induction kvs as [|kv kvs IH]; intros d Hd; simpl; [done | apply IH, pd_set_NoDup, Hd]. Qed.

(** [json.loads] never gives a dict with a repeated key. *)
Lemma dict_of_pairs_NoDup kvs : NoDup (pd_keys (dict_of_pairs kvs)).
Proof. apply fold_pd_set_NoDup. constructor. Qed.
