(* ===== verification/Json.v ===== *)
(** * The [json] module: [json.dumps] and [json.loads] on byte strings

    app_mention.py writes the function-call history with
    [json.dumps(function_call_history, ensure_ascii=False, indent=2)]
    (line 221) and reads it back with
    [json.loads(request_response.content)] (line 74).  This file models
    both on the UTF-8 bytes of the text ([string], one [ascii] per byte):

    - [dumps lvl v]: CPython's [_make_iterencode] with [indent=2] and the
      separators [(",", ": ")] that [indent] selects: [null], [true],
      [false], integers by [int.__repr__] (stdpp's [pretty] on [Z]),
      strings by [py_encode_basestring] (the escapes of
      [ensure_ascii=False]), and lists and dicts one item per line,
      indented by two spaces per level, [[]] and [{}] when empty;
    - [json_loads_str s]: the scanner of [json.decoder]
      ([JSONArray], [JSONObject], [scanstring], [NUMBER_RE]) with the
      whitespace [WHITESPACE] skips, and the "Extra data" check of
      [JSONDecoder.decode].  The value parsers are mutual fixpoints on a
      fuel; every call consumes a character first, so [length s] is
      enough (theorem [json_loads_dumps]).

    Not modelled: floats, [NaN] and [Infinity] (the model's [Json] has
    integers only; the parser rejects a fraction or an exponent, where
    Python returns a [float]), lone surrogate escapes (Python keeps them
    in the [str]; they have no UTF-8 encoding, the parser rejects them),
    and the byte-level decoding [json.loads] does first (a BOM, UTF-16 or
    invalid UTF-8): the bytes are taken to be UTF-8. *)

From stdpp Require Import base list strings pretty.
From Stdlib Require Import Ascii.
From S2P Require Import Prelude Python.

(** ** Characters *)

Definition ch_quote : ascii := "034"%char.
Definition ch_backslash : ascii := "092"%char.

(** The characters of [WHITESPACE = r'[ \t\n\r]*']. *)
Definition is_ws (c : ascii) : bool :=
  Ascii.eqb c " " || Ascii.eqb c "009" || Ascii.eqb c "010" || Ascii.eqb c "013".

Definition is_digit (c : ascii) : bool :=
  (48 <=? N_of_ascii c)%N && (N_of_ascii c <=? 57)%N.

Definition digit_val (c : ascii) : N := (N_of_ascii c - 48)%N.

(** The value of a hexadecimal digit of a [\uXXXX] escape. *)
Local Open Scope N_scope.
Definition hex_val (c : ascii) : option N :=
  let n := N_of_ascii c in
  if (48 <=? n) && (n <=? 57) then Some (n - 48)
  else if (97 <=? n) && (n <=? 102) then Some (n - 87)
  else if (65 <=? n) && (n <=? 70) then Some (n - 55)
  else None.

(** A lower-case hexadecimal digit, as ['{0:04x}'.format] writes it. *)
Definition hex_char (n : N) : ascii :=
  if n <? 10 then ascii_of_N (48 + n) else ascii_of_N (87 + n).

Local Close Scope N_scope.

(** ** [json.dumps(v, ensure_ascii=False, indent=2)] *)

(** [ESCAPE_DCT] of [json.encoder]: the two-character escapes, and
    [\u00xx] for the other control characters. *)
Definition escape_char (c : ascii) : string :=
  let n := N_of_ascii c in
  if Ascii.eqb c ch_quote then String ch_backslash (String ch_quote "")
  else if Ascii.eqb c ch_backslash then String ch_backslash (String ch_backslash "")
  else if Ascii.eqb c "010" then String ch_backslash "n"
  else if Ascii.eqb c "013" then String ch_backslash "r"
  else if Ascii.eqb c "009" then String ch_backslash "t"
  else if Ascii.eqb c "008" then String ch_backslash "b"
  else if Ascii.eqb c "012" then String ch_backslash "f"
  else if (n <? 32)%N then
    String ch_backslash (String "u" (String "0" (String "0"
      (String (hex_char (n / 16)%N) (String (hex_char (n mod 16)%N) "")))))
  else String c "".

Fixpoint escape (s : string) : string :=
  match s with
  | EmptyString => ""
  | String c r => escape_char c +:+ escape r
  end.

(** [py_encode_basestring]. *)
Definition dumps_str (s : string) : string :=
  String ch_quote (escape s +:+ String ch_quote "").

(** [int.__repr__]. *)
Definition dumps_int (z : Z) : string := pretty z.

Fixpoint spaces (n : nat) : string :=
  match n with 0 => "" | S n => String " " (spaces n) end.

(** [newline_indent] at a nesting level: ['\n' + ' ' * (2 * lvl)]. *)
Definition nl (lvl : nat) : string := String "010" (spaces (2 * lvl)%nat).

(** The items after the first, each preceded by the separator. *)
Fixpoint seps (sep : string) (items : list string) : string :=
  match items with
  | [] => ""
  | x :: xs => sep +:+ x +:+ seps sep xs
  end.

(** [_iterencode] at nesting level [lvl]. *)
Fixpoint dumps (lvl : nat) (v : Json) : string :=
  match v with
  | JNull => "null"
  | JBool true => "true"
  | JBool false => "false"
  | JNum z => dumps_int z
  | JStr s => dumps_str s
  | JArr [] => "[]"
  | JArr (x :: xs) =>
      "[" +:+ nl (S lvl) +:+ dumps (S lvl) x
        +:+ seps ("," +:+ nl (S lvl)) (map (dumps (S lvl)) xs)
        +:+ nl lvl +:+ "]"
  | JObj [] => "{}"
  | JObj ((k, x) :: kvs) =>
      "{" +:+ nl (S lvl) +:+ dumps_str k +:+ ": " +:+ dumps (S lvl) x
        +:+ seps ("," +:+ nl (S lvl))
              (map (fun kv => dumps_str kv.1 +:+ ": " +:+ dumps (S lvl) kv.2) kvs)
        +:+ nl lvl +:+ "}"
  end.

Definition json_dumps (v : Json) : string := dumps 0 v.

(** ** [json.loads(s)] *)

Fixpoint skip_ws (s : string) : string :=
  match s with
  | String c r => if is_ws c then skip_ws r else s
  | EmptyString => EmptyString
  end.

(** [s[idx:idx + len(p)] == p], returning what follows. *)
Fixpoint strip_prefix (p s : string) : option string :=
  match p, s with
  | EmptyString, _ => Some s
  | String a p', String b s' => if Ascii.eqb a b then strip_prefix p' s' else None
  | _, _ => None
  end.

Local Open Scope N_scope.

(** The UTF-8 bytes of a code point (below [0x110000]). *)
Definition utf8 (cp : N) : string :=
  if cp <? 128 then String (ascii_of_N cp) ""
  else if cp <? 2048 then
    String (ascii_of_N (192 + cp / 64)) (String (ascii_of_N (128 + cp mod 64)) "")
  else if cp <? 65536 then
    String (ascii_of_N (224 + cp / 4096))
      (String (ascii_of_N (128 + (cp / 64) mod 64))
        (String (ascii_of_N (128 + cp mod 64)) ""))
  else
    String (ascii_of_N (240 + cp / 262144))
      (String (ascii_of_N (128 + (cp / 4096) mod 64))
        (String (ascii_of_N (128 + (cp / 64) mod 64))
          (String (ascii_of_N (128 + cp mod 64)) ""))).

Definition hex4 (a b c d : ascii) : option N :=
  match hex_val a, hex_val b, hex_val c, hex_val d with
  | Some w, Some x, Some y, Some z => Some (((w * 16 + x) * 16 + y) * 16 + z)
  | _, _, _, _ => None
  end.

Definition is_high_surrogate (cp : N) : bool := (55296 <=? cp) && (cp <=? 56319).
Definition is_low_surrogate (cp : N) : bool := (56320 <=? cp) && (cp <=? 57343).

(** [BACKSLASH] of [json.decoder]: the one-character escapes. *)
Definition unescape (e : ascii) : option ascii :=
  if Ascii.eqb e ch_quote then Some ch_quote
  else if Ascii.eqb e ch_backslash then Some ch_backslash
  else if Ascii.eqb e "/" then Some "/"%char
  else if Ascii.eqb e "b" then Some "008"%char
  else if Ascii.eqb e "f" then Some "012"%char
  else if Ascii.eqb e "n" then Some "010"%char
  else if Ascii.eqb e "r" then Some "013"%char
  else if Ascii.eqb e "t" then Some "009"%char
  else None.

Local Close Scope N_scope.

Definition prepend (p : string) (o : option (string * string)) : option (string * string) :=
  match o with
  | Some (x, r) => Some (p +:+ x, r)
  | None => None
  end.

(** [scanstring(s, end, strict=True)], after the opening quote: the
    decoded string and what follows the closing quote. *)
Fixpoint parse_str (s : string) : option (string * string) :=
  match s with
  | EmptyString => None
  | String c r =>
      if Ascii.eqb c ch_quote then Some (EmptyString, r)
      else if Ascii.eqb c ch_backslash then
        match r with
        | EmptyString => None
        | String e r1 =>
            if Ascii.eqb e "u" then
              match r1 with
              | String a (String b (String c' (String d r2))) =>
                  match hex4 a b c' d with
                  | None => None
                  | Some cp =>
                      if is_high_surrogate cp then
                        match r2 with
                        | String x (String y (String a2 (String b2 (String c2 (String d2 r3))))) =>
                            if Ascii.eqb x ch_backslash && Ascii.eqb y "u" then
                              match hex4 a2 b2 c2 d2 with
                              | Some lo =>
                                  if is_low_surrogate lo then
                                    prepend (utf8 (65536 + (cp - 55296) * 1024 + (lo - 56320)))
                                      (parse_str r3)
                                  else None
                              | None => None
                              end
                            else None
                        | _ => None
                        end
                      else if is_low_surrogate cp then None
                      else prepend (utf8 cp) (parse_str r2)
                  end
              | _ => None
              end
            else
              match unescape e with
              | Some ch => prepend (String ch "") (parse_str r1)
              | None => None
              end
        end
      else if (N_of_ascii c <? 32)%N then None
      else prepend (String c "") (parse_str r)
  end.

Fixpoint read_digits (acc : N) (s : string) : N * string :=
  match s with
  | String c r => if is_digit c then read_digits (acc * 10 + digit_val c)%N r else (acc, s)
  | EmptyString => (acc, EmptyString)
  end.

(** [0|[1-9]\d*], the first character already read. *)
Definition parse_nat (c : ascii) (r : string) : option (N * string) :=
  if Ascii.eqb c "0" then Some (0%N, r)
  else if is_digit c then Some (read_digits (digit_val c) r)
  else None.

Definition starts_digit (s : string) : bool :=
  match s with String c _ => is_digit c | EmptyString => false end.

(** The optional fraction [(\.\d+)?] and exponent [([eE][-+]?\d+)?] of
    [NUMBER_RE]: when one follows the integer part, the number is a
    float. *)
Definition float_start (s : string) : bool :=
  match s with
  | String c r =>
      (Ascii.eqb c "." && starts_digit r)
      || ((Ascii.eqb c "e" || Ascii.eqb c "E")
          && (starts_digit r
              || match r with
                 | String sg r' => (Ascii.eqb sg "+" || Ascii.eqb sg "-") && starts_digit r'
                 | EmptyString => false
                 end))
  | EmptyString => false
  end.

(** [NUMBER_RE] ([-?(?:0|[1-9]\d* )] followed by the optional fraction
    and exponent) on an integer. *)
Definition parse_number (c : ascii) (r : string) : option (Json * string) :=
  let signed :=
    if Ascii.eqb c "-" then
      match r with
      | String d r' => option_map (fun nr => (Z.opp (Z.of_N nr.1), nr.2)) (parse_nat d r')
      | EmptyString => None
      end
    else option_map (fun nr => (Z.of_N nr.1, nr.2)) (parse_nat c r) in
  match signed with
  | Some (z, r') => if float_start r' then None else Some (JNum z, r')
  | None => None
  end.

(** [parse_object]'s reading of one member, after the opening quote of
    its key: the key, the colon and the value ([pv] parses a value from
    its first character). *)
Definition parse_member (pv : ascii -> string -> option (Json * string)) (r : string)
    : option ((string * Json) * string) :=
  match parse_str r with
  | Some (k, r1) =>
      match skip_ws r1 with
      | String colon r2 =>
          if Ascii.eqb colon ":" then
            match skip_ws r2 with
            | String c r3 =>
                match pv c r3 with
                | Some (v, r4) => Some ((k, v), r4)
                | None => None
                end
            | EmptyString => None
            end
          else None
      | EmptyString => None
      end
  | None => None
  end.

(** [scan_once] (a value whose first character [c] has been read),
    [JSONArray] and [JSONObject] after their first item ([acc] holds the
    items read, [s] starts after the whitespace that follows the last). *)
Fixpoint parse_value (fuel : nat) (c : ascii) (r : string) {struct fuel}
    : option (Json * string) :=
  match fuel with
  | 0 => None
  | S f =>
      if Ascii.eqb c ch_quote then
        match parse_str r with
        | Some (x, r') => Some (JStr x, r')
        | None => None
        end
      else if Ascii.eqb c "[" then
        match skip_ws r with
        | String c' r' =>
            if Ascii.eqb c' "]" then Some (JArr [], r')
            else match parse_value f c' r' with
                 | Some (v, r'') => parse_array f [v] (skip_ws r'')
                 | None => None
                 end
        | EmptyString => None
        end
      else if Ascii.eqb c "{" then
        match skip_ws r with
        | String c' r' =>
            if Ascii.eqb c' "}" then Some (JObj [], r')
            else if Ascii.eqb c' ch_quote then
              match parse_member (parse_value f) r' with
              | Some (kv, r'') => parse_object f [kv] (skip_ws r'')
              | None => None
              end
            else None
        | EmptyString => None
        end
      else if Ascii.eqb c "n" then option_map (fun r' => (JNull, r')) (strip_prefix "ull" r)
      else if Ascii.eqb c "t" then option_map (fun r' => (JBool true, r')) (strip_prefix "rue" r)
      else if Ascii.eqb c "f" then option_map (fun r' => (JBool false, r')) (strip_prefix "alse" r)
      else parse_number c r
  end
with parse_array (fuel : nat) (acc : list Json) (s : string) {struct fuel}
    : option (Json * string) :=
  match fuel with
  | 0 => None
  | S f =>
      match s with
      | String c r =>
          if Ascii.eqb c "]" then Some (JArr acc, r)
          else if Ascii.eqb c "," then
            match skip_ws r with
            | String c' r' =>
                match parse_value f c' r' with
                | Some (v, r'') => parse_array f (acc ++ [v]) (skip_ws r'')
                | None => None
                end
            | EmptyString => None
            end
          else None
      | EmptyString => None
      end
  end
with parse_object (fuel : nat) (acc : list (string * Json)) (s : string) {struct fuel}
    : option (Json * string) :=
  match fuel with
  | 0 => None
  | S f =>
      match s with
      | String c r =>
          if Ascii.eqb c "}" then Some (JObj acc, r)
          else if Ascii.eqb c "," then
            match skip_ws r with
            | String c' r' =>
                if Ascii.eqb c' ch_quote then
                  match parse_member (parse_value f) r' with
                  | Some (kv, r'') => parse_object f (acc ++ [kv]) (skip_ws r'')
                  | None => None
                  end
                else None
            | EmptyString => None
            end
          else None
      | EmptyString => None
      end
  end.

(** [json.loads(s)]: [JSONDecoder.decode], which skips the whitespace
    around the value and raises on anything else after it. *)
Definition json_loads_str (s : string) : pyres Json :=
  match skip_ws s with
  | String c r =>
      match parse_value (String.length s) c r with
      | Some (v, r') =>
          match skip_ws r' with
          | EmptyString => Ok v
          | String _ _ => Err JSONDecodeError
          end
      | None => Err JSONDecodeError
      end
  | EmptyString => Err JSONDecodeError
  end.

(** ** Lemmas on strings and digits *)

Create HintDb json discriminated.
Create Rewrite HintDb json_len.

(** stdpp makes [String.append] opaque to [simpl]; the proofs below
    compute it on a known head. *)
Local Arguments String.append : simpl nomatch.

Lemma string_app_assoc (a b c : string) : (a +:+ b) +:+ c = a +:+ (b +:+ c).
Proof. induction a; simpl; congruence. Qed.

Lemma string_app_nil_l (a : string) : "" +:+ a = a.
Proof. reflexivity. Qed.

Lemma string_app_cons c (a b : string) : String c a +:+ b = String c (a +:+ b).
Proof. reflexivity. Qed.

Lemma string_app_nil_r (a : string) : a +:+ "" = a.
Proof. induction a; simpl; congruence. Qed.

Lemma string_length_app (a b : string) :
  String.length (a +:+ b) = (String.length a + String.length b)%nat.
Proof. induction a; simpl; lia. Qed.

#[export] Hint Rewrite string_length_app : json_len.

Local Arguments nl : simpl never.

Lemma nl_app lvl t : nl lvl +:+ t = String "010" (spaces (2 * lvl) +:+ t).
Proof. reflexivity. Qed.

Lemma skip_ws_nonws c r : is_ws c = false -> skip_ws (String c r) = String c r.
Proof. simpl. by intros ->. Qed.

Ltac len_tac := do 4 (autorewrite with json_len in *; cbn [String.length dumps dumps_str] in *); lia.

Lemma skip_ws_spaces n s : skip_ws (spaces n +:+ s) = skip_ws s.
Proof. induction n; simpl; auto. Qed.

Lemma skip_ws_nl lvl s : skip_ws (nl lvl +:+ s) = skip_ws s.
Proof. apply skip_ws_spaces. Qed.

Lemma skip_ws_length s : (String.length (skip_ws s) <= String.length s)%nat.
Proof. induction s; simpl; [lia|]. case_match; simpl; lia. Qed.

Lemma pretty_N_char_digit n : is_digit (pretty_N_char n) = true.
Proof. unfold pretty_N_char. repeat case_match; reflexivity. Qed.

Lemma digit_val_pretty_N_char n : (n < 10)%N -> digit_val (pretty_N_char n) = n.
Proof.
  intros Hn. destruct n as [|p]; [reflexivity|].
  do 4 (destruct p as [p|p|]; try reflexivity); lia.
Qed.

Lemma pretty_N_go_app x s t : pretty_N_go x s +:+ t = pretty_N_go x (s +:+ t).
Proof.
  revert s. induction (N.lt_wf_0 x) as [x _ IH]; intros s.
  destruct (decide (x = 0)%N) as [->|?]; [by rewrite !pretty_N_go_0|].
  rewrite !(pretty_N_go_step x) by lia.
  rewrite IH; [done|]. apply N.div_lt; lia.
Qed.

(** Reading the digits [pretty_N_go x] wrote accumulates [x]. *)
Lemma read_digits_pretty x acc s :
  exists k, read_digits acc (pretty_N_go x s) = read_digits (acc * 10 ^ k + x)%N s.
Proof.
  revert s. induction (N.lt_wf_0 x) as [x _ IH]; intros s.
  destruct (decide (x = 0)%N) as [->|?].
  { exists 0%N. rewrite pretty_N_go_0. f_equal. lia. }
  rewrite pretty_N_go_step by lia.
  destruct (IH (x / 10)%N ltac:(apply N.div_lt; lia)
              (String (pretty_N_char (x mod 10)) s)) as [k ->].
  exists (N.succ k). simpl. rewrite pretty_N_char_digit, digit_val_pretty_N_char
    by (apply N.mod_lt; lia).
  f_equal. rewrite N.pow_succ_r'. pose proof (N.div_mod x 10). lia.
Qed.

Lemma pretty_N_go_head x s :
  (0 < x)%N ->
  exists d r, pretty_N_go x s = String d r /\ is_digit d = true /\ digit_val d <> 0%N.
Proof.
  revert s. induction (N.lt_wf_0 x) as [x _ IH]; intros s Hx.
  rewrite pretty_N_go_step by lia.
  destruct (decide (x / 10 = 0)%N) as [Hq|Hq].
  - rewrite Hq, pretty_N_go_0. eexists _, _. split; [done|].
    rewrite pretty_N_char_digit, digit_val_pretty_N_char by (apply N.mod_lt; lia).
    split; [done|]. rewrite N.div_small_iff in Hq by lia. rewrite N.mod_small; lia.
  - apply IH; [apply N.div_lt; lia|]. revert Hq. generalize (x / 10)%N. lia.
Qed.

(** What may follow a number: nothing that would extend it. *)
Definition stops (s : string) : bool :=
  match s with
  | EmptyString => true
  | String c _ =>
      negb (is_digit c) && negb (Ascii.eqb c ".") && negb (Ascii.eqb c "e")
      && negb (Ascii.eqb c "E")
  end.

Lemma stops_read_digits acc s : stops s = true -> read_digits acc s = (acc, s).
Proof.
  destruct s as [|c r]; simpl; [done|].
  intros H. repeat apply andb_prop in H as [H ?]. apply negb_true_iff in H. by rewrite H.
Qed.

Lemma stops_float_start s : stops s = true -> float_start s = false.
Proof.
  destruct s as [|c r]; simpl; [done|]. intros H.
  repeat apply andb_prop in H as [H ?]. rewrite !negb_true_iff in *.
  by repeat match goal with Hc : Ascii.eqb _ _ = false |- _ => rewrite Hc; clear Hc end.
Qed.

(** [scanstring] reads back each escape [py_encode_basestring] writes. *)
Lemma parse_str_escape_char c s :
  parse_str (escape_char c +:+ s) = prepend (String c "") (parse_str s).
Proof. destruct c as [[] [] [] [] [] [] [] []]; reflexivity. Qed.

Lemma parse_str_escape str rest :
  parse_str (escape str +:+ String ch_quote rest) = Some (str, rest).
Proof.
  induction str as [|c str IH]; [done|].
  simpl. rewrite string_app_assoc, parse_str_escape_char, IH. done.
Qed.

(** ** The round trip *)

(** Induction on [Json] through the lists it nests. *)
Lemma Json_ind' (P : Json -> Prop) :
  P JNull -> (forall b, P (JBool b)) -> (forall z, P (JNum z)) -> (forall s, P (JStr s)) ->
  (forall l, Forall P l -> P (JArr l)) ->
  (forall kvs, Forall (fun kv => P kv.2) kvs -> P (JObj kvs)) ->
  forall v, P v.
Proof.
  intros Hn Hb Hz Hs Ha Ho. fix IH 1. intros [| b | z | s | l | kvs].
  - exact Hn.
  - apply Hb.
  - apply Hz.
  - apply Hs.
  - apply Ha. induction l as [|x l IHl]; constructor; [apply IH | exact IHl].
  - apply Ho. induction kvs as [|[k x] kvs IHk]; constructor; [apply IH | exact IHk].
Qed.

Lemma parse_nat_pretty x rest :
  (0 < x)%N -> stops rest = true ->
  exists d r, pretty_N_go x "" +:+ rest = String d r /\ is_digit d = true
              /\ parse_nat d r = Some (x, rest).
Proof.
  intros Hx Hs. rewrite pretty_N_go_app. simpl (_ +:+ _).
  destruct (pretty_N_go_head x rest Hx) as (d & r & Hdr & Hd & Hv).
  exists d, r. do 2 (split; [done|]).
  unfold parse_nat. destruct (Ascii.eqb_spec d "0") as [->|_]; [done|]. rewrite Hd.
  destruct (read_digits_pretty x 0 rest) as [k Hk]. rewrite Hdr in Hk. simpl in Hk.
  rewrite Hd, N.mul_0_l, N.add_0_l in Hk. rewrite Hk, stops_read_digits; done.
Qed.

(** The first character of a number. *)
Definition num_head (c : ascii) : bool := is_digit c || Ascii.eqb c "-".

Lemma num_head_neq c d : num_head c = true -> num_head d = false -> Ascii.eqb c d = false.
Proof. intros Hc Hd. destruct (Ascii.eqb_spec c d); subst; congruence. Qed.

Lemma digit_neq c d : is_digit c = true -> is_digit d = false -> Ascii.eqb c d = false.
Proof. intros Hc Hd. destruct (Ascii.eqb_spec c d); subst; congruence. Qed.

Lemma parse_number_dumps z rest :
  stops rest = true ->
  exists c r, dumps_int z +:+ rest = String c r /\ num_head c = true
              /\ parse_number c r = Some (JNum z, rest).
Proof.
  intros Hs. unfold dumps_int, pretty, pretty_Z. destruct z as [|p|p].
  - exists "0"%char, rest. do 2 (split; [done|]).
    unfold parse_number. simpl. by rewrite stops_float_start.
  - change (pretty (N.pos p)) with (pretty_N_go (N.pos p) "").
    destruct (parse_nat_pretty (Npos p) rest) as (d & r & Hdr & Hd & Hp); [lia|done|].
    exists d, r. split; [done|]. unfold num_head. rewrite Hd. split; [done|].
    unfold parse_number. rewrite (digit_neq d "-") by done.
    rewrite Hp. simpl. by rewrite stops_float_start.
  - change (pretty p) with (pretty_N_go (N.pos p) "").
    destruct (parse_nat_pretty (Npos p) rest) as (d & r & Hdr & Hd & Hp); [lia|done|].
    exists "-"%char, (String d r).
    change (("-" +:+ pretty_N_go (N.pos p) "") +:+ rest)
      with (String "-" (pretty_N_go (N.pos p) "" +:+ rest)).
    rewrite Hdr. do 2 (split; [done|]).
    unfold parse_number. simpl. rewrite Hp. simpl. by rewrite stops_float_start.
Qed.

(** [dumps v] followed by [rest] parses back to [v], leaving [rest],
    given fuel for the characters read. *)
Definition dumps_parses (v : Json) : Prop :=
  forall lvl fuel rest, stops rest = true ->
  (String.length (dumps lvl v +:+ rest) <= fuel)%nat ->
  exists c r, dumps lvl v +:+ rest = String c r /\ is_ws c = false
              /\ Ascii.eqb c "]" = false /\ parse_value fuel c r = Some (v, rest).

Abbreviation item_sep lvl := (String "," (nl (S lvl))).

Lemma stops_seps lvl items t :
  stops (seps (item_sep lvl) items +:+ nl lvl +:+ t) = true.
Proof. destruct items; reflexivity. Qed.

(** The separator and indentation after the first item of a list or
    dict, up to its closing bracket. *)
Definition tail_text (lvl : nat) (items : list string) (close : ascii) (rest : string) :=
  seps (item_sep lvl) items +:+ nl lvl +:+ String close rest.

Lemma dumps_arr_app lvl x xs rest :
  dumps lvl (JArr (x :: xs)) +:+ rest
  = String "[" (nl (S lvl) +:+ dumps (S lvl) x
                +:+ tail_text lvl (map (dumps (S lvl)) xs) "]" rest).
Proof. cbn [dumps map]. unfold tail_text. rewrite !string_app_assoc. reflexivity. Qed.

Abbreviation member lvl := (fun kv : string * Json => dumps_str kv.1 +:+ ": " +:+ dumps (S lvl) kv.2).

Lemma member_app lvl k x t :
  dumps_str k +:+ ": " +:+ dumps (S lvl) x +:+ t
  = String ch_quote (escape k +:+ String ch_quote (String ":" (String " " (dumps (S lvl) x +:+ t)))).
Proof. unfold dumps_str. simpl. rewrite string_app_assoc. reflexivity. Qed.

Lemma dumps_obj_app lvl k x kvs rest :
  dumps lvl (JObj ((k, x) :: kvs)) +:+ rest
  = String "{" (nl (S lvl) +:+ dumps_str k +:+ ": " +:+ dumps (S lvl) x
                +:+ tail_text lvl (map (member lvl) kvs) "}" rest).
Proof. cbn [dumps map]. unfold tail_text. rewrite !string_app_assoc. reflexivity. Qed.

#[local] Opaque nl.

Lemma parse_member_dumps lvl k x f t :
  dumps_parses x -> stops t = true ->
  (String.length (dumps (S lvl) x +:+ t) <= f)%nat ->
  parse_member (parse_value f) (escape k +:+ String ch_quote (String ":" (String " " (dumps (S lvl) x +:+ t))))
  = Some ((k, x), t).
Proof.
  intros Hx Hs Hlen. unfold parse_member. rewrite parse_str_escape. simpl.
  destruct (Hx (S lvl) f t Hs Hlen) as (c & r & -> & Hws & _ & Hp).
  by rewrite skip_ws_nonws, Hp.
Qed.

Lemma parse_array_items lvl xs acc fuel rest :
  Forall dumps_parses xs ->
  (String.length (tail_text lvl (map (dumps (S lvl)) xs) "]" rest) <= fuel)%nat ->
  parse_array fuel acc (skip_ws (tail_text lvl (map (dumps (S lvl)) xs) "]" rest))
  = Some (JArr (acc ++ xs), rest).
Proof.
  unfold tail_text. revert acc fuel.
  induction xs as [|y ys IH]; intros acc fuel Hall Hlen; simpl in *.
  - rewrite skip_ws_nl. destruct fuel; [len_tac|]. simpl. by rewrite app_nil_r.
  - inversion Hall as [|?? Hy Hys]; subst. rewrite !string_app_assoc in *.
    destruct fuel as [|f]; [len_tac|]. simpl. rewrite skip_ws_nl.
    destruct (Hy (S lvl) f (seps (item_sep lvl) (map (dumps (S lvl)) ys) +:+ nl lvl +:+ String "]" rest))
      as (c & r & Heq & Hws & _ & Hp); [apply stops_seps | len_tac |].
    rewrite Heq, skip_ws_nonws, Hp by done.
    rewrite IH by (done || len_tac). by rewrite <- app_assoc.
Qed.

Lemma parse_object_comma f acc lvl X :
  parse_object (S f) acc (String "," (nl (S lvl) +:+ String ch_quote X))
  = match parse_member (parse_value f) X with
    | Some (kv, r) => parse_object f (acc ++ [kv]) (skip_ws r)
    | None => None
    end.
Proof. simpl. rewrite skip_ws_nl. reflexivity. Qed.

Lemma parse_value_object f lvl X :
  parse_value (S f) "{" (nl (S lvl) +:+ String ch_quote X)
  = match parse_member (parse_value f) X with
    | Some (kv, r) => parse_object f [kv] (skip_ws r)
    | None => None
    end.
Proof. simpl. rewrite skip_ws_nl. reflexivity. Qed.

Lemma parse_object_items lvl kvs acc fuel rest :
  Forall (fun kv => dumps_parses kv.2) kvs ->
  (String.length (tail_text lvl (map (member lvl) kvs) "}" rest) <= fuel)%nat ->
  parse_object fuel acc (skip_ws (tail_text lvl (map (member lvl) kvs) "}" rest))
  = Some (JObj (acc ++ kvs), rest).
Proof.
  unfold tail_text. revert acc fuel.
  induction kvs as [|[k x] kvs IH]; intros acc fuel Hall Hlen; cbn [map seps fst snd] in *.
  - rewrite string_app_nil_l, skip_ws_nl. destruct fuel; [len_tac|]. simpl.
    by rewrite app_nil_r.
  - inversion Hall as [|?? Hx Hkvs]; subst. rewrite !string_app_assoc, member_app in *.
    destruct fuel as [|f]; [len_tac|].
    rewrite (string_app_cons ","), skip_ws_nonws, parse_object_comma by done.
    rewrite parse_member_dumps by (done || apply stops_seps || len_tac).
    rewrite IH by (done || len_tac). by rewrite <- app_assoc.
Qed.

Lemma dumps_parses_all v : dumps_parses v.
Proof.
  induction v as [| b | z | s | l Hl | kvs Hkvs] using Json_ind';
    intros lvl fuel rest Hs Hlen.
  - destruct fuel; [len_tac|]. by eexists _, _.
  - destruct fuel; [destruct b; len_tac|]. destruct b; by eexists _, _.
  - destruct (parse_number_dumps z rest Hs) as (c & r & Heq & Hc & Hp).
    cbn [dumps] in *. rewrite Heq in *. destruct fuel as [|f]; [len_tac|].
    exists c, r. split; [done|].
    split; [unfold is_ws; by rewrite !(num_head_neq c)|].
    split; [by apply num_head_neq|].
    simpl. rewrite !(num_head_neq c) by done. done.
  - destruct fuel; [len_tac|].
    eexists _, _. split; [unfold dumps_str; simpl; rewrite string_app_assoc; reflexivity|].
    repeat split. simpl. by rewrite parse_str_escape.
  - destruct fuel as [|f]; [destruct l as [|? ?]; len_tac|].
    destruct l as [|x xs]; [by eexists _, _|].
    inversion Hl as [|?? Hx Hxs]; subst. rewrite dumps_arr_app in *.
    eexists _, _. do 3 (split; [done|]). simpl. rewrite skip_ws_nl.
    destruct (Hx (S lvl) f (tail_text lvl (map (dumps (S lvl)) xs) "]" rest))
      as (c & r & Heq & Hws & Hbr & Hp); [apply stops_seps | len_tac |].
    rewrite Heq, skip_ws_nonws, Hbr, Hp by done.
    apply parse_array_items; [done | len_tac].
  - destruct fuel as [|f]; [destruct kvs as [|[? ?] ?]; len_tac|].
    destruct kvs as [|[k x] kvs]; [by eexists _, _|].
    inversion Hkvs as [|?? Hx Hxs]; subst. rewrite dumps_obj_app, member_app in *.
    eexists _, _. do 3 (split; [done|]). rewrite parse_value_object.
    rewrite parse_member_dumps by (done || apply stops_seps || len_tac).
    apply parse_object_items; [done | len_tac].
Qed.

(** C28. [json.loads(json.dumps(v, ensure_ascii=False, indent=2)) == v]:
    the history app_mention.py uploads (line 221) is read back by
    [get_function_call_history] (line 74) as the same value. *)
Theorem json_loads_dumps v : json_loads_str (json_dumps v) = Ok v.
Proof.
  destruct (dumps_parses_all v 0 (String.length (dumps 0 v)) "") as (c & r & Heq & Hws & _ & Hp);
    [done | by rewrite string_app_nil_r |].
  rewrite string_app_nil_r in Heq. unfold json_loads_str, json_dumps.
  rewrite Heq, skip_ws_nonws by done. rewrite <- Heq, Hp. done.
Qed.
