(* ===== verification/Registry.v ===== *)
(** * The tool registry: [src/slack_agent/functions/utils/registry.py]
      and the registered tool of [src/slack_agent/functions/example.py]

    The module-level [_function_registry] is a [dict] from a function's
    [__name__] to the function, so it is an insertion-ordered dictionary
    ([pydict]) from names to [Tool]s. A Python callable is modelled by its
    name and its body, a function from the keyword arguments to a result
    that may raise. [register] is a decorator: it returns its argument and
    updates the registry, so here it returns both.

    [ToolDispatch] is what the orchestrator needs of a registry: a
    dispatch by name. The registry implements it by [call_function]. *)

From stdpp Require Import base list sets strings.
From S2P Require Import Prelude Python.

Record Tool : Type := {
  tool_name : string;
  tool_body : list (string * Json) -> pyres Json
}.

(** The interface the orchestrator is written against. *)
Class ToolDispatch (R : Type) : Type :=
  dispatch : R -> string -> list (string * Json) -> pyres Json.

Module Registry.

Abbreviation registry := (pydict string Tool).

(** [register(fun)]: [_function_registry[fun.__name__] = fun; return fun]. *)
Definition register (fn : Tool) (reg : registry) : Tool * registry :=
  (fn, pd_set (tool_name fn) fn reg).

(** [get_functions()]: [list(_function_registry.values())]. *)
Definition get_functions (reg : registry) : list Tool := pd_values reg.

(** [call_function(name, /, **kwargs)]. *)
Definition call_function (reg : registry) (name : string) (kwargs : list (string * Json)) : pyres Json :=
  match pd_get name reg with
  | None => Err (ValueError (ToolNotFound name))
  | Some fn => tool_body fn kwargs
  end.

#[export] Instance registry_dispatch : ToolDispatch registry := call_function.

(** The registry's invariant: one entry per name (a [dict]'s keys), and
    each tool is stored under its own [__name__]. *)
Definition registry_wf (reg : registry) : Prop :=
  NoDup (pd_keys reg) /\ Forall (fun kv => kv.1 = tool_name kv.2) reg.

(** The registry once the tools [fns] have been registered in order, as
    the imports of the package do. *)
Definition registered (fns : list Tool) : registry := foldl (fun reg fn => (register fn reg).2) [] fns.

(** [get_current_weather(city)] of example.py. Binding [**kwargs] to the
    single parameter [city] raises [TypeError] when [city] is missing or
    another keyword is given. *)
Definition get_current_weather_body (kwargs : list (string * Json)) : pyres Json :=
  if forallb (fun kv => String.eqb kv.1 "city") kwargs then
    match pd_get "city" kwargs with
    | Some city =>
        Ok (JObj [("city", city); ("weather", JStr "sunny");
                  ("temperature", JNum 30); ("unit", JStr "C")])
    | None => Err (TypeError "get_current_weather() missing 1 required positional argument: 'city'")
    end
  else Err (TypeError "get_current_weather() got an unexpected keyword argument").

Definition get_current_weather : Tool :=
  {| tool_name := "get_current_weather"; tool_body := get_current_weather_body |}.

(** The registry once [example.py] has been imported. *)
Definition example_registry : registry := (register get_current_weather []).2.

(** ** Lemmas *)

Lemma register_wf fn reg : registry_wf reg -> registry_wf (register fn reg).2.
Proof. intros [Hnd Hf]. split; [by apply pd_set_NoDup | by apply Forall_pd_set]. Qed.

Lemma registered_wf fns : registry_wf (registered fns).
Proof.
  unfold registered. assert (H0 : registry_wf []) by (split; constructor). revert H0.
  generalize (@nil (string * Tool)) as reg.
  induction fns as [|fn fns IH]; intros reg H; simpl; [done | apply IH, register_wf, H].
Qed.

(** The tools [get_functions] lists carry the registry's keys as names:
    no two have the same name. *)
Lemma get_functions_names reg : registry_wf reg -> map tool_name (get_functions reg) = pd_keys reg.
Proof.
  intros [_ Hf]. unfold get_functions, pd_values, pd_keys. rewrite map_map.
  induction reg as [|[k t] reg IH]; simpl; [done |]. inversion Hf; subst. simpl in *. f_equal; auto.
Qed.

(** A tool [get_functions] lists is the one [call_function] runs for its
    name. *)
Lemma get_functions_dispatch reg t kwargs :
  registry_wf reg -> t ∈ get_functions reg -> call_function reg (tool_name t) kwargs = tool_body t kwargs.
Proof.
  intros [Hnd Hf] Hin. unfold get_functions, pd_values in Hin.
  apply list_elem_of_fmap in Hin as ([k t'] & -> & Hin). simpl.
  rewrite Forall_forall in Hf. pose proof (Hf _ Hin) as Hk. simpl in Hk. subst k.
  unfold call_function. by rewrite (pd_get_elem_of _ _ _ Hnd Hin).
Qed.

(** C38. After [register fn], calling [fn]'s name runs [fn]'s
    body on the keyword arguments, whatever was registered before. *)
Theorem call_function_after_register fn reg name kwargs :
  name = tool_name fn ->
  call_function (register fn reg).2 name kwargs = tool_body fn kwargs.
Proof. intros ->. unfold call_function, register. simpl. by rewrite pd_get_set_eq. Qed.

Lemma call_function_after_register_witness :
  call_function example_registry "get_current_weather" [("city", JStr "Tokyo")] =
  Ok (JObj [("city", JStr "Tokyo"); ("weather", JStr "sunny");
            ("temperature", JNum 30); ("unit", JStr "C")]).
Proof. apply (call_function_after_register get_current_weather [] "get_current_weather"). reflexivity. Defined.

(** C39. Calling a name that no registered tool has raises
    [ValueError("Tool '<name>' not found.")] and calls nothing. *)
Theorem call_function_not_found reg name kwargs :
  name ∉ pd_keys reg ->
  call_function reg name kwargs = Err (ValueError (ToolNotFound name)).
Proof. intros Hin. unfold call_function. by rewrite (proj2 (pd_get_None name reg) Hin). Qed.

Lemma call_function_not_found_witness :
  call_function example_registry "get_time" [] = Err (ValueError (ToolNotFound "get_time")).
Proof. apply call_function_not_found. vm_compute. set_solver. Defined.

(** Registering a fresh name appends the tool at the end of
    [get_functions()], the order in which the tools are declared to the
    model. *)
Theorem get_functions_register_fresh fn reg :
  tool_name fn ∉ pd_keys reg ->
  get_functions (register fn reg).2 = get_functions reg ++ [fn].
Proof.
  intros Hin. unfold get_functions, register, pd_values. simpl.
  rewrite pd_set_notin by done. by rewrite map_app.
Qed.

Lemma get_functions_register_fresh_witness :
  get_functions example_registry = [get_current_weather].
Proof. apply (get_functions_register_fresh get_current_weather []). set_solver. Defined.

(** Re-registering a name replaces the tool where the first
    registration put it: the list order is that of first registration,
    not of the latest one. *)
Theorem get_functions_register_overwrite fn old pre post :
  tool_name fn ∉ pd_keys pre ->
  get_functions (register fn (pre ++ (tool_name fn, old) :: post)).2 =
  get_functions pre ++ fn :: get_functions post.
Proof.
  intros Hin. unfold get_functions, register, pd_values. simpl.
  rewrite pd_set_app_hit by done. by rewrite map_app.
Qed.

Definition get_current_weather_v2 : Tool :=
  {| tool_name := "get_current_weather"; tool_body := fun _ => Ok JNull |}.

Lemma get_functions_register_overwrite_witness :
  get_functions (register get_current_weather_v2
                   [("get_time", get_current_weather); ("get_current_weather", get_current_weather)]).2 =
  [get_current_weather; get_current_weather_v2].
Proof.
  apply (get_functions_register_overwrite get_current_weather_v2 get_current_weather
           [("get_time", get_current_weather)] []).
  vm_compute. set_solver.
Defined.

End Registry.
