(* ===== verification/Services.v ===== *)
(** * The external services, at the interface the code calls

    - [Genai]: the [google.generativeai] objects the code touches: parts,
      contents and responses of a chat, the [ChatModel] record of
      operations ([model.start_chat], [chat.send_message]) left abstract,
      and a concrete model of the file service ([genai.get_file],
      [genai.upload_file], [genai.list_files]) in which an uploaded file
      stays [PROCESSING] for a number of [get_file] calls fixed by the
      service ([b_profile], per MIME type) and then reaches a terminal
      state; a file may also be deleted by the service ([expire]), after
      which [get_file] raises [PermissionDenied], as the code expects.
    - [Slack]: messages, files and events as the Slack API delivers them,
      the file server behind [url_private_download] (an unknown URL
      answers with an error body: [requests.get] does not raise), the
      thread store behind [conversations_replies], and the posts made by
      [say] and [files_upload_v2]. A file is a [Blob] of bytes, and
      [json_loads] of a download is the modelled [json.loads] of them.
    - [World]: the state one handler invocation threads: the media cache
      [file_upload_dict] of app_mention.py, the file service, Slack, and a
      log of the calls made to the services. [M] is the state-and-error
      monad over it.
    - Relations between states, and the lemmas saying that each primitive
      keeps them: [quiet] (no upload, same counter and profile), [silent]
      (Slack unchanged, no post logged) and [grows] (cache unchanged,
      service only grows). A primitive that raises returns the state it
      reached, as Python keeps the effects made before an exception.
    - Counting effects: [log_bound p n c] says that every run of [c],
      returning or raising, appends to the log at most [n] effects that
      satisfy [p] ([is_upload], [is_sleep]); the Section [LogBound] gives
      its rules for each combinator and primitive, and [log_bound0]
      discharges the computations that log none. *)

From stdpp Require Import base list sets gmap strings pretty.
From S2P Require Import Prelude Python Json.

(** Bodies returned by an HTTP GET. *)
Inductive Blob : Type :=
| BBytes (data : string)    (* the bytes of a file *)
| BNotFound.                (* the error page of an unknown URL *)

(** [json.loads(request_response.content)]: the error page of an unknown
    URL is not JSON. *)
Definition json_loads (b : Blob) : pyres Json :=
  match b with
  | BBytes data => json_loads_str data
  | BNotFound => Err JSONDecodeError
  end.

(** A file written by [json.dumps] reads back as the value written. *)
Lemma json_loads_bytes_dumps v : json_loads (BBytes (json_dumps v)) = Ok v.
Proof.
  destruct (dumps_parses_all v 0 (String.length (dumps 0 v)) "") as (c & r & Heq & Hws & _ & Hp);
    [done | by rewrite string_app_nil_r |].
  rewrite string_app_nil_r in Heq. simpl. unfold json_loads_str, json_dumps.
  rewrite Heq, skip_ws_nonws by done. rewrite <- Heq, Hp. done.
Qed.

Module Genai.

Inductive FileState : Type := PROCESSING | ACTIVE | FAILED.

#[export] Instance FileState_eq_dec : EqDecision FileState.
Proof. solve_decision. Defined.

(** A [genai.File]: its [name] ("files/..."), [display_name], MIME type,
    [state]; [gf_pending] and [gf_final] are the service's hidden
    progress. *)
Record GFile : Type := {
  gf_name : string;
  gf_display_name : string;
  gf_mime : string;
  gf_state : FileState;
  gf_pending : nat;
  gf_final : FileState;
  gf_content : Blob
}.

Inductive Part : Type :=
| PText (s : string)
| PFile (f : GFile)
| PFunctionCall (name : string) (args : list (string * Json))
| PFunctionResponse (name : string) (response : list (string * Json)).

(** A content [{"role": ..., "parts": [...]}]; the role is whatever
    value the code put there. *)
Record Content : Type := { c_role : Json; c_parts : list Part }.

(** What [chat.send_message] is given: a content dict or a list of parts. *)
Inductive SendInput : Type :=
| SendContent (c : Content)
| SendParts (ps : list Part).

(** A response: the parts of each candidate's content. *)
Record Response : Type := { candidates : list (list Part) }.

(** [part.text]: the text field, [""] when the part holds something else. *)
Definition part_text (p : Part) : string :=
  match p with PText s => s | _ => "" end.

(** [response.parts]: the parts of the only candidate; the accessor
    raises [ValueError] unless there is exactly one candidate. *)
Definition resp_parts (r : Response) : pyres (list Part) :=
  match candidates r with
  | [c] => Ok c
  | cs => Err (ValueError (SingleCandidateRequired (length cs)))
  end.

(** [response.candidates[0].content.parts[0].text]. *)
Definition resp_text (r : Response) : pyres string :=
  match candidates r with
  | (p :: _) :: _ => Ok (part_text p)
  | _ => Err IndexError
  end.

(** The chat model, a record of operations: the session is opened from
    an optional history and answers each message. *)
Record ChatModel (S : Type) : Type := {
  start_chat : option (list Content) -> S;
  send_message : S -> SendInput -> pyres (Response * S)
}.
Arguments start_chat {S} c h.
Arguments send_message {S} c s m.

(** The file service. *)
Record Backend : Type := {
  b_files : gmap string GFile;
  b_next : N;
  b_profile : string -> nat * FileState
}.

Definition set_files (b : Backend) (fs : gmap string GFile) : Backend :=
  {| b_files := fs; b_next := b_next b; b_profile := b_profile b |}.

(** One [get_file] call lets a processing file progress by one step. *)
Definition advance (f : GFile) : GFile :=
  match gf_state f, gf_pending f with
  | PROCESSING, 0 => {| gf_name := gf_name f; gf_display_name := gf_display_name f;
                        gf_mime := gf_mime f; gf_state := gf_final f; gf_pending := 0;
                        gf_final := gf_final f; gf_content := gf_content f |}
  | PROCESSING, S k => {| gf_name := gf_name f; gf_display_name := gf_display_name f;
                          gf_mime := gf_mime f; gf_state := PROCESSING; gf_pending := k;
                          gf_final := gf_final f; gf_content := gf_content f |}
  | _, _ => f
  end.

Definition fresh_name (n : N) : string := "files/" +:+ pretty n.

(** The file an upload creates: it is processed for [d] [get_file]
    calls when the profile of its MIME type says [d > 0]. *)
Definition new_file (b : Backend) (content : Blob) (display mime : string) : GFile :=
  let '(d, fin) := b_profile b mime in
  {| gf_name := fresh_name (b_next b); gf_display_name := display; gf_mime := mime;
     gf_state := if decide (d = 0) then fin else PROCESSING;
     gf_pending := Nat.pred d; gf_final := fin; gf_content := content |}.

(** Files deleted by the service (Gemini keeps uploads for 48 hours). *)
Definition expire (name : string) (b : Backend) : Backend :=
  set_files b (delete name (b_files b)).

(** The service's invariant: every file is stored under its own name, and
    names are below the counter of the next upload. *)
Definition backend_wf (b : Backend) : Prop :=
  forall name f, b_files b !! name = Some f ->
    gf_name f = name /\ exists n, name = fresh_name n /\ (n < b_next b)%N.

End Genai.

Module Slack.

Record SlackFile : Type := {
  sf_id : string;
  sf_name : string;
  sf_mimetype : string;
  sf_url : string    (* url_private_download *)
}.

(** A message of [conversations_replies]: [bot_profile] present or not,
    optional ["text"] and ["files"]. *)
Record SlackMessage : Type := {
  sm_bot_profile : bool;
  sm_text : option string;
  sm_files : option (list SlackFile)
}.

(** [body["event"]] of an [app_mention]. *)
Record Event : Type := {
  ev_channel : string;
  ev_ts : string;
  ev_text : option string;
  ev_files : option (list SlackFile);
  ev_thread_ts : option string
}.

Inductive Post : Type :=
| Say (text channel thread_ts : string)
| FilesUpload (filename content : string) (channel initial_comment thread_ts : string).

Record SlackServer : Type := {
  sl_files : gmap string Blob;
  sl_threads : gmap (string * string) (list SlackMessage);
  sl_posts : list Post
}.

(** [requests.get(url).content] *)
Definition download (s : SlackServer) (url : string) : Blob :=
  match sl_files s !! url with Some b => b | None => BNotFound end.

(** [client.conversations_replies(channel=..., ts=...)["messages"]] *)
Definition replies (s : SlackServer) (channel ts : string) : pyres (list SlackMessage) :=
  match sl_threads s !! (channel, ts) with
  | Some ms => Ok ms
  | None => Err (SlackApiError "thread_not_found")
  end.

End Slack.

Import Genai Slack.

(** The calls made to the services, in order. *)
Inductive Effect : Type :=
| EAck
| EFetch (url : string)
| EGetFile (name : string)
| EUpload (display_name : string)
| ESleep
| EReplies (channel ts : string)
| EPost (p : Post).

Record World : Type := {
  w_cache : gmap string string;   (* file_upload_dict: Slack file id -> Gemini file name *)
  w_backend : Backend;
  w_slack : SlackServer;
  w_log : list Effect
}.

Abbreviation M := (st World exn).

Definition set_cache (w : World) (c : gmap string string) : World :=
  {| w_cache := c; w_backend := w_backend w; w_slack := w_slack w; w_log := w_log w |}.
Definition set_backend (w : World) (b : Backend) : World :=
  {| w_cache := w_cache w; w_backend := b; w_slack := w_slack w; w_log := w_log w |}.
Definition set_slack (w : World) (s : SlackServer) : World :=
  {| w_cache := w_cache w; w_backend := w_backend w; w_slack := s; w_log := w_log w |}.
Definition log (e : Effect) (w : World) : World :=
  {| w_cache := w_cache w; w_backend := w_backend w; w_slack := w_slack w; w_log := w_log w ++ [e] |}.

(** [genai.get_file(name)] *)
Definition genai_get_file (name : string) : M GFile :=
  fun w =>
    let w := log (EGetFile name) w in
    match b_files (w_backend w) !! name with
    | None => Err (PermissionDenied name, w)
    | Some f =>
        let f' := advance f in
        Ok (f', set_backend w (set_files (w_backend w) (<[name := f']> (b_files (w_backend w)))))
    end.

(** [try: genai.get_file(name) except PermissionDenied: ...]: the
    exception is caught, the other outcomes are those of [get_file]. *)
Definition try_get_file (name : string) : M (option GFile) :=
  fun w =>
    match genai_get_file name w with
    | Ok (f, w') => Ok (Some f, w')
    | Err (PermissionDenied _, w') => Ok (None, w')
    | Err ew => Err ew
    end.

(** [genai.upload_file(bytes, display_name=..., mime_type=...)] *)
Definition genai_upload_file (content : Blob) (display mime : string) : M GFile :=
  fun w =>
    let w := log (EUpload display) w in
    let b := w_backend w in
    let f := new_file b content display mime in
    Ok (f, set_backend w {| b_files := <[gf_name f := f]> (b_files b);
                           b_next := (b_next b + 1)%N; b_profile := b_profile b |}).

(** [requests.get(url, headers=...).content] *)
Definition requests_get (url : string) : M Blob :=
  fun w => Ok (download (w_slack w) url, log (EFetch url) w).

(** [client.conversations_replies(channel=channel, ts=thread_ts)["messages"]] *)
Definition slack_replies (channel ts : string) : M (list SlackMessage) :=
  fun w => match replies (w_slack w) channel ts with
           | Ok ms => Ok (ms, log (EReplies channel ts) w)
           | Err e => Err (e, log (EReplies channel ts) w)
           end.

(** [say(...)] and [client.files_upload_v2(...)]: Slack records the post. *)
Definition slack_post (p : Post) : M unit :=
  fun w => Ok (tt, set_slack (log (EPost p) w)
                   {| sl_files := sl_files (w_slack w); sl_threads := sl_threads (w_slack w);
                      sl_posts := sl_posts (w_slack w) ++ [p] |}).

(** [ack()] *)
Definition slack_ack : M unit := fun w => Ok (tt, log EAck w).

(** [time.sleep(5)] *)
Definition time_sleep : M unit := fun w => Ok (tt, log ESleep w).

(** Number of uploads recorded in a log. *)
Definition is_upload (e : Effect) : bool :=
  match e with EUpload _ => true | _ => false end.
Definition uploads (l : list Effect) : nat := length (List.filter is_upload l).

Lemma uploads_app l1 l2 : uploads (l1 ++ l2) = uploads l1 + uploads l2.
Proof. unfold uploads. by rewrite List.filter_app, length_app. Qed.

#[export] Hint Rewrite uploads_app : agent.

(** ** Specifications of the service calls *)

(** A file the caller holds is the service's current version of it. *)
Definition stored (w : World) (f : GFile) : Prop :=
  b_files (w_backend w) !! gf_name f = Some f.

(** The world after [get_file(name)] found [f'] and advanced it to [f]. *)
Definition after_get (w : World) (name : string) (f : GFile) : World :=
  set_backend (log (EGetFile name) w) (set_files (w_backend w) (<[name := f]> (b_files (w_backend w)))).

Lemma advance_name f : gf_name (advance f) = gf_name f.
Proof. unfold advance. by destruct (gf_state f), (gf_pending f). Qed.

Lemma advance_content f : gf_content (advance f) = gf_content f.
Proof. unfold advance. by destruct (gf_state f), (gf_pending f). Qed.

Lemma advance_final f : gf_final (advance f) = gf_final f.
Proof. unfold advance. by destruct (gf_state f), (gf_pending f). Qed.

(** A file is processing or in its terminal state. *)
Definition consistent (f : GFile) : Prop := gf_state f = PROCESSING \/ gf_state f = gf_final f.

Lemma advance_consistent f : consistent f -> consistent (advance f).
Proof. unfold consistent, advance. destruct (gf_state f) eqn:E, (gf_pending f); simpl; intros H; rewrite ?E; first [by right | by left | exact H]. Qed.

Lemma new_file_consistent b c d m : consistent (new_file b c d m).
Proof. unfold consistent, new_file. destruct (b_profile b m) as [n fin]. simpl. case_decide; naive_solver. Qed.

Lemma advance_not_processing f : gf_state f <> PROCESSING -> advance f = f.
Proof. unfold advance. by destruct (gf_state f). Qed.

Lemma genai_get_file_found w name f :
  b_files (w_backend w) !! name = Some f ->
  genai_get_file name w = Ok (advance f, after_get w name (advance f)).
Proof. intros H. unfold genai_get_file. simpl. by rewrite H. Qed.

Lemma genai_get_file_missing w name :
  b_files (w_backend w) !! name = None -> genai_get_file name w = Err (PermissionDenied name, log (EGetFile name) w).
Proof. intros H. unfold genai_get_file. simpl. by rewrite H. Qed.

Lemma after_get_stored w f : stored (after_get w (gf_name f) (advance f)) (advance f).
Proof. unfold stored, after_get. simpl. rewrite advance_name. apply lookup_insert_eq. Qed.

Lemma new_file_name b c d m : gf_name (new_file b c d m) = fresh_name (b_next b).
Proof. unfold new_file. by destruct (b_profile b m). Qed.

Lemma new_file_content b c d m : gf_content (new_file b c d m) = c.
Proof. unfold new_file. by destruct (b_profile b m). Qed.

Lemma new_file_final b c d m : gf_final (new_file b c d m) = (b_profile b m).2.
Proof. unfold new_file. by destruct (b_profile b m). Qed.

Lemma new_file_pending b c d m :
  (b_profile b m).2 <> PROCESSING -> gf_state (new_file b c d m) = PROCESSING ->
  gf_pending (new_file b c d m) < (b_profile b m).1.
Proof. unfold new_file. destruct (b_profile b m) as [n fin]; simpl. case_decide; [congruence | lia]. Qed.

Lemma new_file_congr b b' c d m :
  b_next b = b_next b' -> b_profile b = b_profile b' -> new_file b c d m = new_file b' c d m.
Proof. unfold new_file. by intros -> ->. Qed.

(** The world after [upload_file] created [f]. *)
Definition after_upload (w : World) (display : string) (f : GFile) : World :=
  set_backend (log (EUpload display) w)
    {| b_files := <[gf_name f := f]> (b_files (w_backend w));
       b_next := (b_next (w_backend w) + 1)%N; b_profile := b_profile (w_backend w) |}.

Lemma genai_upload_file_spec w c d m :
  genai_upload_file c d m w = Ok (new_file (w_backend w) c d m, after_upload w d (new_file (w_backend w) c d m)).
Proof. reflexivity. Qed.

Lemma after_upload_stored w d f : stored (after_upload w d f) f.
Proof. unfold stored, after_upload. simpl. apply lookup_insert_eq. Qed.

Lemma uploads_snoc_other l e : is_upload e = false -> uploads (l ++ [e]) = uploads l.
Proof. intros He. rewrite uploads_app. unfold uploads at 2. simpl. rewrite He. simpl. lia. Qed.

Lemma uploads_snoc_upload l d : uploads (l ++ [EUpload d]) = S (uploads l).
Proof. rewrite uploads_app. unfold uploads at 2. simpl. lia. Qed.

#[export] Hint Resolve after_get_stored after_upload_stored : agent.

(** ** The service's invariant is kept by its calls *)

Lemma backend_wf_after_get w name f :
  backend_wf (w_backend w) -> b_files (w_backend w) !! name = Some f ->
  backend_wf (w_backend (after_get w name (advance f))).
Proof.
  intros Hwf Hf name' f'. simpl. rewrite lookup_insert.
  case_decide as Heq; [subst name' | by apply Hwf].
  intros [= <-]. rewrite advance_name. destruct (Hwf _ _ Hf) as [-> Hn]. by split.
Qed.

Lemma backend_wf_fresh b : backend_wf b -> b_files b !! fresh_name (b_next b) = None.
Proof.
  intros Hwf. destruct (b_files b !! _) as [f|] eqn:Hf; [| done].
  destruct (Hwf _ _ Hf) as [_ (n & Hn & Hlt)].
  unfold fresh_name in Hn. apply (inj (String.append "files/")) in Hn.
  apply (inj pretty) in Hn. lia.
Qed.

Lemma backend_wf_after_upload w c d m :
  backend_wf (w_backend w) ->
  backend_wf (w_backend (after_upload w d (new_file (w_backend w) c d m))).
Proof.
  intros Hwf name' f'. simpl. rewrite lookup_insert. case_decide as Heq.
  - intros [= <-]. rewrite new_file_name in *. split; [done |].
    exists (b_next (w_backend w)). split; [done | lia].
  - intros Hf. destruct (Hwf _ _ Hf) as [Hn (n & -> & Hlt)]. split; [done |].
    exists n. split; [done | lia].
Qed.

Lemma backend_wf_expire b name : backend_wf b -> backend_wf (expire name b).
Proof.
  intros Hwf name' f'. unfold expire, set_files. simpl. rewrite lookup_delete.
  case_decide; [done | apply Hwf].
Qed.

#[export] Hint Resolve backend_wf_after_get backend_wf_after_upload backend_wf_expire : agent.

(** ** Steps that upload nothing *)

(** [quiet w w']: from [w] to [w'] nothing was uploaded, Slack, the upload
    counter and the service's processing profile are unchanged, and the
    service's invariant is kept. *)
Definition quiet (w w' : World) : Prop :=
  uploads (w_log w') = uploads (w_log w) /\ w_slack w' = w_slack w /\
  b_next (w_backend w') = b_next (w_backend w) /\
  b_profile (w_backend w') = b_profile (w_backend w) /\
  (backend_wf (w_backend w) -> backend_wf (w_backend w')).

Lemma quiet_refl w : quiet w w.
Proof. split_and!; auto. Qed.

Lemma quiet_trans w1 w2 w3 : quiet w1 w2 -> quiet w2 w3 -> quiet w1 w3.
Proof. intros (H1 & H2 & H3 & H4 & H5) (G1 & G2 & G3 & G4 & G5). split_and!; congruence || auto. Qed.

Lemma quiet_log w e : is_upload e = false -> quiet w (log e w).
Proof. intros He. split_and!; simpl; auto. by rewrite uploads_snoc_other. Qed.

Lemma quiet_set_cache w c : quiet w (set_cache w c).
Proof. split_and!; auto. Qed.

Lemma quiet_after_get w name f :
  b_files (w_backend w) !! name = Some f -> quiet w (after_get w name (advance f)).
Proof.
  intros Hf. split_and!; simpl; auto.
  - by rewrite uploads_snoc_other.
  - intros Hwf. by apply backend_wf_after_get.
Qed.

#[export] Hint Resolve quiet_refl quiet_log quiet_set_cache quiet_after_get : agent.

(** ** Steps that post nothing

    [silent w w']: Slack is unchanged and every effect logged between [w]
    and [w'] is something other than a post. Everything a turn does
    before its reply is silent. *)

Definition is_post (e : Effect) : bool :=
  match e with EPost _ => true | _ => false end.

Definition silent (w w' : World) : Prop :=
  w_slack w' = w_slack w /\
  exists l, w_log w' = w_log w ++ l /\ Forall (fun e => is_post e = false) l.

#[export] Instance silent_preorder : PreOrder silent.
Proof.
  split.
  - intros w. split; [done |]. exists []. by rewrite app_nil_r.
  - intros w1 w2 w3 [H1 (l1 & E1 & F1)] [H2 (l2 & E2 & F2)]. split; [congruence |].
    exists (l1 ++ l2). rewrite E2, E1, app_assoc. split; [done | by apply Forall_app].
Qed.

Lemma silent_log w e : is_post e = false -> silent w (log e w).
Proof. intros He. split; [done |]. exists [e]. by split; [| constructor]. Qed.

Lemma silent_set_cache w c : silent w (set_cache w c).
Proof. split; [done |]. exists []. by rewrite app_nil_r. Qed.

Lemma silent_set_backend w b : silent w (set_backend w b).
Proof. split; [done |]. exists []. by rewrite app_nil_r. Qed.

#[export] Hint Resolve silent_set_cache : agent.

(** Tactic: a primitive that logs one non-post effect and may replace the
    backend is silent. *)
Ltac silent_prim :=
  match goal with
  | |- silent ?w (set_backend (log ?e ?w) _) =>
      etransitivity; [apply (silent_log w e); done | apply silent_set_backend]
  | |- silent ?w (log ?e ?w) => by apply silent_log
  end.

(** [try_get_file] ends where [get_file] ends: the exception it catches
    leaves the state [get_file] reached. *)
Lemma try_get_file_final name w : st_final (try_get_file name w) = st_final (genai_get_file name w).
Proof. unfold try_get_file. by destruct (genai_get_file name w) as [[]|[[] ?]]. Qed.

Lemma genai_get_file_silent name : st_preserves silent (genai_get_file name).
Proof. intros w. unfold genai_get_file. simpl. destruct (_ !! name); simpl; silent_prim. Qed.

Lemma try_get_file_silent name : st_preserves silent (try_get_file name).
Proof. intros w. rewrite try_get_file_final. apply genai_get_file_silent. Qed.

Lemma genai_upload_file_silent c d m : st_preserves silent (genai_upload_file c d m).
Proof. intros w. simpl. silent_prim. Qed.

Lemma requests_get_silent url : st_preserves silent (requests_get url).
Proof. intros w. simpl. silent_prim. Qed.

Lemma time_sleep_silent : st_preserves silent time_sleep.
Proof. intros w. simpl. silent_prim. Qed.

Lemma slack_replies_silent ch ts : st_preserves silent (slack_replies ch ts).
Proof. intros w. unfold slack_replies. destruct (replies _ _ _); simpl; silent_prim. Qed.

#[export] Hint Resolve genai_get_file_silent try_get_file_silent genai_upload_file_silent
  requests_get_silent time_sleep_silent slack_replies_silent : agent.

(** ** Steps that keep the cache and only let the service grow

    [grows w w']: the cache is the same, the counter of uploads has not
    gone back and the service's invariant is kept. Every primitive of the
    two services grows. *)

Definition grows (w w' : World) : Prop :=
  w_cache w' = w_cache w /\ (b_next (w_backend w) <= b_next (w_backend w'))%N /\
  (backend_wf (w_backend w) -> backend_wf (w_backend w')).

#[export] Instance grows_preorder : PreOrder grows.
Proof.
  split; [intros w; split_and!; auto; lia |].
  intros w1 w2 w3 (A1 & B1 & C1) (A2 & B2 & C2). split_and!; [congruence | lia | auto].
Qed.

Lemma grows_log w e : grows w (log e w).
Proof. split_and!; simpl; auto; lia. Qed.

Lemma genai_get_file_grows name : st_preserves grows (genai_get_file name).
Proof.
  intros w. unfold genai_get_file. simpl.
  destruct (b_files (w_backend w) !! name) eqn:E; simpl; [| apply grows_log].
  split_and!; simpl; [done | lia |]. intros Hwf. by apply (backend_wf_after_get w).
Qed.

Lemma try_get_file_grows name : st_preserves grows (try_get_file name).
Proof. intros w. rewrite try_get_file_final. apply genai_get_file_grows. Qed.

Lemma genai_upload_file_grows c d m : st_preserves grows (genai_upload_file c d m).
Proof.
  intros w. rewrite genai_upload_file_spec. simpl.
  split_and!; simpl; [done | lia | apply backend_wf_after_upload].
Qed.

Lemma requests_get_grows url : st_preserves grows (requests_get url).
Proof. intros w. apply grows_log. Qed.

Lemma time_sleep_grows : st_preserves grows time_sleep.
Proof. intros w. apply grows_log. Qed.

Lemma slack_replies_grows ch ts : st_preserves grows (slack_replies ch ts).
Proof. intros w. unfold slack_replies. destruct (replies _ _ _); apply grows_log. Qed.

Lemma slack_ack_grows : st_preserves grows slack_ack.
Proof. intros w. apply grows_log. Qed.

Lemma slack_post_grows p : st_preserves grows (slack_post p).
Proof. intros w. split_and!; simpl; auto; lia. Qed.

#[export] Hint Resolve genai_get_file_grows try_get_file_grows genai_upload_file_grows
  requests_get_grows time_sleep_grows slack_replies_grows slack_ack_grows slack_post_grows : agent.

(** ** Counting the calls a computation makes

    [log_bound p n c]: every run of [c], the runs that raise included,
    logs effects among which at most [n] satisfy [p]. *)

Definition count (p : Effect -> bool) (l : list Effect) : nat := length (List.filter p l).

Definition is_sleep (e : Effect) : bool :=
  match e with ESleep => true | _ => false end.

Lemma count_app p l1 l2 : count p (l1 ++ l2) = count p l1 + count p l2.
Proof. unfold count. by rewrite List.filter_app, length_app. Qed.

Definition log_bound (p : Effect -> bool) (n : nat) {A} (c : M A) : Prop :=
  forall w, exists l, w_log (st_final (c w)) = w_log w ++ l /\ count p l <= n.

Lemma st_final_bind {A B} (c : M A) (k : A -> M B) w :
  st_final (st_bind c k w) = match c w with Ok (a, w1) => st_final (k a w1) | Err (_, w1) => w1 end.
Proof. unfold st_bind. by destruct (c w) as [[]|[]]. Qed.

Section LogBound.
Context (p : Effect -> bool).

Lemma log_bound_mono n n' {A} (c : M A) : n <= n' -> log_bound p n c -> log_bound p n' c.
Proof. intros Hn Hc w. destruct (Hc w) as (l & ? & ?). exists l. split; [done | lia]. Qed.

Lemma log_bound_same {A} (c : M A) : (forall w, w_log (st_final (c w)) = w_log w) -> log_bound p 0 c.
Proof. intros Hc w. exists []. rewrite app_nil_r. split; [apply Hc | cbn; lia]. Qed.

Lemma log_bound_ret {A} (a : A) : log_bound p 0 (st_ret a).
Proof. by apply log_bound_same. Qed.

Lemma log_bound_throw {A} e : log_bound p 0 (st_throw (A:=A) e).
Proof. by apply log_bound_same. Qed.

Lemma log_bound_lift {A} (r : pyres A) : log_bound p 0 (st_lift r).
Proof. apply log_bound_same. intros w. by destruct r. Qed.

Lemma log_bound_get : log_bound p 0 st_get.
Proof. by apply log_bound_same. Qed.

Lemma log_bound_set_cache f : log_bound p 0 (st_modify (fun w => set_cache w (f w))).
Proof. by apply log_bound_same. Qed.

Lemma log_bound_bind n1 n2 {A B} (c : M A) (k : A -> M B) :
  log_bound p n1 c -> (forall a, log_bound p n2 (k a)) -> log_bound p (n1 + n2) (st_bind c k).
Proof.
  intros Hc Hk w. destruct (Hc w) as (l1 & H1 & C1). rewrite st_final_bind.
  destruct (c w) as [[a w1]|[e w1]]; simpl in H1.
  - destruct (Hk a w1) as (l2 & H2 & C2). exists (l1 ++ l2).
    rewrite H2, H1, app_assoc, count_app. split; [done | lia].
  - exists l1. split; [done | lia].
Qed.

Lemma log_bound_fold {A B} (g : A -> nat) (f : B -> A -> M B) l b :
  (forall b x, log_bound p (g x) (f b x)) -> log_bound p (sum_list_with g l) (st_fold f l b).
Proof.
  intros Hf. revert b. induction l as [|x l IH]; intros b; simpl; [apply log_bound_ret |].
  apply log_bound_bind; auto.
Qed.

(** One logged effect. *)
Lemma log_bound_one e {A} (c : M A) :
  (forall w, w_log (st_final (c w)) = w_log w ++ [e]) -> log_bound p (count p [e]) c.
Proof. intros Hc w. exists [e]. by split. Qed.

Lemma genai_get_file_bound name : log_bound p (count p [EGetFile name]) (genai_get_file name).
Proof. apply log_bound_one. intros w. unfold genai_get_file. simpl. by destruct (_ !! name). Qed.

Lemma try_get_file_bound name : log_bound p (count p [EGetFile name]) (try_get_file name).
Proof. intros w. rewrite try_get_file_final. apply genai_get_file_bound. Qed.

Lemma genai_upload_file_bound c d m : log_bound p (count p [EUpload d]) (genai_upload_file c d m).
Proof. by apply log_bound_one. Qed.

Lemma requests_get_bound url : log_bound p (count p [EFetch url]) (requests_get url).
Proof. by apply log_bound_one. Qed.

Lemma time_sleep_bound : log_bound p (count p [ESleep]) time_sleep.
Proof. by apply log_bound_one. Qed.

Lemma slack_replies_bound ch ts : log_bound p (count p [EReplies ch ts]) (slack_replies ch ts).
Proof. apply log_bound_one. intros w. unfold slack_replies. by destruct (replies _ _ _). Qed.

Lemma slack_ack_bound : log_bound p (count p [EAck]) slack_ack.
Proof. by apply log_bound_one. Qed.

Lemma slack_post_bound q : log_bound p (count p [EPost q]) (slack_post q).
Proof. by apply log_bound_one. Qed.

(** The bind rule at one start state, for a first step whose bound
    depends on the state. *)
Lemma log_bound_bind_at n1 n2 {A B} (c : M A) (k : A -> M B) w :
  (exists l, w_log (st_final (c w)) = w_log w ++ l /\ count p l <= n1) ->
  (forall a, log_bound p n2 (k a)) ->
  exists l, w_log (st_final (st_bind c k w)) = w_log w ++ l /\ count p l <= n1 + n2.
Proof.
  intros (l1 & H1 & C1) Hk. rewrite st_final_bind.
  destruct (c w) as [[a w1]|[e w1]]; simpl in H1.
  - destruct (Hk a w1) as (l2 & H2 & C2). exists (l1 ++ l2).
    rewrite H2, H1, app_assoc, count_app. split; [done | lia].
  - exists l1. split; [done | lia].
Qed.

Lemma log_bound_bind_at0 n {A B} (c : M A) (k : A -> M B) w :
  (exists l, w_log (st_final (c w)) = w_log w ++ l /\ count p l <= n) ->
  (forall a, log_bound p 0 (k a)) ->
  exists l, w_log (st_final (st_bind c k w)) = w_log w ++ l /\ count p l <= n.
Proof. intros Hc Hk. rewrite <- (Nat.add_0_r n). by apply log_bound_bind_at. Qed.

(** An effect that [p] does not count may come first. *)
Lemma log_bound_after e n {A} (c : M A) w :
  p e = false ->
  (exists l, w_log (st_final (c (log e w))) = w_log (log e w) ++ l /\ count p l <= n) ->
  exists l, w_log (st_final (c (log e w))) = w_log w ++ l /\ count p l <= n.
Proof.
  intros He (l & Hl & Hc). exists (e :: l). rewrite Hl. simpl. rewrite <- app_assoc.
  split; [done |]. unfold count in *. simpl. by rewrite He.
Qed.

End LogBound.

(** Tactic: a computation of binds, lookups and cache updates over
    primitives that log nothing counted by [p] has bound 0. *)
Ltac log_bound0 :=
  repeat match goal with
  | |- log_bound _ 0 (st_bind _ _) => apply (log_bound_bind _ 0 0); [| intros ?]
  | |- log_bound _ 0 (st_ret _) => apply log_bound_ret
  | |- log_bound _ 0 (st_throw _) => apply log_bound_throw
  | |- log_bound _ 0 (st_lift _) => apply log_bound_lift
  | |- log_bound _ 0 st_get => apply log_bound_get
  | |- log_bound _ 0 (st_modify (fun w => set_cache w _)) => apply log_bound_set_cache
  | |- log_bound _ 0 (if ?b then _ else _) => destruct b
  | |- log_bound _ 0 (match ?x with _ => _ end) => destruct x
  | |- log_bound _ 0 (genai_get_file _) => apply genai_get_file_bound
  | |- log_bound _ 0 (try_get_file _) => apply try_get_file_bound
  | |- log_bound _ 0 (requests_get _) => apply requests_get_bound
  | |- log_bound _ 0 (slack_replies _ _) => apply slack_replies_bound
  | |- log_bound _ 0 (slack_post _) => apply slack_post_bound
  | |- log_bound _ 0 slack_ack => apply slack_ack_bound
  end.
