(* ===== verification/HistoryDecoder.v ===== *)
(** * The tool-call history: the reader [get_function_call_history]
      (app_mention.py:70-97) and the records the writer puts in
      [function_call.json] (app_mention.py:188-194, 207-213, 219-225)

    The reader fetches the artifact, parses it with [json.loads] and
    expects a list of messages [{"role": r, "parts": [elem, ...]}], each
    [elem] being [{"part_type": "function_call", "name", "args"}] or
    [{"part_type": "function_response", "name", "value"}]. Each access is
    a Python subscript or iteration with its [KeyError]/[TypeError], and
    the proto constructors check their fields' types ([name] a string,
    [args] a mapping).

    The writer (in [event_fun]) appends to [function_call_history] a flat
    list of records [{"part_type", "name", "args"}] and
    [{"part_type", "name", "response"}] and uploads [json.dumps] of it
    ([json_dumps (encode_trace tr)], the bytes [Json] models);
    [json.loads] of those bytes is [encode_trace tr] again
    ([json_loads_bytes_dumps]).

    [encode_history] writes the reader's own format; the theorems show
    that a file holding [json.dumps] of it is read back whole
    ([get_function_call_history_roundtrip]), that whatever the reader returns is typed
    ([history_part]) and reads back as itself, and that the writer's
    artifact is not in that format. *)

From stdpp Require Import base list sets strings.
From S2P Require Import Prelude Python Json Services.
Import Genai.

Module Decoder.

(** [genai.protos.FunctionCall(name=..., args=...)] *)
Definition proto_function_call (name args : Json) : pyres Part :=
  match name, args with
  | JStr n, JObj kvs => Ok (PFunctionCall n (dict_of_pairs kvs))
  | JStr _, _ => Err (TypeError "FunctionCall.args must be a mapping")
  | _, _ => Err (TypeError "FunctionCall.name must be a string")
  end.

(** [genai.protos.FunctionResponse(name=..., response={"result": v})] *)
Definition proto_function_response (name value : Json) : pyres Part :=
  match name with
  | JStr n => Ok (PFunctionResponse n [("result", value)])
  | _ => Err (TypeError "FunctionResponse.name must be a string")
  end.

(** The body of [for elem in message["parts"]] (lines 76-94). *)
Definition decode_elem (elem : Json) : pyres Part :=
  let? pt := py_getitem elem "part_type" in
  match pt with
  | JStr s =>
      if String.eqb s "function_call" then
        let? name := py_getitem elem "name" in
        let? args := py_getitem elem "args" in
        proto_function_call name args
      else if String.eqb s "function_response" then
        let? name := py_getitem elem "name" in
        let? value := py_getitem elem "value" in
        proto_function_response name value
      else Err (ValueError (UnknownPartType pt))
  | _ => Err (ValueError (UnknownPartType pt))
  end.

(** The body of [for message in json.loads(...)] (lines 75-95). *)
Definition decode_message (message : Json) : pyres Content :=
  let? elems := py_getitem message "parts" in
  let? elems := py_iter elems in
  let? parts := result_mapM decode_elem elems in
  let? role := py_getitem message "role" in
  Ok {| c_role := role; c_parts := parts |}.

(** Lines 71-97 once the body is parsed. *)
Definition decode_history (doc : Json) : pyres (list Content) :=
  let? messages := py_iter doc in
  result_mapM decode_message messages.

(** [get_function_call_history(file_url)] *)
Definition get_function_call_history (file_url : string) : M (list Content) :=
  body <- requests_get file_url ;;
  st_lift (let? doc := json_loads body in decode_history doc).

(** The format the reader accepts, written out (a specification, not
    code of the repository): tool parts only, responses of the shape
    [{"result": v}] that the reader rebuilds. *)
Definition encode_part (p : Part) : Json :=
  match p with
  | PFunctionCall n args =>
      JObj [("part_type", JStr "function_call"); ("name", JStr n); ("args", JObj args)]
  | PFunctionResponse n resp =>
      JObj [("part_type", JStr "function_response"); ("name", JStr n);
            ("value", match resp with [(_, v)] => v | _ => JNull end)]
  | PText s => JStr s
  | PFile f => JStr (gf_name f)
  end.

Definition encode_message (c : Content) : Json :=
  JObj [("role", c_role c); ("parts", JArr (map encode_part (c_parts c)))].

Definition encode_history (h : list Content) : Json := JArr (map encode_message h).

(** The parts the reader can reproduce. *)
Definition history_part (p : Part) : Prop :=
  match p with
  | PFunctionCall _ args => NoDup (args.*1)
  | PFunctionResponse _ resp => exists v, resp = [("result", v)]
  | _ => False
  end.

End Decoder.

Module Trace.

(** An entry of [function_call_history] in [event_fun]. *)
Inductive TraceRecord : Type :=
| RCall (name : string) (args : list (string * Json))      (* lines 188-194 *)
| RResponse (name : string) (response : Json).             (* lines 207-213 *)

Definition encode_record (r : TraceRecord) : Json :=
  match r with
  | RCall n args =>
      JObj [("part_type", JStr "function_call"); ("name", JStr n); ("args", JObj args)]
  | RResponse n v =>
      JObj [("part_type", JStr "function_response"); ("name", JStr n); ("response", v)]
  end.

(** [function_call_history]: the list of records, the value line 221
    passes to [json.dumps]. *)
Definition encode_trace (tr : list TraceRecord) : Json := JArr (map encode_record tr).

Definition is_response (r : TraceRecord) : bool :=
  match r with RResponse _ _ => true | _ => false end.

End Trace.

Import Decoder Trace.

(** ** The reader *)

Lemma decode_elem_encode_part p : history_part p -> decode_elem (encode_part p) = Ok p.
Proof.
  destruct p as [s|f|n args|n resp]; cbn -[dict_of_pairs]; try done.
  - intros Hnd. rewrite <- (dict_of_pairs_distinct args Hnd) at 2. reflexivity.
  - intros [v ->]. done.
Qed.

Lemma decode_message_encode c :
  Forall history_part (c_parts c) -> decode_message (encode_message c) = Ok c.
Proof.
  intros Hall. destruct c as [role parts]. unfold decode_message. simpl.
  rewrite result_mapM_map_inv; [done |].
  intros p Hp. apply decode_elem_encode_part. rewrite Forall_forall in Hall. by apply Hall.
Qed.

#[export] Hint Resolve decode_elem_encode_part decode_message_encode : agent.

Lemma decode_encode_history_ok h :
  Forall (fun c => Forall history_part (c_parts c)) h -> decode_history (encode_history h) = Ok h.
Proof.
  intros Hall. unfold decode_history, encode_history. simpl.
  apply result_mapM_map_inv. intros c Hc. apply decode_message_encode.
  rewrite Forall_forall in Hall. by apply Hall.
Qed.

Lemma decode_elem_typed e p : decode_elem e = Ok p -> history_part p.
Proof.
  unfold decode_elem. destruct (py_getitem e "part_type") as [pt|]; simpl; [| done].
  destruct pt as [| | |s| |]; try done.
  destruct (String.eqb s "function_call").
  - destruct (py_getitem e "name") as [n|]; simpl; [| done].
    destruct (py_getitem e "args") as [a|]; simpl; [| done].
    unfold proto_function_call. destruct n, a; try done. intros [= <-]. apply dict_of_pairs_NoDup.
  - destruct (String.eqb s "function_response"); [| done].
    destruct (py_getitem e "name") as [n|]; simpl; [| done].
    destruct (py_getitem e "value") as [v|]; simpl; [| done].
    unfold proto_function_response. destruct n; try done. intros [= <-]. by exists v.
Qed.

Lemma decode_history_typed_aux doc h :
  decode_history doc = Ok h -> Forall (fun c => Forall history_part (c_parts c)) h.
Proof.
  unfold decode_history. destruct (py_iter doc) as [ms|]; simpl; [| done].
  apply result_mapM_Forall. intros m c. unfold decode_message.
  destruct (py_getitem m "parts") as [ps|]; simpl; [| done].
  destruct (py_iter ps) as [es|]; simpl; [| done].
  destruct (result_mapM decode_elem es) as [parts|] eqn:Hp; simpl; [| done].
  destruct (py_getitem m "role"); simpl; [| done]. intros [= <-]. simpl.
  exact (result_mapM_Forall _ _ _ _ decode_elem_typed Hp).
Qed.

(** C29. What the reader accepts is typed: every part it returns is a
    function call whose arguments have no repeated key, or a function
    response of the shape [{"result": v}]; no text or file part can come
    out of an artifact. The role, by contrast, is whatever JSON value the
    file holds. *)
Theorem decode_history_typed doc h :
  decode_history doc = Ok h -> Forall (fun c => Forall history_part (c_parts c)) h.
Proof. apply decode_history_typed_aux. Qed.

(** Decoding is a normal form: a history the reader returned, written
    again in its format, reads back as itself. *)
Theorem decode_history_reencode doc h :
  decode_history doc = Ok h -> decode_history (encode_history h) = Ok h.
Proof. intros H. apply decode_encode_history_ok, (decode_history_typed_aux _ _ H). Qed.

(** A function call's arguments with a repeated key: the dict the
    reader builds keeps, for each key, the last value the artifact gives
    it, as Python's [json.loads] does. *)
Theorem proto_function_call_args_last name kvs :
  exists args, proto_function_call (JStr name) (JObj kvs) = Ok (PFunctionCall name args) /\
    forall k, pd_get k args = last (omap (fun kv => if decide (kv.1 = k) then Some kv.2 else None) kvs).
Proof.
  exists (dict_of_pairs kvs). split; [done |]. intros k. unfold dict_of_pairs.
  rewrite pd_get_fold_last. by destruct (last _).
Qed.

(** An artifact whose call repeats the key ["a"] and whose role is a
    number, not ["user"] or ["model"]. *)
Definition dup_doc : Json :=
  JArr [JObj [("role", JNum 7);
              ("parts", JArr [JObj [("part_type", JStr "function_call"); ("name", JStr "f");
                                    ("args", JObj [("a", JStr "1"); ("a", JStr "2")])]])]].

Definition dup_history : list Content :=
  [{| c_role := JNum 7; c_parts := [PFunctionCall "f" [("a", JStr "2")]] |}].

Lemma decode_history_typed_witness :
  decode_history dup_doc = Ok dup_history /\
  Forall (fun c => Forall history_part (c_parts c)) dup_history.
Proof.
  assert (H : decode_history dup_doc = Ok dup_history) by reflexivity.
  split; [exact H | exact (decode_history_typed _ _ H)].
Defined.

Lemma decode_history_reencode_witness :
  decode_history dup_doc = Ok dup_history /\
  decode_history (encode_history dup_history) = Ok dup_history.
Proof.
  assert (H : decode_history dup_doc = Ok dup_history) by reflexivity.
  split; [exact H | exact (decode_history_reencode _ _ H)].
Defined.

(** The number of contents the reader produces is the number of messages
    of the artifact. *)
Lemma decode_history_length ms h :
  decode_history (JArr ms) = Ok h -> length h = length ms.
Proof. apply result_mapM_length. Qed.

(** In general the reader yields one content per item the parsed
    document iterates over. *)
Lemma decode_history_length_iter doc l h :
  py_iter doc = Ok l -> decode_history doc = Ok h -> length h = length l.
Proof. unfold decode_history. intros ->. apply result_mapM_length. Qed.

(** [get_function_call_history] only reads Slack. *)
Lemma get_function_call_history_spec url w h w' :
  get_function_call_history url w = Ok (h, w') ->
  w' = log (EFetch url) w /\
  exists doc l, json_loads (Slack.download (w_slack w) url) = Ok doc /\ py_iter doc = Ok l /\
    length h = length l.
Proof.
  unfold get_function_call_history, requests_get. st_simpl.
  destruct (json_loads _) as [doc|] eqn:Ej; simpl; [| done].
  destruct (decode_history doc) as [h'|] eqn:Ed; simpl; [| done]. intros [= <- <-].
  split; [done |]. unfold decode_history in Ed.
  destruct (py_iter doc) as [l|] eqn:Ei; simpl in Ed; [| done].
  exists doc, l. split_and!; [done | done | by eapply result_mapM_length].
Qed.

(** C27. The file round trip the reader relies on: a history of tool
    calls and responses, written in the format the reader expects and
    uploaded as the bytes of [json.dumps(..., ensure_ascii=False,
    indent=2)], is read back whole by [get_function_call_history] (one
    [requests.get], then [json.loads] and the decoding loop). *)
Theorem get_function_call_history_roundtrip url w h :
  Forall (fun c => Forall history_part (c_parts c)) h ->
  Slack.download (w_slack w) url = BBytes (json_dumps (encode_history h)) ->
  get_function_call_history url w = Ok (h, log (EFetch url) w).
Proof.
  intros Hh Hd. unfold get_function_call_history, requests_get. st_simpl.
  rewrite Hd, json_loads_bytes_dumps. simpl. by rewrite decode_encode_history_ok.
Qed.

(** A Slack server holding one history file. *)
Definition history_world (url : string) (h : list Content) : World :=
  {| w_cache := ∅;
     w_backend := {| b_files := ∅; b_next := 0%N; b_profile := fun _ => (0, Genai.ACTIVE) |};
     w_slack := {| Slack.sl_files := {[url := BBytes (json_dumps (encode_history h))]};
                   Slack.sl_threads := ∅; Slack.sl_posts := [] |};
     w_log := [] |}.

Definition weather_history : list Content :=
  [{| c_role := JStr "model"; c_parts := [PFunctionCall "get_current_weather" [("city", JStr "Tokyo")]] |};
   {| c_role := JStr "user"; c_parts := [PFunctionResponse "get_current_weather" [("result", JStr "sunny")]] |}].

Lemma get_function_call_history_roundtrip_witness :
  let w := history_world "https://files.slack.com/h" weather_history in
  get_function_call_history "https://files.slack.com/h" w
  = Ok (weather_history, log (EFetch "https://files.slack.com/h") w).
Proof.
  apply get_function_call_history_roundtrip.
  - repeat constructor; simpl; eauto; set_solver.
  - reflexivity.
Defined.

(** C30. A part type other than the two known strings is a hard
    failure: the whole history is rejected with
    [ValueError("Unknown part type: ...")], even after well-formed
    messages; nothing is skipped. *)
Theorem decode_history_unknown_part_type h role v :
  Forall (fun c => Forall history_part (c_parts c)) h ->
  v <> JStr "function_call" -> v <> JStr "function_response" ->
  decode_history (JArr (map encode_message h ++
                        [JObj [("role", role); ("parts", JArr [JObj [("part_type", v)]])]])) =
  Err (ValueError (UnknownPartType v)).
Proof.
  intros Hall Hc Hr. unfold decode_history. simpl.
  apply (result_mapM_first_err _ _ _ _ h).
  - apply result_mapM_map_inv. intros c Hin. apply decode_message_encode.
    rewrite Forall_forall in Hall. by apply Hall.
  - unfold decode_message. simpl. unfold decode_elem. simpl.
    destruct v as [| | |s| |]; simpl; try done.
    destruct (String.eqb_spec s "function_call"); [congruence |].
    destruct (String.eqb_spec s "function_response"); [congruence | done].
Qed.

Lemma decode_history_unknown_part_type_witness :
  decode_history (JArr (map encode_message [] ++
     [JObj [("role", JStr "model"); ("parts", JArr [JObj [("part_type", JStr "text")]])]])) =
  Err (ValueError (UnknownPartType (JStr "text"))).
Proof. apply decode_history_unknown_part_type; [constructor | discriminate | discriminate]. Defined.

(** ** The writer against the reader *)

Lemma decode_trace_artifact_error tr :
  tr <> [] -> decode_history (encode_trace tr) = Err (KeyError "parts").
Proof. destruct tr as [|[n args|n v] tr]; [done | |]; intros _; reflexivity. Qed.

(** C2. The artifact the handler writes cannot be read back: any
    non-empty trace, once parsed, is a list of records without a
    ["parts"] key, and [get_function_call_history] raises
    [KeyError('parts')] on its first record. *)
Theorem decode_trace_artifact_fails tr :
  tr <> [] -> decode_history (encode_trace tr) = Err (KeyError "parts").
Proof. apply decode_trace_artifact_error. Qed.

Lemma decode_trace_artifact_fails_witness :
  decode_history (encode_trace [RCall "get_current_weather" [("city", JStr "Tokyo")];
                                RResponse "get_current_weather" (JStr "sunny")]) =
  Err (KeyError "parts").
Proof. apply decode_trace_artifact_fails. discriminate. Defined.

(** The reader on an artifact holding one message. *)
Lemma decode_history_single role elems :
  decode_history (JArr [JObj [("role", role); ("parts", JArr elems)]]) =
  let? parts := result_mapM decode_elem elems in Ok [{| c_role := role; c_parts := parts |}].
Proof. unfold decode_history, decode_message. simpl. destruct (result_mapM decode_elem elems); reflexivity. Qed.

(** C3. Wrapping the records in the envelope the reader expects does
    not help: the writer stores a response under ["response"] while the
    reader looks for ["value"], so the first response record raises
    [KeyError('value')]. *)
Theorem decode_trace_in_envelope_fails role pre n v post :
  Forall (fun r => is_response r = false) pre ->
  decode_history (JArr [JObj [("role", role); ("parts", encode_trace (pre ++ RResponse n v :: post))]]) =
  Err (KeyError "value").
Proof.
  intros Hpre. unfold encode_trace. rewrite decode_history_single.
  assert (Hcalls : result_mapM decode_elem (map encode_record pre) =
    Ok (map (fun r => match r with RCall n a => PFunctionCall n (dict_of_pairs a) | _ => PText "" end) pre)).
  { induction pre as [|[n' a'|n' v'] pre IH]; [done | | by inversion Hpre].
    inversion Hpre; subst. simpl. by rewrite IH. }
  rewrite map_app. simpl.
  by rewrite (result_mapM_first_err _ _ _ _ _ (KeyError "value") Hcalls).
Qed.

Lemma decode_trace_in_envelope_fails_witness :
  decode_history (JArr [JObj [("role", JStr "model");
     ("parts", encode_trace ([RCall "get_current_weather" [("city", JStr "Tokyo")]] ++
                             RResponse "get_current_weather" (JStr "sunny") :: []))]]) =
  Err (KeyError "value").
Proof. apply decode_trace_in_envelope_fails. repeat constructor. Defined.
