(* ===== verification/MediaCache.v ===== *)
(** * The media cache and uploader: [SUPPORTED_MIME_TYPES] and
      [get_file_part] (app_mention.py:12-47, 65-68, 99-125)

    [file_upload_dict] is a closure variable of [make_app_mention_event]:
    a dict from a Slack file id to the name of the Gemini file uploaded
    for it, filled at start-up from [genai.list_files] ([init_cache]) and
    kept in [w_cache] of the [World]. [get_file_part] returns [None] for an
    unsupported MIME type; otherwise it reuses the cached file when the
    service still has it (and forgets the entry when [get_file] raises
    [PermissionDenied]), downloads and uploads on a miss, waits while a
    video is [PROCESSING] (the [while] loop, [poll_processing], with fuel:
    the code has no bound), records the file name in the cache and returns
    the file.

    The cache invariant [cache_wf] says that every cached name was issued
    by the service. [get_file_part] keeps it, [init_cache] establishes it,
    and [keeps_wf] carries it to the callers. [settles] and
    [backend_settles] say how much fuel the video wait needs. Every run
    uploads at most one file and sleeps at most [fuel] times
    ([log_bound]), and on the accepted types the code's substring test
    ["video" in mimetype] is the media type [video/]. *)

From stdpp Require Import base list sets gmap strings.
From S2P Require Import Prelude Python Services.
Import Genai Slack.

Module MediaCache.

Definition SUPPORTED_MIME_TYPES : list string :=
  [ "image/png"; "image/jpeg"; "image/webp"; "image/heic"; "image/heif";
    "video/mp4"; "video/mpeg"; "video/avi"; "video/x-flv"; "video/mpg";
    "video/webm"; "video/wmv"; "video/3gpp";
    "audio/wav"; "audio/mp3"; "audio/aiff"; "audio/aac"; "audio/ogg"; "audio/flac";
    "application/pdf"; "application/x-javascript"; "text/javascript";
    "application/x-python"; "text/x-python"; "text/plain"; "text/html";
    "text/css"; "text/md"; "text/csv"; "text/xml"; "text/rtf" ].

(** [for file in genai.list_files(page_size=100):
       file_upload_dict[file.display_name] = file.name] *)
Definition init_cache (b : Backend) : gmap string string :=
  foldl (fun c f => <[gf_display_name f := gf_name f]> c) ∅
        (map snd (map_to_list (b_files b))).

(** [while file.state.name == "PROCESSING": time.sleep(5);
       file = genai.get_file(file.name)] *)
Fixpoint poll_processing (fuel : nat) (file : GFile) : M GFile :=
  if decide (gf_state file = PROCESSING) then
    match fuel with
    | 0 => st_throw OutOfFuel
    | S fuel' =>
        time_sleep ;;
        file' <- genai_get_file (gf_name file) ;;
        poll_processing fuel' file'
    end
  else st_ret file.

(** Lines 103-111: reuse the cached file if the service still has it. *)
Definition lookup_cached (file_id : string) : M (option GFile) :=
  w <- st_get ;;
  match w_cache w !! file_id with
  | None => st_ret None
  | Some name =>
      r <- try_get_file name ;;
      match r with
      | Some f => st_ret (Some f)
      | None => st_modify (fun w => set_cache w (delete file_id (w_cache w))) ;; st_ret None
      end
  end.

(** Lines 113-117: download the Slack file and upload it. *)
Definition fetch_and_upload (file_url file_id mimetype : string) : M GFile :=
  body <- requests_get file_url ;;
  genai_upload_file body file_id mimetype.

(** Lines 119-122: only a MIME type containing "video" is waited for. *)
Definition wait_if_video (fuel : nat) (mimetype : string) (file : GFile) : M GFile :=
  if py_in_str "video" mimetype then poll_processing fuel file else st_ret file.

(** [get_file_part(file_url, file_id, mimetype)] *)
Definition get_file_part (fuel : nat) (file_url file_id mimetype : string) : M (option GFile) :=
  if negb (py_in_list mimetype SUPPORTED_MIME_TYPES) then st_ret None
  else
    cached <- lookup_cached file_id ;;
    file <- match cached with
            | Some f => st_ret f
            | None => fetch_and_upload file_url file_id mimetype
            end ;;
    file <- wait_if_video fuel mimetype file ;;
    st_modify (fun w => set_cache w (<[file_id := gf_name file]> (w_cache w))) ;;
    st_ret (Some file).

(** Fuel for the video wait (a specification, not code): a file
    [settles] within [fuel] polls when its processing ends and takes fewer
    than [fuel] more polls; the service settles when all its files do and
    an upload of type [m] does. *)
Definition settles (fuel : nat) (f : GFile) : Prop :=
  gf_final f <> PROCESSING /\ (gf_state f = PROCESSING -> gf_pending f < fuel).

Definition backend_settles (fuel : nat) (b : Backend) (m : string) : Prop :=
  (forall name f, b_files b !! name = Some f -> settles fuel f) /\
  (b_profile b m).2 <> PROCESSING /\ (b_profile b m).1 <= fuel.

(** The cache invariant (a specification): every name the cache holds
    is one the service issued. It may have expired since, which is the
    case [lookup_cached] handles. *)
Definition cache_wf (w : World) : Prop :=
  forall id name, w_cache w !! id = Some name ->
    exists n, name = fresh_name n /\ (n < b_next (w_backend w))%N.

(** The invariant of the whole state, as a relation between a state and
    a later one: a step keeps it. *)
Definition keeps_wf (w w' : World) : Prop :=
  cache_wf w /\ backend_wf (w_backend w) -> cache_wf w' /\ backend_wf (w_backend w').

(** What resolving the Slack file [id] may do to the rest of the state:
    the other cache entries stay, the service only grows. *)
Definition cache_frame (id : string) (w w' : World) : Prop :=
  (forall id', id' <> id -> w_cache w' !! id' = w_cache w !! id') /\
  (b_next (w_backend w) <= b_next (w_backend w'))%N /\
  (backend_wf (w_backend w) -> backend_wf (w_backend w')).

(** ** The polling loop *)

(** What a finished poll guarantees: the file returned is the service's
    current version, no longer processing, with the same name, and
    neither the cache nor the upload count moved. *)
Lemma poll_processing_spec fuel f w f' w' :
  stored w f -> poll_processing fuel f w = Ok (f', w') ->
  stored w' f' /\ gf_state f' <> PROCESSING /\ gf_name f' = gf_name f /\
  gf_content f' = gf_content f /\ w_cache w' = w_cache w /\ quiet w w'.
Proof.
  revert f w. induction fuel as [|fuel IH]; intros f w Hst; simpl; case_decide; try done;
    try (intros [= <- <-]; split_and!; auto with agent).
  unfold time_sleep. rewrite (st_bind_step _ _ _ tt (log ESleep w)) by done.
  rewrite (st_bind_step _ _ _ _ _ (genai_get_file_found (log ESleep w) _ f Hst)).
  intros Hp. destruct (IH _ _ (after_get_stored _ _) Hp) as (? & ? & Hn & Hct & Hc & Hq).
  rewrite advance_name in Hn. rewrite advance_content in Hct. split_and!; try done.
  eapply quiet_trans; [apply (quiet_log w ESleep); done |].
  eapply quiet_trans; [| exact Hq]. by apply quiet_after_get.
Qed.

(** A finished poll ends in the file's terminal state. *)
Lemma poll_processing_final fuel f w f' w' :
  stored w f -> consistent f -> poll_processing fuel f w = Ok (f', w') ->
  gf_state f' = gf_final f.
Proof.
  revert f w. induction fuel as [|fuel IH]; intros f w Hst Hc; simpl; case_decide as Hp;
    try done; try (intros [= <- <-]; destruct Hc; congruence).
  unfold time_sleep. rewrite (st_bind_step _ _ _ tt (log ESleep w)) by done.
  rewrite (st_bind_step _ _ _ _ _ (genai_get_file_found (log ESleep w) _ f Hst)).
  intros Hpoll. rewrite <- advance_final. eapply IH; [apply after_get_stored | by apply advance_consistent | exact Hpoll].
Qed.

(** Enough fuel: a file whose processing ends is waited for until its
    terminal state; [gf_pending f + 1] rounds suffice. *)
Lemma poll_processing_terminates fuel f w :
  stored w f -> gf_final f <> PROCESSING ->
  (gf_state f = PROCESSING -> gf_pending f < fuel) ->
  exists f' w', poll_processing fuel f w = Ok (f', w').
Proof.
  revert f w. induction fuel as [|fuel IH]; intros f w Hst Hfin Hfuel; simpl;
    (case_decide as Hp; [| by eexists _, _]); [specialize (Hfuel Hp); lia |].
  unfold time_sleep. rewrite (st_bind_step _ _ _ tt (log ESleep w)) by done.
  rewrite (st_bind_step _ _ _ _ _ (genai_get_file_found (log ESleep w) _ f Hst)).
  apply IH; [apply after_get_stored | |].
  - unfold advance. by destruct (gf_state f), (gf_pending f).
  - unfold advance. destruct (gf_state f); try congruence. specialize (Hfuel eq_refl).
    destruct (gf_pending f); simpl; [congruence | lia].
Qed.

(** A processing file whose service never finishes is polled forever:
    whatever the fuel, the loop does not return. *)
Lemma poll_processing_diverges fuel f w :
  stored w f -> gf_state f = PROCESSING -> gf_final f = PROCESSING ->
  st_raises (poll_processing fuel f) w OutOfFuel.
Proof.
  revert f w. induction fuel as [|fuel IH]; intros f w Hst Hs Hfin; simpl; rewrite decide_True by done;
    [by eexists |].
  eapply st_raises_bind_r; [done |].
  eapply st_raises_bind_r; [exact (genai_get_file_found (log ESleep w) _ f Hst) |].
  apply IH; [apply after_get_stored | |]; unfold advance; rewrite Hs;
    destruct (gf_pending f); simpl; congruence.
Qed.

(** ** The blocks of [get_file_part] *)

Lemma lookup_cached_miss id w :
  w_cache w !! id = None -> lookup_cached id w = Ok (None, w).
Proof. intros H. unfold lookup_cached. st_simpl. by rewrite H. Qed.

Lemma lookup_cached_expired id name w :
  w_cache w !! id = Some name -> b_files (w_backend w) !! name = None ->
  lookup_cached id w = Ok (None, set_cache (log (EGetFile name) w) (delete id (w_cache w))).
Proof.
  intros H Hb. unfold lookup_cached, try_get_file. st_simpl. rewrite H.
  by rewrite genai_get_file_missing.
Qed.

Lemma lookup_cached_hit id name f w :
  w_cache w !! id = Some name -> b_files (w_backend w) !! name = Some f ->
  lookup_cached id w = Ok (Some (advance f), after_get w name (advance f)).
Proof.
  intros H Hb. unfold lookup_cached, try_get_file. st_simpl. rewrite H.
  by rewrite (genai_get_file_found _ _ _ Hb).
Qed.

(** Whatever the cache holds, looking it up uploads nothing and leaves
    the service's files and Slack as they were, up to the [get_file]
    progress; a file it returns is the service's current version. *)
Lemma lookup_cached_spec id w r w1 :
  backend_wf (w_backend w) ->
  lookup_cached id w = Ok (r, w1) ->
  quiet w w1 /\ match r with Some f => stored w1 f | None => w_cache w1 !! id = None end.
Proof.
  intros Hwf. destruct (w_cache w !! id) as [name|] eqn:Hc.
  - destruct (b_files (w_backend w) !! name) as [f|] eqn:Hb.
    + rewrite (lookup_cached_hit _ _ _ _ Hc Hb). intros [= <- <-].
      destruct (Hwf _ _ Hb) as [<- _]. split; [by apply quiet_after_get | apply after_get_stored].
    + rewrite (lookup_cached_expired _ _ _ Hc Hb). intros [= <- <-].
      split; [| apply lookup_delete_eq].
      eapply quiet_trans; [apply (quiet_log w (EGetFile name)); done | apply quiet_set_cache].
  - rewrite (lookup_cached_miss _ _ Hc). intros [= <- <-]. split; [apply quiet_refl | done].
Qed.

Lemma wait_if_video_spec fuel m f w f' w' :
  stored w f -> wait_if_video fuel m f w = Ok (f', w') ->
  stored w' f' /\ gf_name f' = gf_name f /\ gf_content f' = gf_content f /\
  w_cache w' = w_cache w /\ quiet w w' /\
  (py_in_str "video" m = true -> gf_state f' <> PROCESSING).
Proof.
  unfold wait_if_video. destruct (py_in_str "video" m); intros Hst Hw.
  - destruct (poll_processing_spec _ _ _ _ _ Hst Hw) as (? & ? & ? & ? & ? & ?). split_and!; auto.
  - injection Hw as <- <-. split_and!; auto with agent; done.
Qed.

(** Lines 113-117 download [file_url] and upload what was served, under
    the next fresh name. *)
Lemma fetch_and_upload_spec url id m w :
  fetch_and_upload url id m w =
  Ok (new_file (w_backend w) (download (w_slack w) url) id m,
      after_upload (log (EFetch url) w) id (new_file (w_backend w) (download (w_slack w) url) id m)).
Proof. reflexivity. Qed.

(** [get_file_part] once the cache lookup is done. *)
Lemma get_file_part_unfold fuel url id m w :
  py_in_list m SUPPORTED_MIME_TYPES = true ->
  get_file_part fuel url id m w =
  st_bind (lookup_cached id) (fun cached =>
    file <- match cached with Some f => st_ret f | None => fetch_and_upload url id m end ;;
    file <- wait_if_video fuel m file ;;
    st_modify (fun w => set_cache w (<[id := gf_name file]> (w_cache w))) ;;
    st_ret (Some file)) w.
Proof. intros Hs. unfold get_file_part. by rewrite Hs. Qed.

Lemma poll_processing_done fuel f w :
  gf_state f <> PROCESSING -> poll_processing fuel f w = Ok (f, w).
Proof. intros Hs. destruct fuel; simpl; by rewrite decide_False. Qed.

Lemma wait_if_video_done fuel m f w :
  (py_in_str "video" m = true -> gf_state f <> PROCESSING) ->
  wait_if_video fuel m f w = Ok (f, w).
Proof.
  unfold wait_if_video. destruct (py_in_str "video" m); [| done].
  intros Hs. by apply poll_processing_done, Hs.
Qed.

Lemma get_file_part_supported fuel url id m w r w' :
  get_file_part fuel url id m w = Ok (Some r, w') -> py_in_list m SUPPORTED_MIME_TYPES = true.
Proof. unfold get_file_part. destruct (py_in_list m _) eqn:E; [done |]. by intros [=]. Qed.

Lemma poll_processing_silent fuel f : st_preserves silent (poll_processing fuel f).
Proof.
  revert f. induction fuel as [|fuel IH]; intros f; simpl; case_decide; st_preserves_tac;
    auto with agent.
Qed.

(** Resolving media never changes Slack. *)
Lemma get_file_part_silent fuel url id m : st_preserves silent (get_file_part fuel url id m).
Proof.
  unfold get_file_part, lookup_cached, fetch_and_upload, wait_if_video.
  st_preserves_tac; auto using poll_processing_silent with agent.
Qed.

(** ** How many calls [get_file_part] makes *)

Lemma poll_processing_uploads fuel f : log_bound is_upload 0 (poll_processing fuel f).
Proof. revert f. induction fuel as [|fuel IH]; intros f; simpl; case_decide; log_bound0; [apply time_sleep_bound | apply IH]. Qed.

Lemma poll_processing_sleeps fuel f : log_bound is_sleep fuel (poll_processing fuel f).
Proof.
  revert f. induction fuel as [|fuel IH]; intros f; simpl; case_decide; log_bound0;
    [| apply (log_bound_mono _ 0); [lia | apply log_bound_ret]].
  apply (log_bound_bind _ 1 (0 + fuel)); [apply time_sleep_bound | intros _].
  apply log_bound_bind; [apply genai_get_file_bound | intros; apply IH].
Qed.

Lemma get_file_part_uploads fuel url id m : log_bound is_upload 1 (get_file_part fuel url id m).
Proof.
  unfold get_file_part. destruct (negb _); [apply (log_bound_mono _ 0); [lia | apply log_bound_ret] |].
  apply (log_bound_bind _ 0 1); [unfold lookup_cached; log_bound0 | intros c].
  apply (log_bound_bind _ 1 0); [destruct c as [f|] |].
  - apply (log_bound_mono _ 0); [lia | apply log_bound_ret].
  - apply (log_bound_bind _ 0 1); [apply requests_get_bound | intros; apply genai_upload_file_bound].
  - intros f. unfold wait_if_video. log_bound0. apply poll_processing_uploads.
Qed.

Lemma get_file_part_sleeps fuel url id m : log_bound is_sleep fuel (get_file_part fuel url id m).
Proof.
  unfold get_file_part. destruct (negb _); [apply (log_bound_mono _ 0); [lia | apply log_bound_ret] |].
  apply (log_bound_bind _ 0 fuel); [unfold lookup_cached; log_bound0 | intros c].
  apply (log_bound_bind _ 0 fuel); [destruct c as [f|]; [apply log_bound_ret |] |].
  - apply (log_bound_bind _ 0 0); [apply requests_get_bound | intros; apply genai_upload_file_bound].
  - intros f. apply (log_bound_mono _ (fuel + 0)); [lia |]. apply log_bound_bind; [| intros; log_bound0].
    unfold wait_if_video. destruct (py_in_str _ _); [apply poll_processing_sleeps |].
    apply (log_bound_mono _ 0); [lia | apply log_bound_ret].
Qed.

(** Two bounds on the same run. *)
Lemma log_bound_both p q n k {A} (c : M A) w :
  log_bound p n c -> log_bound q k c ->
  exists l, w_log (st_final (c w)) = w_log w ++ l /\ count p l <= n /\ count q l <= k.
Proof.
  intros Hp Hq. destruct (Hp w) as (l & H1 & C1), (Hq w) as (l' & H2 & C2).
  rewrite H1 in H2. apply app_inv_head in H2 as <-. by exists l.
Qed.

(** C34. Bounds on one resolve, on every run (the ones that raise
    included): [get_file_part] uploads at most one file and sleeps at most
    [fuel] times, so the real loop makes at most one [time.sleep(5)] per
    poll it needs. *)
Theorem get_file_part_bounds fuel url id m w :
  exists l, w_log (st_final (get_file_part fuel url id m w)) = w_log w ++ l /\
    count is_upload l <= 1 /\ count is_sleep l <= fuel.
Proof. apply log_bound_both; [apply get_file_part_uploads | apply get_file_part_sleeps]. Qed.

(** ** Properties of [get_file_part] *)

(** An unsupported MIME type yields [None] at once: no download,
    no upload, no change to the cache. *)
Theorem get_file_part_unsupported fuel url id m w :
  py_in_list m SUPPORTED_MIME_TYPES = false ->
  get_file_part fuel url id m w = Ok (None, w).
Proof. intros Hs. unfold get_file_part. by rewrite Hs. Qed.

(** [None] means exactly that: a supported type always yields a file
    or raises. *)
Lemma get_file_part_None fuel url id m w w' :
  get_file_part fuel url id m w = Ok (None, w') ->
  py_in_list m SUPPORTED_MIME_TYPES = false /\ w' = w.
Proof.
  unfold get_file_part. destruct (py_in_list m SUPPORTED_MIME_TYPES); simpl; [| by intros [= <-]].
  intros H. apply st_bind_Ok in H as (c & w1 & _ & H). apply st_bind_Ok in H as (f0 & w2 & _ & H).
  apply st_bind_Ok in H as (f1 & w3 & _ & H). by st_simpl.
Qed.

Lemma get_file_part_post fuel url id m w f w' :
  backend_wf (w_backend w) ->
  get_file_part fuel url id m w = Ok (Some f, w') ->
  w_cache w' !! id = Some (gf_name f) /\ stored w' f /\ backend_wf (w_backend w') /\
  (py_in_str "video" m = true -> gf_state f <> PROCESSING).
Proof.
  intros Hwf H. pose proof (get_file_part_supported _ _ _ _ _ _ _ H) as Hs.
  rewrite get_file_part_unfold in H by done.
  apply st_bind_Ok in H as (c & w1 & Hl & H).
  destruct (lookup_cached_spec _ _ _ _ Hwf Hl) as [Hq1 Hc1].
  apply st_bind_Ok in H as (f0 & w2 & Hf0 & H).
  assert (stored w2 f0 /\ backend_wf (w_backend w2)) as [Hst2 Hwf2].
  { destruct c as [f'|].
    - injection Hf0 as <- <-. split; [done | by apply Hq1].
    - rewrite fetch_and_upload_spec in Hf0. injection Hf0 as <- <-.
      split; [apply after_upload_stored |].
      destruct Hq1 as (_ & _ & Hn & Hp & Hw1). specialize (Hw1 Hwf).
      erewrite (new_file_congr (w_backend w1) (w_backend (log (EFetch url) w1))) by done.
      by apply backend_wf_after_upload. }
  apply st_bind_Ok in H as (f1 & w3 & Hw & H).
  destruct (wait_if_video_spec _ _ _ _ _ _ Hst2 Hw) as (Hst3 & _ & _ & _ & Hq3 & Hv).
  st_simpl. injection H as <- <-. simpl. split_and!; [apply lookup_insert_eq | done | by apply Hq3 | done].
Qed.

(** ** The cache invariant *)

#[export] Instance cache_frame_preorder id : PreOrder (cache_frame id).
Proof.
  split; [intros w; split_and!; auto; lia |].
  intros w1 w2 w3 (A1 & B1 & C1) (A2 & B2 & C2). split_and!; [| lia | auto].
  intros id' Hne. rewrite A2, A1 by done. done.
Qed.

#[export] Instance keeps_wf_preorder : PreOrder keeps_wf.
Proof. split; [intros w H; exact H | intros w1 w2 w3 H1 H2 H; auto]. Qed.

Lemma grows_frame {A} id (c : M A) : st_preserves grows c -> st_preserves (cache_frame id) c.
Proof. apply st_preserves_mono. intros w w' (Hc & Hn & Hb). split_and!; [by rewrite Hc | done | done]. Qed.

Lemma grows_keeps_wf {A} (c : M A) : st_preserves grows c -> st_preserves keeps_wf c.
Proof.
  apply st_preserves_mono. intros w w' (Hc & Hn & Hb) [Hcw Hbw]. split; [| by apply Hb].
  intros id name Hl. rewrite Hc in Hl. destruct (Hcw _ _ Hl) as (n & -> & Hlt). exists n. split; [done | lia].
Qed.

Lemma set_cache_delete_frame id w : cache_frame id w (set_cache w (delete id (w_cache w))).
Proof. split_and!; simpl; [intros id' Hne; by rewrite lookup_delete_ne | lia | done]. Qed.

Lemma set_cache_insert_frame id name w : cache_frame id w (set_cache w (<[id := name]> (w_cache w))).
Proof. split_and!; simpl; [intros id' Hne; by rewrite lookup_insert_ne | lia | done]. Qed.

#[export] Hint Resolve set_cache_delete_frame set_cache_insert_frame : agent.

Lemma poll_processing_frame id fuel f : st_preserves (cache_frame id) (poll_processing fuel f).
Proof.
  revert f. induction fuel as [|fuel IH]; intros f; simpl; case_decide; st_preserves_tac;
    auto using grows_frame with agent.
Qed.

Lemma get_file_part_frame fuel url id m : st_preserves (cache_frame id) (get_file_part fuel url id m).
Proof.
  unfold get_file_part, lookup_cached, fetch_and_upload, wait_if_video.
  st_preserves_tac; auto using grows_frame, poll_processing_frame with agent.
Qed.

(** The invariant after one resolve. *)
Lemma get_file_part_wf_post fuel url id m w r w' :
  backend_wf (w_backend w) -> cache_wf w -> get_file_part fuel url id m w = Ok (r, w') ->
  cache_wf w' /\ backend_wf (w_backend w').
Proof.
  intros Hwf Hc H. destruct (st_preserves_Ok (get_file_part_frame fuel url id m) H) as (Hfr & Hn & Hb).
  split; [| by apply Hb]. intros id' name Hl. destruct (decide (id' = id)) as [-> | Hne].
  - destruct r as [f|]; [| destruct (get_file_part_None _ _ _ _ _ _ H) as [_ ->]; by apply (Hc id)].
    destruct (get_file_part_post _ _ _ _ _ _ _ Hwf H) as (Hci & Hst & Hwf' & _).
    rewrite Hci in Hl. injection Hl as <-. by destruct (Hwf' _ _ Hst) as [_ ?].
  - rewrite Hfr in Hl by done. destruct (Hc _ _ Hl) as (n & -> & Hlt). exists n. split; [done | lia].
Qed.

Lemma set_cache_delete_keeps_wf id w : keeps_wf w (set_cache w (delete id (w_cache w))).
Proof.
  intros [Hc Hb]. split; [| done]. intros id' name. simpl.
  rewrite lookup_delete_Some. intros [_ H]. exact (Hc _ _ H).
Qed.

#[export] Hint Resolve set_cache_delete_keeps_wf : agent.

Lemma poll_processing_grows fuel f : st_preserves grows (poll_processing fuel f).
Proof.
  revert f. induction fuel as [|fuel IH]; intros f; simpl; case_decide; st_preserves_tac;
    auto with agent.
Qed.

(** The runs of [get_file_part] that raise stop before the cache update:
    the steps before it keep the invariant. *)
Lemma get_file_part_keeps_wf_err fuel url id m : st_preserves_err keeps_wf (get_file_part fuel url id m).
Proof.
  unfold get_file_part. destruct (negb _); [apply st_preserves_err_of; st_preserves_tac |].
  refine (@st_preserves_err_bind _ _ _ _ _ _ _ _ _ _);
    [unfold lookup_cached; st_preserves_tac; auto using grows_keeps_wf with agent | intros c].
  refine (@st_preserves_err_bind _ _ _ _ _ _ _ _ _ _);
    [destruct c; st_preserves_tac; unfold fetch_and_upload; st_preserves_tac; auto using grows_keeps_wf with agent
    | intros file].
  refine (@st_preserves_err_bind _ _ _ _ _ _ _ _ _ _);
    [unfold wait_if_video; st_preserves_tac; auto using grows_keeps_wf, poll_processing_grows | intros file'].
  apply st_preserves_err_modify_ret.
Qed.

Lemma get_file_part_keeps_wf fuel url id m : st_preserves keeps_wf (get_file_part fuel url id m).
Proof.
  intros w. destruct (get_file_part fuel url id m w) as [[r w']|[e w']] eqn:H; simpl.
  - intros [Hc Hb]. exact (get_file_part_wf_post _ _ _ _ _ _ _ Hb Hc H).
  - exact (get_file_part_keeps_wf_err _ _ _ _ _ _ _ H).
Qed.

(** C33. [get_file_part] keeps the invariant on every run, the ones
    that raise included: the names the cache holds stay names the service
    issued, and the service stays well formed, whatever the cache lookup,
    the upload and the wait did. *)
Theorem get_file_part_cache_wf fuel url id m w :
  backend_wf (w_backend w) -> cache_wf w ->
  cache_wf (st_final (get_file_part fuel url id m w)) /\
  backend_wf (w_backend (st_final (get_file_part fuel url id m w))).
Proof. intros Hb Hc. exact (get_file_part_keeps_wf fuel url id m w (conj Hc Hb)). Qed.

Lemma foldl_insert_lookup (P : string -> string -> Prop) (L : list GFile) (c : gmap string string) :
  (forall id name, c !! id = Some name -> P id name) ->
  Forall (fun f => P (gf_display_name f) (gf_name f)) L ->
  forall id name, foldl (fun c f => <[gf_display_name f := gf_name f]> c) c L !! id = Some name -> P id name.
Proof.
  revert c. induction L as [|f L IH]; intros c Hc HL; simpl; [done |].
  inversion HL as [|? ? Hf HL']; subst. apply IH; [| done].
  intros id name. rewrite lookup_insert. case_decide; [intros [= <-]; by subst | auto].
Qed.

(** What the start-up loop puts in the cache. *)
Lemma init_cache_lookup b id name :
  backend_wf b -> init_cache b !! id = Some name ->
  exists f, b_files b !! name = Some f /\ gf_display_name f = id /\
    exists n, name = fresh_name n /\ (n < b_next b)%N.
Proof.
  intros Hwf. revert id name. apply foldl_insert_lookup; [intros id name; by rewrite lookup_empty |].
  apply Forall_forall. intros f Hin. apply list_elem_of_fmap in Hin as ([k f'] & -> & Hin).
  apply elem_of_map_to_list in Hin. destruct (Hwf _ _ Hin) as [Hk Hn]. simpl. rewrite Hk.
  by exists f'.
Qed.

Lemma init_cache_wf b s : backend_wf b ->
  cache_wf {| w_cache := init_cache b; w_backend := b; w_slack := s; w_log := [] |}.
Proof. intros Hwf id name Hl. by destruct (init_cache_lookup _ _ _ Hwf Hl) as (f & _ & _ & ?). Qed.

(** The cache built at start-up maps each display name to the
    name of a file the service holds under that display name, and the
    start state satisfies the cache invariant. *)
Theorem init_cache_spec b s :
  backend_wf b ->
  (forall id name, init_cache b !! id = Some name ->
     exists f, b_files b !! name = Some f /\ gf_display_name f = id) /\
  cache_wf {| w_cache := init_cache b; w_backend := b; w_slack := s; w_log := [] |}.
Proof.
  intros Hwf. split; [| by apply init_cache_wf].
  intros id name Hl. destruct (init_cache_lookup _ _ _ Hwf Hl) as (f & ? & ? & _). eauto.
Qed.

(** A file [get_file_part] returns is the service's current
    version of it, the cache maps the Slack file id to its name, the
    service's invariant holds, and a video is no longer processing. *)
Theorem get_file_part_spec fuel url id m w f w' :
  backend_wf (w_backend w) ->
  get_file_part fuel url id m w = Ok (Some f, w') ->
  w_cache w' !! id = Some (gf_name f) /\ stored w' f /\ backend_wf (w_backend w') /\
  (py_in_str "video" m = true -> gf_state f <> PROCESSING).
Proof. apply get_file_part_post. Qed.

Lemma settles_advance fuel f : settles fuel f -> settles fuel (advance f).
Proof.
  intros [Hf Hp]. split; [by rewrite advance_final |]. unfold advance.
  destruct (gf_state f) eqn:Hs, (gf_pending f) eqn:Hn; simpl; intros H; try congruence.
  specialize (Hp eq_refl). lia.
Qed.

Lemma settles_new_file fuel b c d m :
  (b_profile b m).2 <> PROCESSING -> (b_profile b m).1 <= fuel -> settles fuel (new_file b c d m).
Proof.
  unfold new_file, settles. destruct (b_profile b m) as [n fin]; simpl. intros Hfin Hn.
  split; [done |]. case_decide; [congruence | intros _; lia].
Qed.

Lemma wait_if_video_terminates fuel m f w :
  stored w f -> settles fuel f -> exists f' w', wait_if_video fuel m f w = Ok (f', w').
Proof.
  intros Hst [Hfin Hp]. unfold wait_if_video.
  destruct (py_in_str "video" m); [by apply poll_processing_terminates | by eexists _, _].
Qed.

(** Once the cache lookup has produced a settled candidate (or none),
    the rest of [get_file_part] returns. *)
Lemma get_file_part_after_lookup fuel url id m w c w1 :
  py_in_list m SUPPORTED_MIME_TYPES = true ->
  lookup_cached id w = Ok (c, w1) ->
  (forall f, c = Some f -> stored w1 f /\ settles fuel f) ->
  (b_profile (w_backend w1) m).2 <> PROCESSING -> (b_profile (w_backend w1) m).1 <= fuel ->
  exists r w', get_file_part fuel url id m w = Ok (r, w').
Proof.
  intros Hs Hl Hc Hfin Hd. rewrite get_file_part_unfold, (st_bind_step _ _ _ _ _ Hl) by done.
  assert (exists f w2, (match c with Some f => st_ret f | None => fetch_and_upload url id m end) w1
                       = Ok (f, w2) /\ stored w2 f /\ settles fuel f) as (f & w2 & Hf & Hst & Hset).
  { destruct c as [f|].
    - destruct (Hc f eq_refl). by eexists _, _.
    - eexists _, _. rewrite fetch_and_upload_spec. split; [done |].
      split; [apply after_upload_stored | by apply settles_new_file]. }
  rewrite (st_bind_step _ _ _ _ _ Hf).
  destruct (wait_if_video_terminates fuel m f w2 Hst Hset) as (f' & w3 & Hw).
  rewrite (st_bind_step _ _ _ _ _ Hw). by eexists _, _.
Qed.

(** C36. Termination: when every file the service holds, and every
    upload of type [m], finishes processing within [fuel] polls,
    [get_file_part] returns: the only way the code's call does not return
    is the unbounded video wait. *)
Theorem get_file_part_terminates fuel url id m w :
  backend_wf (w_backend w) -> backend_settles fuel (w_backend w) m ->
  exists r w', get_file_part fuel url id m w = Ok (r, w').
Proof.
  intros Hwf (Hall & Hfin & Hd).
  destruct (py_in_list m SUPPORTED_MIME_TYPES) eqn:Hs; [| unfold get_file_part; rewrite Hs; by eexists _, _].
  destruct (w_cache w !! id) as [name|] eqn:Hc; [destruct (b_files (w_backend w) !! name) as [f|] eqn:Hb |].
  - apply (get_file_part_after_lookup _ _ _ _ _ _ _ Hs (lookup_cached_hit _ _ _ _ Hc Hb)); try done.
    intros f' [= <-]. destruct (Hwf _ _ Hb) as [<- _].
    split; [apply after_get_stored | apply settles_advance, (Hall _ _ Hb)].
  - by apply (get_file_part_after_lookup _ _ _ _ _ _ _ Hs (lookup_cached_expired _ _ _ Hc Hb)).
  - by apply (get_file_part_after_lookup _ _ _ _ _ _ _ Hs (lookup_cached_miss _ _ Hc)).
Qed.

(** C32. Idempotence: resolving the same Slack file again right after
    a successful resolve reuses the cached upload (same Gemini file
    name) and uploads nothing, whatever the URL and the fuel. *)
Theorem get_file_part_idempotent fuel fuel' url url' id m w f w1 :
  backend_wf (w_backend w) ->
  get_file_part fuel url id m w = Ok (Some f, w1) ->
  exists f' w2, get_file_part fuel' url' id m w1 = Ok (Some f', w2) /\
    gf_name f' = gf_name f /\ uploads (w_log w2) = uploads (w_log w1).
Proof.
  intros Hwf H. pose proof (get_file_part_supported _ _ _ _ _ _ _ H) as Hs.
  destruct (get_file_part_post _ _ _ _ _ _ _ Hwf H) as (Hc & Hst & _ & Hv).
  rewrite get_file_part_unfold by done.
  rewrite (st_bind_step _ _ _ _ _ (lookup_cached_hit _ _ _ _ Hc Hst)).
  rewrite (st_bind_step _ _ _ (advance f) _ eq_refl).
  assert (Hv' : py_in_str "video" m = true -> gf_state (advance f) <> PROCESSING).
  { intros Hvid. by rewrite advance_not_processing; apply Hv. }
  rewrite (st_bind_step _ _ _ (advance f) _ (wait_if_video_done _ _ _ _ Hv')).
  eexists _, _. split; [reflexivity |]. simpl. split; [apply advance_name |].
  by rewrite uploads_snoc_other.
Qed.

(** A miss, or a handle the service no longer has: the lookup finds
    nothing and uploads nothing. *)
Lemma lookup_cached_none id w :
  (w_cache w !! id = None \/
   exists name, w_cache w !! id = Some name /\ b_files (w_backend w) !! name = None) ->
  exists w1, lookup_cached id w = Ok (None, w1) /\ quiet w w1.
Proof.
  intros [Hc | (name & Hc & Hb)].
  - exists w. split; [by apply lookup_cached_miss | apply quiet_refl].
  - eexists. split; [by apply lookup_cached_expired |].
    eapply quiet_trans; [apply (quiet_log w (EGetFile name)); done | apply quiet_set_cache].
Qed.

(** C31. A miss, or a cached handle the service no longer has
    (evicted): the Slack file is downloaded and uploaded exactly once, as
    a fresh Gemini file whose content is what Slack served at the URL,
    and the cache now maps the id to it. A video needs as much fuel as
    the service takes to process it. *)
Theorem get_file_part_reupload fuel url id m w :
  backend_wf (w_backend w) ->
  py_in_list m SUPPORTED_MIME_TYPES = true ->
  (w_cache w !! id = None \/
   exists name, w_cache w !! id = Some name /\ b_files (w_backend w) !! name = None) ->
  (py_in_str "video" m = true ->
   (b_profile (w_backend w) m).1 <= fuel /\ (b_profile (w_backend w) m).2 <> PROCESSING) ->
  exists f w', get_file_part fuel url id m w = Ok (Some f, w') /\
    uploads (w_log w') = S (uploads (w_log w)) /\
    gf_name f = fresh_name (b_next (w_backend w)) /\
    w_cache w' !! id = Some (gf_name f) /\
    gf_content f = download (w_slack w) url /\
    (py_in_str "video" m = true -> gf_state f = (b_profile (w_backend w) m).2).
Proof.
  intros Hwf Hs Hmiss Hvid.
  destruct (lookup_cached_none id w Hmiss) as (w1 & Hl & Hq).
  destruct Hq as (Hu1 & Hsl1 & Hn1 & Hp1 & _).
  rewrite get_file_part_unfold by done. rewrite (st_bind_step _ _ _ _ _ Hl).
  rewrite (st_bind_step _ _ _ _ _ (fetch_and_upload_spec url id m w1)).
  set (nf := new_file _ _ id m). set (w2 := after_upload _ id nf).
  assert (exists f' w3, wait_if_video fuel m nf w2 = Ok (f', w3)) as (f' & w3 & Hw).
  { unfold wait_if_video. destruct (py_in_str "video" m) eqn:Ev; [| by eexists _, _].
    destruct (Hvid eq_refl) as [Hle Hfin]. simpl in Hp1. rewrite <- Hp1 in Hle, Hfin.
    apply poll_processing_terminates; [apply after_upload_stored | |].
    - subst nf. by rewrite new_file_final.
    - intros Hproc. subst nf. pose proof (new_file_pending _ _ _ _ Hfin Hproc). lia. }
  destruct (wait_if_video_spec _ _ _ _ _ _ (after_upload_stored _ _ _) Hw)
    as (_ & Hn3 & Hct3 & _ & (Hu3 & _) & _).
  rewrite (st_bind_step _ _ _ _ _ Hw).
  eexists _, _. split; [reflexivity |]. simpl. split_and!.
  - rewrite Hu3. subst w2. simpl. rewrite uploads_snoc_upload, uploads_snoc_other by done. lia.
  - rewrite Hn3. subst nf. rewrite new_file_name. simpl. by rewrite Hn1.
  - apply lookup_insert_eq.
  - rewrite Hct3. subst nf. rewrite new_file_content. simpl. by rewrite Hsl1.
  - intros Ev. unfold wait_if_video in Hw. rewrite Ev in Hw.
    rewrite (poll_processing_final _ _ _ _ _ (after_upload_stored _ _ _) (new_file_consistent _ _ _ _) Hw).
    subst nf. rewrite new_file_final. simpl. by rewrite Hp1.
Qed.

(** C37. The wait for a video has no bound: when the service never
    finishes processing an upload, [get_file_part] does not return,
    whatever the fuel (the Python [while] loop runs forever). *)
Theorem get_file_part_video_never_ready fuel url id m w :
  py_in_list m SUPPORTED_MIME_TYPES = true -> py_in_str "video" m = true ->
  w_cache w !! id = None ->
  (b_profile (w_backend w) m).1 <> 0 -> (b_profile (w_backend w) m).2 = PROCESSING ->
  st_raises (get_file_part fuel url id m) w OutOfFuel.
Proof.
  intros Hs Hv Hc Hd Hfin. unfold st_raises.
  rewrite get_file_part_unfold by done. rewrite (st_bind_step _ _ _ _ _ (lookup_cached_miss _ _ Hc)).
  rewrite (st_bind_step _ _ _ _ _ (fetch_and_upload_spec url id m w)).
  apply st_raises_bind_l. unfold wait_if_video. rewrite Hv.
  apply poll_processing_diverges; [apply after_upload_stored | |];
    unfold new_file; simpl; destruct (b_profile (w_backend w) m) as [d fin]; simpl in *;
    [rewrite decide_False |]; done.
Qed.

(** On the accepted list, the substring ["video"] of the MIME type is
    its top-level type ["video/"]. *)
Lemma video_substring_supported m :
  py_in_list m SUPPORTED_MIME_TYPES = true -> py_in_str "video" m = String.prefix "video/" m.
Proof.
  unfold py_in_list. intros (x & Hx & Heq)%existsb_exists.
  apply String.eqb_eq in Heq as <-. by repeat destruct Hx as [<- | Hx].
Qed.

(** C35. The wait test is the media type: for every MIME type
    [get_file_part] accepts, [wait_if_video]'s substring test
    [if "video" in mimetype] polls exactly the types whose top-level
    type is [video/] and returns the others as uploaded. *)
Theorem wait_if_video_media_type fuel m f :
  py_in_list m SUPPORTED_MIME_TYPES = true ->
  wait_if_video fuel m f =
  if String.prefix "video/" m then poll_processing fuel f else st_ret f.
Proof. intros Hs. unfold wait_if_video. by rewrite video_substring_supported. Qed.

End MediaCache.

(** ** Concrete runs *)

Module MediaCacheExamples.
Import MediaCache.

(** The service processes an mp4 for two polls, fails a webm after one,
    never finishes a 3gpp, and serves other types at once. *)
Definition profile (m : string) : nat * FileState :=
  if String.eqb m "video/mp4" then (2, ACTIVE)
  else if String.eqb m "video/webm" then (1, FAILED)
  else if String.eqb m "video/3gpp" then (1, PROCESSING)
  else (0, ACTIVE).

Definition backend0 : Backend := {| b_files := ∅; b_next := 0%N; b_profile := profile |}.

Definition slack0 : SlackServer :=
  {| sl_files := <["https://files.slack.com/F1" := BBytes "png"]>
                   (<["https://files.slack.com/F2" := BBytes "mp4"]> ∅);
     sl_threads := ∅; sl_posts := [] |}.

Definition world0 : World := {| w_cache := ∅; w_backend := backend0; w_slack := slack0; w_log := [] |}.

(** The service issued "files/0" to "files/7" and has deleted them all;
    "files/7" is still cached for F1. *)
Definition world_expired : World :=
  {| w_cache := {[ "F1" := "files/7" ]};
     w_backend := {| b_files := ∅; b_next := 8%N; b_profile := profile |};
     w_slack := slack0; w_log := [] |}.

(** A service holding one upload, "files/0", of the Slack file F1. *)
Definition png0 : GFile :=
  {| gf_name := "files/0"; gf_display_name := "F1"; gf_mime := "image/png"; gf_state := ACTIVE;
     gf_pending := 0; gf_final := ACTIVE; gf_content := BBytes "png" |}.
Definition backend1 : Backend := {| b_files := {[ "files/0" := png0 ]}; b_next := 1%N; b_profile := profile |}.

Lemma backend0_wf : backend_wf backend0.
Proof. intros name f. simpl. by rewrite lookup_empty. Qed.

Lemma get_file_part_unsupported_witness :
  get_file_part 3 "https://files.slack.com/F9" "F9" "application/zip" world0 = Ok (None, world0).
Proof. apply get_file_part_unsupported. reflexivity. Defined.

Lemma get_file_part_spec_witness :
  match get_file_part 5 "https://files.slack.com/F2" "F2" "video/mp4" world0 with
  | Ok (Some f, w') =>
      w_cache w' !! "F2" = Some (gf_name f) /\ stored w' f /\ backend_wf (w_backend w') /\
      (py_in_str "video" "video/mp4" = true -> gf_state f <> PROCESSING)
  | _ => False
  end.
Proof.
  destruct (get_file_part 5 "https://files.slack.com/F2" "F2" "video/mp4" world0)
    as [[[f|] w']|e] eqn:E; [| vm_compute in E; discriminate ..].
  exact (get_file_part_spec 5 _ _ _ world0 f w' backend0_wf E).
Defined.

(** The second resolve reuses "files/0" and polls nothing: fuel 0. *)
Lemma get_file_part_idempotent_witness :
  match get_file_part 5 "https://files.slack.com/F2" "F2" "video/mp4" world0 with
  | Ok (Some f, w1) =>
      exists f' w2, get_file_part 0 "https://files.slack.com/other" "F2" "video/mp4" w1 = Ok (Some f', w2) /\
        gf_name f' = gf_name f /\ uploads (w_log w2) = uploads (w_log w1)
  | _ => False
  end.
Proof.
  destruct (get_file_part 5 "https://files.slack.com/F2" "F2" "video/mp4" world0)
    as [[[f|] w1]|e] eqn:E; [| vm_compute in E; discriminate ..].
  exact (get_file_part_idempotent 5 0 _ _ _ _ world0 f w1 backend0_wf E).
Defined.

(** A webm whose URL Slack does not serve: the error page is uploaded,
    the service fails it, and the failed file is returned as a part. *)
Lemma get_file_part_reupload_witness :
  exists f w', get_file_part 1 "https://files.slack.com/missing" "F3" "video/webm" world0 = Ok (Some f, w') /\
    uploads (w_log w') = 1 /\ gf_content f = BNotFound /\ gf_state f = FAILED.
Proof.
  destruct (get_file_part_reupload 1 "https://files.slack.com/missing" "F3" "video/webm" world0
              backend0_wf eq_refl (or_introl eq_refl))
    as (f & w' & E & Hu & _ & _ & Hc & Hv).
  - intros _. split; [constructor | discriminate].
  - exists f, w'. split_and!; [exact E | exact Hu | exact Hc | exact (Hv eq_refl)].
Defined.

(** Evicted: "files/7" is cached for F1 but gone; F1 is uploaded again
    under the next name. *)
Lemma get_file_part_evicted_example :
  match get_file_part 0 "https://files.slack.com/F1" "F1" "image/png" world_expired with
  | Ok (Some f, w') => gf_name f = "files/8" /\ w_log w' = [EGetFile "files/7"; EFetch "https://files.slack.com/F1"; EUpload "F1"]
  | _ => False
  end.
Proof. vm_compute. split; reflexivity. Qed.

(** An mp4 takes two polls: fuel 2 is enough. *)
Lemma get_file_part_terminates_witness :
  exists r w', get_file_part 2 "https://files.slack.com/F2" "F2" "video/mp4" world0 = Ok (r, w').
Proof.
  apply get_file_part_terminates; [exact backend0_wf |].
  split; [intros name f; simpl; by rewrite lookup_empty | vm_compute; split; [discriminate | lia]].
Defined.

Lemma backend1_wf : backend_wf backend1.
Proof.
  intros name f. simpl. rewrite lookup_singleton_Some. intros [<- <-].
  split; [done |]. exists 0%N. split; [reflexivity | lia].
Qed.

Lemma cache_wf_world0 : cache_wf world0.
Proof. intros id name. simpl. by rewrite lookup_empty. Qed.

Lemma get_file_part_cache_wf_witness :
  cache_wf (st_final (get_file_part 5 "https://files.slack.com/F1" "F1" "image/png" world_expired)) /\
  backend_wf (w_backend (st_final (get_file_part 5 "https://files.slack.com/F1" "F1" "image/png" world_expired))).
Proof.
  apply get_file_part_cache_wf.
  - intros name f. simpl. by rewrite lookup_empty.
  - intros id name. simpl. rewrite lookup_singleton_Some. intros [_ <-]. exists 7%N. split; [reflexivity | lia].
Defined.

Example init_cache_backend1 : init_cache backend1 !! "F1" = Some "files/0".
Proof. reflexivity. Qed.

Lemma init_cache_spec_witness :
  (forall id name, init_cache backend1 !! id = Some name ->
     exists f, b_files backend1 !! name = Some f /\ gf_display_name f = id) /\
  cache_wf {| w_cache := init_cache backend1; w_backend := backend1; w_slack := slack0; w_log := [] |}.
Proof. apply init_cache_spec. exact backend1_wf. Defined.

Lemma get_file_part_video_never_ready_witness :
  st_raises (get_file_part 1000 "https://files.slack.com/F4" "F4" "video/3gpp") world0 OutOfFuel.
Proof. apply get_file_part_video_never_ready; try reflexivity. discriminate. Defined.

Lemma wait_if_video_media_type_witness :
  py_in_list "video/webm" SUPPORTED_MIME_TYPES = true /\
  wait_if_video 3 "video/webm" png0 = poll_processing 3 png0.
Proof. split; [reflexivity | exact (wait_if_video_media_type 3 "video/webm" png0 eq_refl)]. Defined.

End MediaCacheExamples.
