(* ===== verification/Thread.v ===== *)
(** * Thread reconstruction: [get_thread_messages] (app_mention.py:127-154)

    The thread's messages are walked oldest first. A message is a
    [model] turn when it has a [bot_profile], a [user] turn otherwise.
    Each attached file named [function_call.json] is read with
    [get_function_call_history] and its contents are appended to the
    running list of turns right away, before the message's own turn; any
    other file goes through [get_file_part] and, when a file comes back,
    becomes a part of the message. The message's text, when there is a
    ["text"] key, comes last. The last turn is the new message, the others
    the history ([*history, message = thread_messages], which raises
    [ValueError] on an empty list). [get_thread_messages_uploads] bounds
    the uploads of a reconstruction by the number of attached files
    ([file_count]). [media_of] relates a message's attachments to the
    files the successive [get_file_part] calls return, trace artifacts
    being read instead. *)

From stdpp Require Import base list sets gmap strings.
From S2P Require Import Prelude Python Json Services HistoryDecoder MediaCache.
Import Genai Slack Decoder MediaCache.

Module Thread.

(** [role = "model" if "bot_profile" in slack_message else "user"] *)
Definition role_of (m : SlackMessage) : Json :=
  if sm_bot_profile m then JStr "model" else JStr "user".

(** The body of [for file in slack_message["files"]] (lines 136-146),
    threading [thread_messages] and the message's [parts]. *)
Definition process_file (fuel : nat) (acc : list Content * list Part) (file : SlackFile)
  : M (list Content * list Part) :=
  let '(thread_messages, parts) := acc in
  if String.eqb (sf_name file) "function_call.json" then
    h <- get_function_call_history (sf_url file) ;;
    st_ret (thread_messages ++ h, parts)
  else
    fp <- get_file_part fuel (sf_url file) (sf_id file) (sf_mimetype file) ;;
    st_ret (thread_messages, match fp with Some f => parts ++ [PFile f] | None => parts end).

(** The body of [for slack_message in response["messages"]] (lines 132-151). *)
Definition process_message (fuel : nat) (thread_messages : list Content) (m : SlackMessage)
  : M (list Content) :=
  r <- (match sm_files m with
        | Some files => st_fold (process_file fuel) files (thread_messages, [])
        | None => st_ret (thread_messages, [])
        end) ;;
  let '(thread_messages, parts) := r in
  let parts := match sm_text m with Some t => parts ++ [PText t] | None => parts end in
  st_ret (thread_messages ++ [{| c_role := role_of m; c_parts := parts |}]).

(** [*history, message = thread_messages] *)
Definition split_last {A} (l : list A) : option (list A * A) :=
  match rev l with
  | [] => None
  | x :: r => Some (rev r, x)
  end.

(** [get_thread_messages(client, channel, thread_ts)] *)
Definition get_thread_messages (fuel : nat) (channel thread_ts : string) : M (Content * list Content) :=
  messages <- slack_replies channel thread_ts ;;
  thread_messages <- st_fold (process_message fuel) messages [] ;;
  match split_last thread_messages with
  | None => st_throw (ValueError NotEnoughValuesToUnpack)
  | Some (history, message) => st_ret (message, history)
  end.

(** How many turns the trace artifacts of a list of files contribute:
    one per item of each parsed artifact. *)
Definition artifact_turns (s : SlackServer) (files : list SlackFile) : nat :=
  sum_list_with (fun file =>
    if String.eqb (sf_name file) "function_call.json" then
      match json_loads (download s (sf_url file)) with
      | Ok doc => match py_iter doc with Ok l => length l | Err _ => 0 end
      | Err _ => 0
      end
    else 0) files.

Definition message_artifact_turns (s : SlackServer) (m : SlackMessage) : nat :=
  match sm_files m with Some fs => artifact_turns s fs | None => 0 end.

Definition text_parts (m : SlackMessage) : list Part :=
  match sm_text m with Some t => [PText t] | None => [] end.

(** Reconstruction only reads Slack. *)
Lemma get_thread_messages_silent fuel ch ts : st_preserves silent (get_thread_messages fuel ch ts).
Proof.
  unfold get_thread_messages, process_message, process_file, get_function_call_history.
  st_preserves_tac; auto using get_file_part_silent with agent.
Qed.

(** Reconstruction keeps the cache and service invariant. *)
Lemma get_thread_messages_keeps_wf fuel ch ts : st_preserves keeps_wf (get_thread_messages fuel ch ts).
Proof.
  unfold get_thread_messages, process_message, process_file, get_function_call_history.
  st_preserves_tac; auto using get_file_part_keeps_wf, grows_keeps_wf with agent.
Qed.

(** ** Shape of the reconstruction *)

(** The files of one message processed in order (lines 136-146): a
    trace artifact is fetched and decoded by [get_function_call_history],
    any other file goes through [get_file_part]; [fps] are the files
    [get_file_part] returned, in order, each call starting from the
    state the previous one left. *)
Inductive media_of (fuel : nat) : list SlackFile -> World -> list GFile -> World -> Prop :=
| media_nil w : media_of fuel [] w [] w
| media_artifact f fs w h w1 gs w2 :
    String.eqb (sf_name f) "function_call.json" = true ->
    get_function_call_history (sf_url f) w = Ok (h, w1) ->
    media_of fuel fs w1 gs w2 -> media_of fuel (f :: fs) w gs w2
| media_some f fs w w1 g gs w2 :
    String.eqb (sf_name f) "function_call.json" = false ->
    get_file_part fuel (sf_url f) (sf_id f) (sf_mimetype f) w = Ok (Some g, w1) ->
    media_of fuel fs w1 gs w2 -> media_of fuel (f :: fs) w (g :: gs) w2
| media_none f fs w w1 gs w2 :
    String.eqb (sf_name f) "function_call.json" = false ->
    get_file_part fuel (sf_url f) (sf_id f) (sf_mimetype f) w = Ok (None, w1) ->
    media_of fuel fs w1 gs w2 -> media_of fuel (f :: fs) w gs w2.

Lemma process_file_shape fuel tm ps file w tm' ps' w' :
  process_file fuel (tm, ps) file w = Ok ((tm', ps'), w') ->
  exists sp fps, tm' = tm ++ sp /\ ps' = ps ++ map PFile fps /\
    length sp = artifact_turns (w_slack w) [file] /\ w_slack w' = w_slack w /\
    (forall fs gs w2, media_of fuel fs w' gs w2 -> media_of fuel (file :: fs) w (fps ++ gs) w2).
Proof.
  unfold process_file, artifact_turns. simpl. destruct (String.eqb (sf_name file) _) eqn:En.
  - intros H. apply st_bind_Ok in H as (h & w1 & Hh & H). injection H as <- <- <-.
    destruct (get_function_call_history_spec _ _ _ _ Hh) as (Hw & doc & l & Hj & Hi & Hl).
    exists h, []. rewrite Hj, Hi, app_nil_r. split_and!; [done | done | lia | by rewrite Hw |].
    intros fs gs w2 Hm. by eapply media_artifact.
  - intros H. apply st_bind_Ok in H as (fp & w1 & Hf & H). injection H as <- <- <-.
    pose proof (proj1 (st_preserves_Ok (get_file_part_silent _ _ _ _) Hf)) as Hs.
    exists [], (match fp with Some f => [f] | None => [] end).
    rewrite app_nil_r. split_and!; [done | by destruct fp; rewrite ?app_nil_r | done | done |].
    intros fs gs w2 Hm. destruct fp as [g|]; [by eapply media_some | by eapply media_none].
Qed.

Lemma process_files_shape fuel files tm ps w tm' ps' w' :
  st_fold (process_file fuel) files (tm, ps) w = Ok ((tm', ps'), w') ->
  exists sp fps, tm' = tm ++ sp /\ ps' = ps ++ map PFile fps /\
    length sp = artifact_turns (w_slack w) files /\ w_slack w' = w_slack w /\
    media_of fuel files w fps w'.
Proof.
  revert tm ps w. induction files as [|file files IH]; intros tm ps w; simpl.
  - intros [= <- <- <-]. exists [], []. rewrite !app_nil_r. split_and!; try done. constructor.
  - intros H. apply st_bind_Ok in H as ([tm1 ps1] & w1 & H1 & H2).
    destruct (process_file_shape _ _ _ _ _ _ _ _ H1) as (sp1 & fps1 & -> & -> & Hl1 & Hs1 & Hm1).
    destruct (IH _ _ _ H2) as (sp2 & fps2 & -> & -> & Hl2 & Hs2 & Hm2).
    exists (sp1 ++ sp2), (fps1 ++ fps2). rewrite !app_assoc, map_app, app_assoc.
    split_and!; try done; [| congruence | by apply Hm1].
    rewrite length_app, Hl1, Hl2, Hs1. unfold artifact_turns. simpl. lia.
Qed.

(** A message adds the turns of its trace artifacts, then its own turn:
    its resolved media first, its text last. *)
Lemma process_message_shape fuel tm m w tm' w' :
  process_message fuel tm m w = Ok (tm', w') ->
  exists sp fps, tm' = tm ++ sp ++ [{| c_role := role_of m; c_parts := map PFile fps ++ text_parts m |}] /\
    length sp = message_artifact_turns (w_slack w) m /\ w_slack w' = w_slack w /\
    media_of fuel (default [] (sm_files m)) w fps w'.
Proof.
  unfold process_message, message_artifact_turns, text_parts.
  intros H. apply st_bind_Ok in H as ([tm1 ps1] & w1 & H1 & H2).
  assert (exists sp fps, tm1 = tm ++ sp /\ ps1 = map PFile fps /\
            length sp = match sm_files m with Some fs => artifact_turns (w_slack w) fs | None => 0 end /\
            w_slack w1 = w_slack w /\ media_of fuel (default [] (sm_files m)) w fps w1)
    as (sp & fps & -> & -> & Hl & Hs & Hm).
  { destruct (sm_files m) as [fs|].
    - destruct (process_files_shape _ _ _ _ _ _ _ _ H1) as (sp & fps & Htm & Hps & Hl & Hs & Hm).
      exists sp, fps. by split_and!.
    - injection H1 as <- <- <-. exists [], []. rewrite app_nil_r. split_and!; try done. constructor. }
  injection H2 as <- <-. exists sp, fps. rewrite <- app_assoc.
  split_and!; [| done | done | done]. by destruct (sm_text m); rewrite ?app_nil_r.
Qed.

Lemma process_messages_shape fuel msgs tm w tm' w' :
  st_fold (process_message fuel) msgs tm w = Ok (tm', w') ->
  length tm' = length tm + length msgs + sum_list_with (message_artifact_turns (w_slack w)) msgs /\
  w_slack w' = w_slack w /\
  (msgs <> [] -> exists m fps, last msgs = Some m /\
     last tm' = Some {| c_role := role_of m; c_parts := map PFile fps ++ text_parts m |}).
Proof.
  revert tm w. induction msgs as [|m msgs IH]; intros tm w; simpl.
  - intros [= <- <-]. split_and!; [lia | done | done].
  - intros H. apply st_bind_Ok in H as (tm1 & w1 & H1 & H2).
    destruct (process_message_shape _ _ _ _ _ _ H1) as (sp & fps & -> & Hl & Hs & _).
    destruct (IH _ _ H2) as (Hlen & Hs2 & Hlast). rewrite Hs in Hlen, Hs2.
    split_and!; [rewrite Hlen, !length_app; simpl; lia | done |].
    intros _. destruct msgs as [|m' msgs'].
    + simpl in H2. injection H2 as <- <-. exists m, fps.
      split; [done | by rewrite app_assoc, last_snoc].
    + by apply Hlast.
Qed.

Lemma split_last_Some {A} (l h : list A) x : split_last l = Some (h, x) -> l = h ++ [x].
Proof.
  unfold split_last. destruct (rev l) as [|y r] eqn:E; [done |]. intros [= <- <-].
  rewrite <- (rev_involutive l), E. simpl. done.
Qed.

Lemma split_last_None {A} (l : list A) : split_last l = None -> l = [].
Proof.
  unfold split_last. destruct (rev l) eqn:E; [| done]. intros _.
  destruct l as [|y l]; [done |]. simpl in E. by destruct (rev l).
Qed.

(** [get_thread_messages] once the replies are fetched. *)
Lemma get_thread_messages_unfold fuel ch ts w msgs :
  replies (w_slack w) ch ts = Ok msgs ->
  get_thread_messages fuel ch ts w =
  st_bind (st_fold (process_message fuel) msgs []) (fun tm =>
    match split_last tm with
    | None => st_throw (ValueError NotEnoughValuesToUnpack)
    | Some (history, message) => st_ret (message, history)
    end) (log (EReplies ch ts) w).
Proof. intros H. unfold get_thread_messages, slack_replies. st_simpl. by rewrite H. Qed.

Lemma get_thread_messages_ok fuel ch ts w msgs msg hist w' :
  replies (w_slack w) ch ts = Ok msgs ->
  get_thread_messages fuel ch ts w = Ok ((msg, hist), w') ->
  exists tm w1, st_fold (process_message fuel) msgs [] (log (EReplies ch ts) w) = Ok (tm, w1) /\
    tm = hist ++ [msg] /\ w' = w1.
Proof.
  intros Hr. rewrite (get_thread_messages_unfold _ _ _ _ _ Hr).
  intros H. apply st_bind_Ok in H as (tm & w1 & H1 & H2).
  destruct (split_last tm) as [[h x]|] eqn:Hs; [| done]. injection H2 as <- <- <-.
  exists tm, w1. split_and!; [done | by apply split_last_Some | done].
Qed.

(** C23. Turn count: the history has one turn per Slack message but
    the last, plus one per item of every [function_call.json] artifact
    of the thread; it is [N - 1] only for a thread without artifacts. *)
Theorem get_thread_messages_length fuel ch ts w msgs msg hist w' :
  replies (w_slack w) ch ts = Ok msgs ->
  get_thread_messages fuel ch ts w = Ok ((msg, hist), w') ->
  length hist + 1 = length msgs + sum_list_with (message_artifact_turns (w_slack w)) msgs.
Proof.
  intros Hr H. destruct (get_thread_messages_ok _ _ _ _ _ _ _ _ Hr H) as (tm & w1 & Hf & -> & _).
  destruct (process_messages_shape _ _ _ _ _ _ Hf) as [Hl _].
  rewrite length_app in Hl. simpl in Hl. lia.
Qed.

(** C24. The new message is the last Slack message's own turn: the
    role from its author, then the files [get_file_part] returned for
    its attachments (in order, trace artifacts going to the history
    instead), then its text. The attachments are resolved from the
    state the earlier messages of the thread left, and the state they
    leave is the state the rebuild ends in. *)
Theorem get_thread_messages_message fuel ch ts w pre m msg hist w' :
  replies (w_slack w) ch ts = Ok (pre ++ [m]) ->
  get_thread_messages fuel ch ts w = Ok ((msg, hist), w') ->
  exists tm w0 fps,
    st_fold (process_message fuel) pre [] (log (EReplies ch ts) w) = Ok (tm, w0) /\
    media_of fuel (default [] (sm_files m)) w0 fps w' /\
    msg = {| c_role := role_of m; c_parts := map PFile fps ++ text_parts m |}.
Proof.
  intros Hr H. destruct (get_thread_messages_ok _ _ _ _ _ _ _ _ Hr H) as (tm' & w1 & Hf & Htm & ->).
  rewrite st_fold_app in Hf. apply st_bind_Ok in Hf as (tm & w0 & Hpre & Hm).
  simpl in Hm. apply st_bind_Ok in Hm as (tm1 & w2 & Hm & [= <- <-]).
  destruct (process_message_shape _ _ _ _ _ _ Hm) as (sp & fps & -> & _ & _ & Hmed).
  exists tm, w0, fps. split_and!; [done | done |].
  rewrite app_assoc in Htm. by apply app_inj_tail in Htm as [_ <-].
Qed.

(** C26. An empty thread raises [ValueError] at
    [*history, message = thread_messages], after the one Slack call and
    nothing else. *)
Theorem get_thread_messages_empty fuel ch ts w :
  replies (w_slack w) ch ts = Ok [] ->
  get_thread_messages fuel ch ts w = Err (ValueError NotEnoughValuesToUnpack, log (EReplies ch ts) w).
Proof. intros Hr. by rewrite (get_thread_messages_unfold _ _ _ _ _ Hr). Qed.

(** Messages without files only add their own turn. *)
Lemma process_messages_no_files fuel pre tm w :
  Forall (fun m => sm_files m = None) pre ->
  st_fold (process_message fuel) pre tm w =
  Ok (tm ++ map (fun m => {| c_role := role_of m; c_parts := text_parts m |}) pre, w).
Proof.
  revert tm. induction pre as [|m pre IH]; intros tm Hall; simpl; [by rewrite app_nil_r |].
  inversion Hall as [|? ? Hm Hall']; subst.
  unfold process_message at 1. st_simpl. rewrite Hm. simpl.
  rewrite IH by done. rewrite <- app_assoc. unfold text_parts.
  by destruct (sm_text m).
Qed.

(** A thread holding, after file-less messages, a message whose first
    file is a trace artifact the handler wrote cannot be reconstructed. *)
Lemma get_thread_messages_artifact_error fuel ch ts w pre m post f fs tr :
  replies (w_slack w) ch ts = Ok (pre ++ m :: post) ->
  Forall (fun m => sm_files m = None) pre ->
  sm_files m = Some (f :: fs) -> sf_name f = "function_call.json" ->
  download (w_slack w) (sf_url f) = BBytes (json_dumps (Trace.encode_trace tr)) -> tr <> [] ->
  get_thread_messages fuel ch ts w = Err (KeyError "parts", log (EFetch (sf_url f)) (log (EReplies ch ts) w)).
Proof.
  intros Hr Hpre Hm Hf Hd Htr. rewrite (get_thread_messages_unfold _ _ _ _ _ Hr).
  apply st_bind_err. rewrite st_fold_app. unfold st_bind at 1.
  rewrite process_messages_no_files by done. simpl. unfold st_bind at 1.
  unfold process_message at 1. unfold st_bind at 1. rewrite Hm. simpl.
  unfold process_file at 1. rewrite Hf. simpl.
  unfold get_function_call_history, requests_get. st_simpl. rewrite Hd, json_loads_bytes_dumps.
  simpl. by rewrite decode_trace_artifact_error.
Qed.

(** ** How many uploads a reconstruction makes *)

(** The number of files a Slack message carries. *)
Definition file_count (m : SlackMessage) : nat :=
  match sm_files m with Some fs => length fs | None => 0 end.

Lemma process_file_uploads fuel acc file : log_bound is_upload 1 (process_file fuel acc file).
Proof.
  unfold process_file. destruct acc as [tm ps]. destruct (String.eqb _ _).
  - apply (log_bound_mono _ 0); [lia |]. unfold get_function_call_history. log_bound0.
  - apply (log_bound_bind _ 1 0); [apply get_file_part_uploads | intros; apply log_bound_ret].
Qed.

Lemma process_message_uploads fuel tm m : log_bound is_upload (file_count m) (process_message fuel tm m).
Proof.
  unfold process_message, file_count. rewrite <- (Nat.add_0_r (match sm_files m with _ => _ end)).
  apply log_bound_bind; [destruct (sm_files m) as [fs|]; [| apply log_bound_ret] | intros [tm' ps]; apply log_bound_ret].
  rewrite <- sum_list_with_one. by apply log_bound_fold, process_file_uploads.
Qed.

(** Rebuilding a thread uploads at most one file per attachment of its
    messages. *)
Lemma get_thread_messages_uploads fuel ch ts w :
  exists l, w_log (st_final (get_thread_messages fuel ch ts w)) = w_log w ++ l /\
    count is_upload l <= match replies (w_slack w) ch ts with Ok msgs => sum_list_with file_count msgs | Err _ => 0 end.
Proof.
  destruct (replies (w_slack w) ch ts) as [msgs|e] eqn:Hr.
  - rewrite (get_thread_messages_unfold _ _ _ _ _ Hr).
    set (k := fun tm : list Content => match split_last tm with
      | None => st_throw (ValueError NotEnoughValuesToUnpack)
      | Some (history, message) => st_ret (message, history) end : M (Content * list Content)).
    destruct (log_bound_bind_at is_upload (sum_list_with file_count msgs) 0
      (st_fold (process_message fuel) msgs []) k (log (EReplies ch ts) w))
      as (l & Hl & Hc); [exact (log_bound_fold is_upload file_count _ msgs [] (process_message_uploads fuel) _) | intros; unfold k; log_bound0 |].
    exists (EReplies ch ts :: l). rewrite Hl. simpl. rewrite <- app_assoc. split; [done |].
    unfold count in *. simpl. lia.
  - exists [EReplies ch ts]. unfold get_thread_messages, slack_replies, st_bind. rewrite Hr. by split.
Qed.

End Thread.

(** ** Concrete runs *)

Module ThreadExamples.
Import Thread MediaCacheExamples.

Definition trace_file : SlackFile :=
  {| sf_id := "F10"; sf_name := "function_call.json"; sf_mimetype := "application/json";
     sf_url := "https://files.slack.com/trace" |}.
Definition image_file : SlackFile :=
  {| sf_id := "F1"; sf_name := "photo.png"; sf_mimetype := "image/png";
     sf_url := "https://files.slack.com/F1" |}.

(** An artifact in the format the reader accepts: a call and its response. *)
Definition artifact : Json :=
  encode_history
    [{| c_role := JStr "model"; c_parts := [PFunctionCall "get_current_weather" [("city", JStr "Tokyo")]] |};
     {| c_role := JStr "user"; c_parts := [PFunctionResponse "get_current_weather" [("result", JStr "sunny")]] |}].

Definition thread_pre : list SlackMessage :=
  [ {| sm_bot_profile := false; sm_text := Some "<@U1> weather in Tokyo?"; sm_files := None |};
    {| sm_bot_profile := true; sm_text := Some "It is sunny."; sm_files := Some [trace_file] |} ].

Definition thread_last : SlackMessage :=
  {| sm_bot_profile := false; sm_text := Some "<@U1> and this one?"; sm_files := Some [image_file] |}.

Definition thread_msgs : list SlackMessage := thread_pre ++ [thread_last].

Definition slack1 : SlackServer :=
  {| sl_files := <["https://files.slack.com/trace" := BBytes (json_dumps artifact)]> (sl_files slack0);
     sl_threads := <[("C1", "100") := thread_msgs]> (<[("C1", "200") := []]> ∅);
     sl_posts := [] |}.

Definition world1 : World := {| w_cache := ∅; w_backend := backend0; w_slack := slack1; w_log := [] |}.

(** Three Slack messages, one artifact of two items: four history turns. *)
Example get_thread_messages_world1 :
  match get_thread_messages 3 "C1" "100" world1 with
  | Ok ((msg, hist), _) => length hist = 4 /\ c_role msg = JStr "user"
  | Err _ => False
  end.
Proof. vm_compute. split; reflexivity. Qed.

Lemma get_thread_messages_length_witness :
  match get_thread_messages 3 "C1" "100" world1 with
  | Ok ((msg, hist), w') => length hist + 1 = 3 + 2
  | Err _ => False
  end.
Proof.
  destruct (get_thread_messages 3 "C1" "100" world1) as [[[msg hist] w']|e] eqn:E;
    [| vm_compute in E; discriminate].
  exact (get_thread_messages_length 3 "C1" "100" world1 thread_msgs msg hist w' eq_refl E).
Defined.

Lemma get_thread_messages_message_witness :
  replies slack1 "C1" "100" = Ok (thread_pre ++ [thread_last]) /\
  match get_thread_messages 3 "C1" "100" world1 with
  | Ok ((msg, hist), w') =>
      exists tm w0 fps,
        st_fold (process_message 3) thread_pre [] (log (EReplies "C1" "100") world1) = Ok (tm, w0) /\
        media_of 3 [image_file] w0 fps w' /\
        msg = {| c_role := JStr "user"; c_parts := map PFile fps ++ [PText "<@U1> and this one?"] |}
  | Err _ => False
  end.
Proof.
  assert (Hr : replies slack1 "C1" "100" = Ok (thread_pre ++ [thread_last])) by reflexivity.
  split; [exact Hr |].
  destruct (get_thread_messages 3 "C1" "100" world1) as [[[msg hist] w']|e] eqn:E;
    [| vm_compute in E; discriminate].
  exact (get_thread_messages_message 3 "C1" "100" world1 thread_pre thread_last msg hist w' Hr E).
Defined.

Lemma get_thread_messages_empty_witness :
  get_thread_messages 3 "C1" "200" world1 = Err (ValueError NotEnoughValuesToUnpack, log (EReplies "C1" "200") world1).
Proof. apply get_thread_messages_empty. reflexivity. Defined.

End ThreadExamples.
