(* ===== verification/Orchestrator.v ===== *)
(** * The turn orchestrator: the body of [event_fun]
      (app_mention.py:156-227)

    [event_fun] acknowledges the event, builds the message (from the
    thread with [get_thread_messages], or from the event's text and files
    when the mention is not in a thread), opens a chat with the history
    and sends the message. Then, while the response has function-call
    parts, it calls every requested tool through the registry, keeping the
    results in a dict keyed by tool name (a name called twice keeps its
    first position and its last result), appends a [function_call]
    record per call and a [function_response] record per dict entry to
    the trace, and sends one [FunctionResponse] part per dict entry. The
    final text is the first part of the first candidate; it is posted
    with [say], or, when the trace is not empty, as the comment of an
    uploaded [function_call.json] holding the trace.

    The orchestrator is written against the interfaces it uses: a
    [ChatModel] (the Gemini chat, a black box) and a [ToolDispatch] (the
    registry). The loop, unbounded in the code, takes fuel: one unit per
    round of tool calls.

    [OStep] is the state machine of the design (Sending, Inspecting,
    Executing, Done, Failed); [tool_loop] is shown to refine it. The
    handler's theorems cover the order of its effects, the state
    invariant (on every run, those that raise included), the reply, the
    error of an unregistered tool, a failing turn's silence towards Slack,
    and the number of uploads a turn makes ([attachment_count]).
    [trace_paired] says that a trace pairs calls and responses by tool
    name in both directions; [resolves] relates the attachments of an
    event to the files the successive [get_file_part] calls return.
    [scripted_chat] is a chat model that answers from a list of responses
    and records what it was sent; it drives the termination theorem and
    the examples. *)

From stdpp Require Import base list sets gmap strings.
From S2P Require Import Prelude Python Json Registry Services HistoryDecoder MediaCache Thread.
Import Genai Slack Trace MediaCache Thread.

(** Fuel of the two unbounded loops of the handler. *)
Record Fuel : Type := { poll_fuel : nat; loop_fuel : nat }.

Section Orchestrator.
Context {R : Type} `{!ToolDispatch R} {Sess : Type}.
Variable chat : ChatModel Sess.
Variable reg : R.

(** [[part for part in response.parts if part.function_call]], with the
    name and arguments of each call. *)
Definition function_calls (ps : list Part) : list (string * list (string * Json)) :=
  omap (fun p => match p with PFunctionCall n a => Some (n, a) | _ => None end) ps.

(** Lines 183-194: call every requested tool, in order. *)
Fixpoint execute_calls (calls : list (string * list (string * Json)))
    (function_responses : pydict string Json) (trace : list TraceRecord)
  : pyres (pydict string Json * list TraceRecord) :=
  match calls with
  | [] => Ok (function_responses, trace)
  | (name, args) :: rest =>
      let? v := dispatch reg name args in
      execute_calls rest (pd_set name v function_responses) (trace ++ [RCall name args])
  end.

(** Lines 196-205: one [FunctionResponse] part per dict entry. *)
Definition function_response_parts (function_responses : pydict string Json) : list Part :=
  map (fun nv => PFunctionResponse nv.1 [("result", nv.2)]) function_responses.

(** Lines 207-213: one [function_response] record per dict entry. *)
Definition response_records (function_responses : pydict string Json) : list TraceRecord :=
  map (fun nv => RResponse nv.1 nv.2) function_responses.

(** Lines 181-215: the [while] loop. *)
Fixpoint tool_loop (fuel : nat) (sess : Sess) (response : Response) (trace : list TraceRecord)
  : pyres (Response * Sess * list TraceRecord) :=
  let? parts := resp_parts response in
  match function_calls parts with
  | [] => Ok (response, sess, trace)
  | calls =>
      match fuel with
      | 0 => Err OutOfFuel
      | S fuel' =>
          let? rt := execute_calls calls [] trace in
          let trace := rt.2 ++ response_records rt.1 in
          let? rs := send_message chat sess (SendParts (function_response_parts rt.1)) in
          tool_loop fuel' rs.2 rs.1 trace
      end
  end.

(** Lines 166-175: the message of a mention that is not in a thread:
    its text first, then its resolved files. *)
Definition event_message (fuel : nat) (ev : Event) : M (list Part) :=
  text <- st_lift (match ev_text ev with Some t => Ok t | None => Err (KeyError "text") end) ;;
  st_fold (fun message file =>
             fp <- get_file_part fuel (sf_url file) (sf_id file) (sf_mimetype file) ;;
             st_ret (match fp with Some f => message ++ [PFile f] | None => message end))
          (default [] (ev_files ev)) [PText text].

(** Lines 163-175: message and history. *)
Definition build_message (fuel : nat) (ev : Event) : M (SendInput * option (list Content)) :=
  match ev_thread_ts ev with
  | Some thread_ts =>
      mh <- get_thread_messages fuel (ev_channel ev) thread_ts ;;
      st_ret (SendContent mh.1, Some mh.2)
  | None =>
      message <- event_message fuel ev ;;
      st_ret (SendParts message, None)
  end.

(** Lines 218-227: the reply: [files_upload_v2] of the trace when it is
    not empty, [say] otherwise. *)
Definition reply_post (ev : Event) (text : string) (trace : list TraceRecord) : Post :=
  match trace with
  | [] => Say text (ev_channel ev) (ev_ts ev)
  | _ => FilesUpload "function_call.json" (json_dumps (encode_trace trace)) (ev_channel ev) text (ev_ts ev)
  end.

Definition reply (ev : Event) (text : string) (trace : list TraceRecord) : M unit :=
  slack_post (reply_post ev text trace).

(** [event_fun(ack, say, body, client)] *)
Definition event_fun (fuel : Fuel) (ev : Event) : M unit :=
  slack_ack ;;
  mh <- build_message (poll_fuel fuel) ev ;;
  let sess := start_chat chat mh.2 in
  rs <- st_lift (send_message chat sess mh.1) ;;
  final <- st_lift (tool_loop (loop_fuel fuel) rs.2 rs.1 []) ;;
  text <- st_lift (resp_text final.1.1) ;;
  reply ev text final.2.

End Orchestrator.

(** ** Building the message *)

Lemma build_message_silent fuel ev : st_preserves silent (build_message fuel ev).
Proof.
  unfold build_message, event_message. st_preserves_tac;
    auto using get_thread_messages_silent, get_file_part_silent with agent.
Qed.

Lemma build_message_keeps_wf fuel ev : st_preserves keeps_wf (build_message fuel ev).
Proof.
  unfold build_message, event_message. st_preserves_tac;
    auto using get_thread_messages_keeps_wf, get_file_part_keeps_wf with agent.
Qed.

(** The attachments of a message resolved in order, each by one
    [get_file_part] from the state the previous one left: [fps] are the
    files it returned, an unsupported type ([None]) contributing none. *)
Inductive resolves (fuel : nat) : list SlackFile -> World -> list GFile -> World -> Prop :=
| resolves_nil w : resolves fuel [] w [] w
| resolves_some f fs w w1 g gs w2 :
    get_file_part fuel (sf_url f) (sf_id f) (sf_mimetype f) w = Ok (Some g, w1) ->
    resolves fuel fs w1 gs w2 -> resolves fuel (f :: fs) w (g :: gs) w2
| resolves_none f fs w w1 gs w2 :
    get_file_part fuel (sf_url f) (sf_id f) (sf_mimetype f) w = Ok (None, w1) ->
    resolves fuel fs w1 gs w2 -> resolves fuel (f :: fs) w gs w2.

(** The loop of lines 169-175 appends the resolved files in order. *)
Lemma event_files_resolve fuel files acc w ps w' :
  st_fold (fun message file =>
             fp <- get_file_part fuel (sf_url file) (sf_id file) (sf_mimetype file) ;;
             st_ret (match fp with Some f => message ++ [PFile f] | None => message end))
          files acc w = Ok (ps, w') ->
  exists fps, ps = acc ++ map PFile fps /\ resolves fuel files w fps w'.
Proof.
  revert acc w. induction files as [|file files IH]; intros acc w H; simpl in H.
  - injection H as <- <-. exists []. split; [by rewrite app_nil_r | constructor].
  - apply st_bind_Ok in H as (acc' & w1 & H1 & H2). apply st_bind_Ok in H1 as (fp & w2 & Hg & H1).
    injection H1 as <- <-. destruct (IH _ _ H2) as (fps & -> & Hr). destruct fp as [f|].
    + exists (f :: fps). rewrite <- app_assoc. split; [done |]. by econstructor.
    + exists fps. split; [done |]. by econstructor.
Qed.

(** Outside a thread the message is the event's text, then its resolved
    files. *)
Lemma event_message_resolves fuel ev w ps w' :
  event_message fuel ev w = Ok (ps, w') ->
  exists t fps, ev_text ev = Some t /\ resolves fuel (default [] (ev_files ev)) w fps w' /\
    ps = PText t :: map PFile fps.
Proof.
  unfold event_message. destruct (ev_text ev) as [t|]; [| done]. st_simpl.
  intros H. destruct (event_files_resolve _ _ _ _ _ _ H) as (fps & -> & Hr). eauto.
Qed.

(** ** One round of tool calls *)

(** ** Uploads of a turn *)

(** The attachments a turn reads: the files of every message of the
    thread, or the files of the event outside a thread. *)
Definition attachment_count (ev : Event) (w : World) : nat :=
  match ev_thread_ts ev with
  | Some ts =>
      match replies (w_slack w) (ev_channel ev) ts with
      | Ok msgs => sum_list_with file_count msgs
      | Err _ => 0
      end
  | None => length (default [] (ev_files ev))
  end.

Lemma event_message_uploads fuel ev :
  log_bound is_upload (length (default [] (ev_files ev))) (event_message fuel ev).
Proof.
  unfold event_message. apply (log_bound_bind _ 0 (length (default [] (ev_files ev)))); [log_bound0 | intros t].
  rewrite <- sum_list_with_one. apply log_bound_fold. intros acc file.
  apply (log_bound_bind _ 1 0); [apply get_file_part_uploads | intros; apply log_bound_ret].
Qed.

Lemma build_message_uploads fuel ev w :
  exists l, w_log (st_final (build_message fuel ev w)) = w_log w ++ l /\
    count is_upload l <= attachment_count ev w.
Proof.
  unfold build_message, attachment_count. destruct (ev_thread_ts ev) as [ts|].
  - apply log_bound_bind_at0; [apply get_thread_messages_uploads | intros; log_bound0].
  - apply log_bound_bind_at0; [apply event_message_uploads | intros; log_bound0].
Qed.

Section Rounds.
Context {R : Type} `{!ToolDispatch R}.
Variable reg : R.

Definition call_records (calls : list (string * list (string * Json))) : list TraceRecord :=
  map (fun c => RCall c.1 c.2) calls.

Definition dispatch_ok (c : string * list (string * Json)) : Prop :=
  exists v, dispatch reg c.1 c.2 = Ok v.

(** A round appends one [function_call] record per call, in order; the
    dict's keys are the called names in order of first call. *)
Lemma execute_calls_spec calls d tr d' tr' :
  execute_calls reg calls d tr = Ok (d', tr') ->
  tr' = tr ++ call_records calls /\ pd_keys d' = fold_left add_key (map fst calls) (pd_keys d).
Proof.
  revert d tr. induction calls as [|[n a] calls IH]; intros d tr; simpl.
  - intros [= <- <-]. by rewrite app_nil_r.
  - destruct (dispatch reg n a) as [v|e]; simpl; [| done].
    intros H. destruct (IH _ _ H) as [-> ->]. rewrite pd_keys_set, <- app_assoc. done.
Qed.

Lemma execute_calls_ok calls d tr :
  Forall dispatch_ok calls -> exists d' tr', execute_calls reg calls d tr = Ok (d', tr').
Proof.
  revert d tr. induction calls as [|[n a] calls IH]; intros d tr Hall; simpl; [eauto |].
  inversion Hall as [|? ? [v Hv] Hrest]; subst. simpl in Hv. rewrite Hv. simpl. by apply IH.
Qed.

(** The first tool that raises aborts the round with its exception. *)
Lemma execute_calls_err pre n a post d tr e :
  Forall dispatch_ok pre -> dispatch reg n a = Err e ->
  execute_calls reg (pre ++ (n, a) :: post) d tr = Err e.
Proof.
  revert d tr. induction pre as [|[n' a'] pre IH]; intros d tr Hall He; simpl.
  - by rewrite He.
  - inversion Hall as [|? ? [v Hv] Hrest]; subst. simpl in Hv. rewrite Hv. simpl. by apply IH.
Qed.

(** Calls of other names leave an entry alone. *)
Lemma execute_calls_keep post n v d tr d' tr' :
  n ∉ map fst post -> pd_get n d = Some v ->
  execute_calls reg post d tr = Ok (d', tr') -> pd_get n d' = Some v.
Proof.
  revert d tr. induction post as [|[m b] post IH]; intros d tr Hpost Hd; simpl.
  - by intros [= <- _].
  - simpl in Hpost. rewrite not_elem_of_cons in Hpost. destruct Hpost as [Hne Hpost].
    destruct (dispatch reg m b) as [w|e]; simpl; [| done].
    apply IH; [done |]. by rewrite pd_get_set_ne.
Qed.

(** C13. Last write wins: after a round, the dict of
    results (one [FunctionResponse] part and one response record per
    entry) holds, for each tool name, the result of the last call with
    that name; earlier results of the same tool are dropped. *)
Theorem execute_calls_last pre n a post d tr d' tr' :
  n ∉ map fst post ->
  execute_calls reg (pre ++ (n, a) :: post) d tr = Ok (d', tr') ->
  exists v, dispatch reg n a = Ok v /\ pd_get n d' = Some v.
Proof.
  intros Hpost. revert d tr. induction pre as [|[n' a'] pre IH]; intros d tr; simpl.
  - destruct (dispatch reg n a) as [v|e]; simpl; [| done]. intros H. exists v.
    split; [done |]. eapply execute_calls_keep; [done | apply pd_get_set_eq | exact H].
  - destruct (dispatch reg n' a'); simpl; [apply IH | done].
Qed.

(** A round's records, calls then responses. *)
Lemma round_records calls tr d tr' :
  execute_calls reg calls [] tr = Ok (d, tr') ->
  tr' ++ response_records d = tr ++ call_records calls ++ response_records d /\
  map (fun r => match r with RResponse n _ => n | RCall n _ => n end) (response_records d) =
    fold_left add_key (map fst calls) [].
Proof.
  intros H. destruct (execute_calls_spec _ _ _ _ _ H) as [-> Hk]. split; [by rewrite <- app_assoc |].
  simpl in Hk. rewrite <- Hk. unfold response_records, pd_keys. rewrite map_map. done.
Qed.

(** C12. A round of tool calls adds one record per call and one
    per distinct tool name; this is twice the number of calls exactly
    when the names of the round are pairwise distinct. *)
Theorem round_trace_length calls tr d tr' :
  execute_calls reg calls [] tr = Ok (d, tr') ->
  length (tr' ++ response_records d) =
    length tr + length calls + length (fold_left add_key (map fst calls) []) /\
  (length (tr' ++ response_records d) = length tr + 2 * length calls <-> NoDup (map fst calls)).
Proof.
  intros H. destruct (round_records _ _ _ _ H) as [-> Hk].
  assert (length (response_records d) = length (fold_left add_key (map fst calls) [])) as Hl
    by (rewrite <- Hk; by rewrite length_map).
  rewrite !length_app, Hl. unfold call_records. rewrite length_map. split; [lia |].
  split.
  - intros Heq. destruct (decide (NoDup (map fst calls))) as [Hnd | Hnd]; [done |].
    pose proof (add_keys_dup [] (map fst calls) (NoDup_nil_2) Hnd) as Hlt.
    rewrite length_map in Hlt. simpl in Hlt. lia.
  - intros Hnd. rewrite (add_keys_distinct [] (map fst calls)) by done. simpl.
    rewrite length_map. lia.
Qed.

Definition record_name (r : TraceRecord) : string :=
  match r with RCall n _ => n | RResponse n _ => n end.

(** Every [function_call] record is followed by a [function_response]
    record for the same tool. *)
Definition trace_complete (tr : list TraceRecord) : Prop :=
  forall i n a, tr !! i = Some (RCall n a) -> exists j v, i < j /\ tr !! j = Some (RResponse n v).

Lemma response_records_lookup d k r :
  response_records d !! k = Some r -> exists n v, r = RResponse n v.
Proof.
  unfold response_records. intros Hk. apply list_elem_of_lookup_2 in Hk.
  apply list_elem_of_In, in_map_iff in Hk as ([n v] & <- & _). by exists n, v.
Qed.

Lemma round_complete calls tr d tr' :
  trace_complete tr -> execute_calls reg calls [] tr = Ok (d, tr') ->
  trace_complete (tr' ++ response_records d).
Proof.
  intros Hc H. destruct (round_records _ _ _ _ H) as [-> Hk]. intros i n a Hi.
  destruct (decide (i < length tr)) as [Hlt | Hge].
  - rewrite lookup_app_l in Hi by done. destruct (Hc _ _ _ Hi) as (j & v & Hij & Hj).
    exists j, v. split; [done |]. rewrite lookup_app_l; [done |]. by eapply lookup_lt_Some.
  - rewrite lookup_app_r in Hi by lia.
    destruct (decide (i - length tr < length (call_records calls))) as [Hlt2 | Hge2].
    + rewrite lookup_app_l in Hi by done.
      assert (n ∈ map fst calls) as Hn.
      { unfold call_records in Hi. apply list_elem_of_lookup_2 in Hi.
        apply list_elem_of_In, in_map_iff in Hi as ([n' a'] & Heq & Hin).
        simpl in Heq. injection Heq as -> ->.
        apply list_elem_of_In, in_map_iff. by exists (n, a). }
      assert (n ∈ map record_name (response_records d)) as Hn'.
      { change (map _ (response_records d)) with (map record_name (response_records d)) in Hk.
        rewrite Hk, elem_of_add_keys. by right. }
      apply list_elem_of_lookup in Hn' as [k Hk'].
      rewrite list_lookup_fmap in Hk'.
      destruct (response_records d !! k) as [r|] eqn:Er; [| done]. injection Hk' as Hname.
      destruct (response_records_lookup _ _ _ Er) as (n' & v & ->). simpl in Hname. subst n'.
      exists (length tr + length (call_records calls) + k), v. split; [lia |].
      rewrite lookup_app_r by lia. rewrite lookup_app_r by lia.
      by replace (length tr + length (call_records calls) + k - length tr - length (call_records calls)) with k by lia.
    + rewrite lookup_app_r in Hi by lia.
      destruct (response_records_lookup _ _ _ Hi) as (? & ? & ?). done.
Qed.

(** Every [function_response] record is preceded by a
    [function_call] record for the same tool. *)
Definition responses_called (tr : list TraceRecord) : Prop :=
  forall j n v, tr !! j = Some (RResponse n v) -> exists i a, i < j /\ tr !! i = Some (RCall n a).

(** Both directions: calls and responses are paired by name. *)
Definition trace_paired (tr : list TraceRecord) : Prop :=
  trace_complete tr /\ responses_called tr.

Lemma call_records_lookup calls k r :
  call_records calls !! k = Some r -> exists n a, r = RCall n a.
Proof.
  unfold call_records. rewrite list_lookup_fmap. destruct (calls !! k) as [[n a]|]; [| done].
  intros [= <-]. by exists n, a.
Qed.

Lemma call_records_name calls n :
  n ∈ map fst calls -> exists k a, call_records calls !! k = Some (RCall n a).
Proof.
  intros Hn. apply list_elem_of_lookup in Hn as [k Hk]. rewrite list_lookup_fmap in Hk.
  destruct (calls !! k) as [[n' a]|] eqn:E; [| done]. injection Hk as <-.
  exists k, a. unfold call_records. by rewrite list_lookup_fmap, E.
Qed.

Lemma round_called calls tr d tr' :
  responses_called tr -> execute_calls reg calls [] tr = Ok (d, tr') ->
  responses_called (tr' ++ response_records d).
Proof.
  intros Hc H. destruct (round_records _ _ _ _ H) as [-> Hk]. intros j n v Hj.
  destruct (decide (j < length tr)) as [Hlt | Hge].
  - rewrite lookup_app_l in Hj by done. destruct (Hc _ _ _ Hj) as (i & a & Hij & Hi).
    exists i, a. split; [done |]. rewrite lookup_app_l; [done |]. by eapply lookup_lt_Some.
  - rewrite lookup_app_r in Hj by lia.
    destruct (decide (j - length tr < length (call_records calls))) as [Hlt2 | Hge2].
    + rewrite lookup_app_l in Hj by done.
      by destruct (call_records_lookup _ _ _ Hj) as (? & ? & ?).
    + rewrite lookup_app_r in Hj by lia.
      assert (n ∈ map record_name (response_records d)) as Hn.
      { apply list_elem_of_lookup. exists (j - length tr - length (call_records calls)).
        by rewrite list_lookup_fmap, Hj. }
      change (map _ (response_records d)) with (map record_name (response_records d)) in Hk.
      rewrite Hk, elem_of_add_keys in Hn. destruct Hn as [Hn | Hn]; [set_solver |].
      destruct (call_records_name _ _ Hn) as (k & a & Hka).
      exists (length tr + k), a. split; [apply lookup_lt_Some in Hka; lia |].
      rewrite lookup_app_r by lia. rewrite lookup_app_l by (apply lookup_lt_Some in Hka; lia).
      by replace (length tr + k - length tr) with k by lia.
Qed.

Lemma round_paired calls tr d tr' :
  trace_paired tr -> execute_calls reg calls [] tr = Ok (d, tr') ->
  trace_paired (tr' ++ response_records d).
Proof. intros [Hc Hr] H. split; [by eapply round_complete | by eapply round_called]. Qed.

End Rounds.

(** ** The state machine of the design, and the loop against it *)

Section Loop.
Context {R : Type} `{!ToolDispatch R} {Sess : Type}.
Variable chat : ChatModel Sess.
Variable reg : R.

Inductive OState : Type :=
| Sending (sess : Sess) (msg : SendInput) (trace : list TraceRecord)
| Inspecting (sess : Sess) (resp : Response) (trace : list TraceRecord)
| Executing (sess : Sess) (calls : list (string * list (string * Json))) (trace : list TraceRecord)
| Done (resp : Response) (sess : Sess) (trace : list TraceRecord)
| Failed (e : exn).

Inductive OStep : OState -> OState -> Prop :=
| os_send sess msg tr resp sess' :
    send_message chat sess msg = Ok (resp, sess') ->
    OStep (Sending sess msg tr) (Inspecting sess' resp tr)
| os_send_fail sess msg tr e :
    send_message chat sess msg = Err e -> OStep (Sending sess msg tr) (Failed e)
| os_done sess resp tr ps :
    resp_parts resp = Ok ps -> function_calls ps = [] ->
    OStep (Inspecting sess resp tr) (Done resp sess tr)
| os_calls sess resp tr ps :
    resp_parts resp = Ok ps -> function_calls ps <> [] ->
    OStep (Inspecting sess resp tr) (Executing sess (function_calls ps) tr)
| os_inspect_fail sess resp tr e :
    resp_parts resp = Err e -> OStep (Inspecting sess resp tr) (Failed e)
| os_exec sess calls tr d tr' :
    execute_calls reg calls [] tr = Ok (d, tr') ->
    OStep (Executing sess calls tr)
          (Sending sess (SendParts (function_response_parts d)) (tr' ++ response_records d))
| os_exec_fail sess calls tr e :
    execute_calls reg calls [] tr = Err e -> OStep (Executing sess calls tr) (Failed e).

(** The loop, entered at any state; fuel counts the rounds still allowed. *)
Definition run (fuel : nat) (s : OState) : pyres (Response * Sess * list TraceRecord) :=
  match s with
  | Sending sess msg tr =>
      let? rs := send_message chat sess msg in tool_loop chat reg fuel rs.2 rs.1 tr
  | Inspecting sess resp tr => tool_loop chat reg fuel sess resp tr
  | Executing sess calls tr =>
      let? rt := execute_calls reg calls [] tr in
      let? rs := send_message chat sess (SendParts (function_response_parts rt.1)) in
      tool_loop chat reg fuel rs.2 rs.1 (rt.2 ++ response_records rt.1)
  | Done resp sess tr => Ok (resp, sess, tr)
  | Failed e => Err e
  end.

Lemma ostep_deterministic s s1 s2 : OStep s s1 -> OStep s s2 -> s1 = s2.
Proof.
  intros H1 H2. inversion H1; subst; inversion H2; subst; congruence.
Qed.

(** Each transition is matched by the loop with at most one more round. *)
Lemma ostep_run s s' : OStep s s' -> forall f, exists f', run f' s = run f s'.
Proof.
  intros Hs f. inversion Hs as [sess msg tr resp sess' He | sess msg tr e He
    | sess resp tr ps Hp Hc | sess resp tr ps Hp Hc | sess resp tr e Hp
    | sess calls tr d tr' He | sess calls tr e He]; subst; simpl.
  - exists f. by rewrite He.
  - exists f. by rewrite He.
  - exists f. destruct f; simpl; rewrite Hp; simpl; by rewrite Hc.
  - exists (S f). simpl. rewrite Hp. simpl. by destruct (function_calls ps).
  - exists f. destruct f; simpl; by rewrite Hp.
  - exists f. by rewrite He.
  - exists f. by rewrite He.
Qed.

Lemma rtc_run s t : rtc OStep s t ->
  forall f, run f t <> Err OutOfFuel -> (forall t', ~ OStep t t') -> exists f', run f' s = run f t.
Proof.
  induction 1 as [s | s s1 t Hs Hrest IH]; intros f Hf Hterm; [by exists f |].
  destruct (IH f Hf Hterm) as [f1 Hf1]. destruct (ostep_run _ _ Hs f1) as [f2 Hf2].
  exists f2. congruence.
Qed.

(** One turn of the loop, written out. *)
Lemma tool_loop_eq fuel sess resp tr :
  tool_loop chat reg fuel sess resp tr =
  match resp_parts resp with
  | Err e => Err e
  | Ok ps =>
      match function_calls ps with
      | [] => Ok (resp, sess, tr)
      | calls =>
          match fuel with
          | 0 => Err OutOfFuel
          | S fuel' =>
              match execute_calls reg calls [] tr with
              | Err e => Err e
              | Ok (d, tr1) =>
                  match send_message chat sess (SendParts (function_response_parts d)) with
                  | Err e => Err e
                  | Ok (resp1, sess1) => tool_loop chat reg fuel' sess1 resp1 (tr1 ++ response_records d)
                  end
              end
          end
      end
  end.
Proof.
  destruct fuel; cbn [tool_loop]; unfold result_bind;
    destruct (resp_parts resp) as [ps|]; try done;
    destruct (function_calls ps) as [|c cs]; try done;
    destruct (execute_calls reg (c :: cs) [] tr) as [[d tr1]|]; try done; simpl;
    destruct (send_message chat sess _) as [[resp1 sess1]|]; done.
Qed.

(** What the loop returns is reached by the state machine: a final
    response in [Done], an exception in [Failed]. *)
Lemma tool_loop_sound fuel sess resp tr r :
  tool_loop chat reg fuel sess resp tr = r ->
  match r with
  | Ok (resp', sess', tr') => rtc OStep (Inspecting sess resp tr) (Done resp' sess' tr')
  | Err OutOfFuel => True
  | Err e => rtc OStep (Inspecting sess resp tr) (Failed e)
  end.
Proof.
  revert sess resp tr r. induction fuel as [|fuel IH]; intros sess resp tr r Hr;
    rewrite tool_loop_eq in Hr.
  all: destruct (resp_parts resp) as [ps|e] eqn:Hp;
    [| subst r; destruct e; try done; apply rtc_once; by constructor].
  all: destruct (function_calls ps) as [|c cs] eqn:Hc;
    [subst r; apply rtc_once; by econstructor | ].
  { by subst r. }
  assert (Hcall : OStep (Inspecting sess resp tr) (Executing sess (c :: cs) tr))
    by (rewrite <- Hc; apply (os_calls _ _ _ ps Hp); by rewrite Hc).
  destruct (execute_calls reg (c :: cs) [] tr) as [[d tr1]|e] eqn:He.
  2: { subst r. destruct e; try done; (eapply rtc_l; [exact Hcall | apply rtc_once; by constructor]). }
  assert (Hexec : OStep (Executing sess (c :: cs) tr)
                    (Sending sess (SendParts (function_response_parts d)) (tr1 ++ response_records d)))
    by by constructor.
  destruct (send_message chat sess (SendParts (function_response_parts d))) as [[resp1 sess1]|e] eqn:Hs.
  2: { subst r. destruct e; try done;
       (eapply rtc_l; [exact Hcall | eapply rtc_l; [exact Hexec | apply rtc_once; by constructor]]). }
  specialize (IH sess1 resp1 (tr1 ++ response_records d) r Hr).
  assert (Hpre : rtc OStep (Inspecting sess resp tr) (Inspecting sess1 resp1 (tr1 ++ response_records d))).
  { eapply rtc_l; [exact Hcall |]. eapply rtc_l; [exact Hexec |]. apply rtc_once. by constructor. }
  destruct r as [[[resp' sess'] tr']|[]]; try done; by eapply rtc_trans.
Qed.

Lemma done_final resp sess tr t : ~ OStep (Done resp sess tr) t.
Proof. inversion 1. Qed.

Lemma failed_final e t : ~ OStep (Failed e) t.
Proof. inversion 1. Qed.

(** C9. Refinement: the executable loop and the design's
    state machine agree on answers. The loop returns a final response
    exactly when the state machine, started on the first response, reaches
    [Done] with it (for some fuel: the number of tool rounds). *)
Theorem tool_loop_refines sess resp tr resp' sess' tr' :
  (exists fuel, tool_loop chat reg fuel sess resp tr = Ok (resp', sess', tr')) <->
  rtc OStep (Inspecting sess resp tr) (Done resp' sess' tr').
Proof.
  split.
  - intros [fuel H]. exact (tool_loop_sound _ _ _ _ _ H).
  - intros H. destruct (rtc_run _ _ H 0) as [f Hf]; [done | apply done_final |]. by exists f.
Qed.

(** C10. The same for exceptions: the loop raises [e]
    exactly when the state machine reaches [Failed e]. *)
Theorem tool_loop_refines_err sess resp tr e :
  e <> OutOfFuel ->
  (exists fuel, tool_loop chat reg fuel sess resp tr = Err e) <->
  rtc OStep (Inspecting sess resp tr) (Failed e).
Proof.
  intros He. split.
  - intros [fuel H]. pose proof (tool_loop_sound _ _ _ _ _ H) as Hs. by destruct e.
  - intros H. destruct (rtc_run _ _ H 0) as [f Hf]; [simpl; congruence | apply failed_final |].
    by exists f.
Qed.

(** A property of traces that every round keeps holds of the trace a
    completed loop returns. *)
Lemma tool_loop_trace_inv (P : list TraceRecord -> Prop) fuel sess resp tr resp' sess' tr' :
  (forall calls tr d tr', P tr -> execute_calls reg calls [] tr = Ok (d, tr') ->
     P (tr' ++ response_records d)) ->
  P tr -> tool_loop chat reg fuel sess resp tr = Ok (resp', sess', tr') -> P tr'.
Proof.
  intros Hround. revert sess resp tr. induction fuel as [|fuel IH]; intros sess resp tr Hc H;
    rewrite tool_loop_eq in H; destruct (resp_parts resp) as [ps|e]; try done;
    destruct (function_calls ps) as [|c cs]; try (by injection H as _ _ <-); try done.
  destruct (execute_calls reg (c :: cs) [] tr) as [[d tr1]|e] eqn:He; [| done].
  destruct (send_message chat sess _) as [[resp1 sess1]|e]; [| done].
  eapply IH; [| exact H]. by eapply Hround.
Qed.

Lemma trace_paired_nil : trace_paired [].
Proof. split; intros i n a Hi; by rewrite lookup_nil in Hi. Qed.

(** C14. The trace a turn accumulates pairs calls and responses by
    tool name in both directions: every [function_call] record is
    followed by a [function_response] record for the same tool, and
    every [function_response] record is preceded by a [function_call]
    record for the same tool (the invariant of the design's
    [ToolCallRecord]). *)
Theorem tool_loop_trace_complete fuel sess resp resp' sess' tr' :
  tool_loop chat reg fuel sess resp [] = Ok (resp', sess', tr') -> trace_paired tr'.
Proof.
  apply tool_loop_trace_inv; [intros ? ? ? ?; apply round_paired | apply trace_paired_nil].
Qed.

End Loop.

(** ** A scripted chat model *)

(** A stub for the Gemini chat: it answers with the responses of a script,
    in order, and records what it was sent. *)
Definition ScriptState : Type := (list Response * list SendInput)%type.

Definition scripted_chat (script : list Response) : ChatModel ScriptState :=
  {| start_chat := fun _ => (script, []);
     send_message := fun s m =>
       match s.1 with
       | r :: rs => Ok (r, (rs, s.2 ++ [m]))
       | [] => Err IndexError
       end |}.

Section Scripted.
Context {R : Type} `{!ToolDispatch R}.
Variable reg : R.
Variable script : list Response.

(** A response asking for tools that all answer. *)
Definition round_ok (r : Response) : Prop :=
  exists ps, resp_parts r = Ok ps /\ function_calls ps <> [] /\
    Forall (dispatch_ok reg) (function_calls ps).

(** A response without tool calls. *)
Definition final_ok (r : Response) : Prop :=
  exists ps, resp_parts r = Ok ps /\ function_calls ps = [].

(** C11. Termination against a stub that asks for tools
    [K = length rounds] times and then answers: the loop needs exactly
    [K] units of fuel, sends exactly [K] messages, and ends on the
    answer. *)
Theorem tool_loop_scripted rounds rf r0 rs fuel tr sent :
  Forall round_ok rounds -> final_ok rf -> rounds ++ [rf] = r0 :: rs ->
  (length rounds <= fuel ->
   exists tr' sent', tool_loop (scripted_chat script) reg fuel (rs, sent) r0 tr = Ok (rf, ([], sent'), tr') /\
     length sent' = length sent + length rounds) /\
  (fuel < length rounds -> tool_loop (scripted_chat script) reg fuel (rs, sent) r0 tr = Err OutOfFuel).
Proof.
  revert r0 rs fuel tr sent. induction rounds as [|r rounds IH]; intros r0 rs fuel tr sent Hall Hf Heq.
  - injection Heq as <- <-. destruct Hf as (ps & Hp & Hc).
    split; [| simpl; lia]. intros _. exists tr, sent. rewrite tool_loop_eq, Hp, Hc. split; [done | simpl; lia].
  - injection Heq as <- <-. inversion Hall as [|? ? (ps & Hp & Hne & Hok) Hall']; subst.
    destruct (execute_calls_ok reg (function_calls ps) [] tr Hok) as (d & tr1 & He).
    destruct (rounds ++ [rf]) as [|r1 rs'] eqn:Hrs'; [by destruct rounds |].
    rewrite tool_loop_eq, Hp. destruct (function_calls ps) as [|c cs] eqn:Hc; [done |].
    split.
    + intros Hle. destruct fuel as [|fuel]; [simpl in Hle; lia |]. rewrite He. simpl.
      destruct (proj1 (IH r1 rs' fuel (tr1 ++ response_records d)
                  (sent ++ [SendParts (function_response_parts d)]) Hall' Hf eq_refl))
        as (tr' & sent' & Hl & Hlen); [simpl in Hle; lia |].
      exists tr', sent'. split; [exact Hl |]. rewrite Hlen, length_app. simpl. lia.
    + intros Hlt. destruct fuel as [|fuel]; [done |]. rewrite He. simpl.
      apply (proj2 (IH r1 rs' fuel _ _ Hall' Hf eq_refl)). simpl in Hlt. lia.
Qed.

End Scripted.

(** ** The handler *)

Section Handler.
Context {R : Type} `{!ToolDispatch R} {Sess : Type}.
Variable chat : ChatModel Sess.
Variable reg : R.

Lemma event_fun_inv fuel ev w w' :
  event_fun chat reg fuel ev w = Ok (tt, w') ->
  exists mh w1 rs final text,
    build_message (poll_fuel fuel) ev (log EAck w) = Ok (mh, w1) /\
    send_message chat (start_chat chat mh.2) mh.1 = Ok rs /\
    tool_loop chat reg (loop_fuel fuel) rs.2 rs.1 [] = Ok final /\
    resp_text final.1.1 = Ok text /\
    w' = set_slack (log (EPost (reply_post ev text final.2)) w1)
           {| sl_files := sl_files (w_slack w1); sl_threads := sl_threads (w_slack w1);
              sl_posts := sl_posts (w_slack w1) ++ [reply_post ev text final.2] |}.
Proof.
  unfold event_fun, slack_ack. intros H.
  apply st_bind_Ok in H as ([] & w0 & [= <-] & H).
  apply st_bind_Ok in H as (mh & w1 & Hb & H).
  apply st_bind_Ok in H as (rs & w2 & Hs & H). unfold st_lift in Hs.
  destruct (send_message chat _ _) as [rs'|] eqn:Es; [injection Hs as -> -> | done].
  apply st_bind_Ok in H as (final & w3 & Hl & H). unfold st_lift in Hl.
  destruct (tool_loop _ _ _ _ _ _) as [final'|] eqn:El; [injection Hl as -> -> | done].
  apply st_bind_Ok in H as (text & w4 & Ht & H). unfold st_lift in Ht.
  destruct (resp_text _) as [text'|] eqn:Et; [injection Ht as -> -> | done].
  injection H as <-. eexists _, _, _, _, _. split_and!; [exact Hb | exact Es | exact El | exact Et | done].
Qed.

(** Every step of a turn keeps the state invariant. *)
Lemma event_fun_preserves_wf fuel ev : st_preserves keeps_wf (event_fun chat reg fuel ev).
Proof. unfold event_fun, reply. st_preserves_tac; auto using build_message_keeps_wf, grows_keeps_wf with agent. Qed.

(** C16. A turn keeps the invariant of the state, also when it raises
    (its effects stay in place then): the names the media cache holds are
    names the service issued, and the service's files are stored under
    their own names. *)
Theorem event_fun_keeps_wf fuel ev w :
  cache_wf w -> backend_wf (w_backend w) ->
  cache_wf (st_final (event_fun chat reg fuel ev w)) /\
  backend_wf (w_backend (st_final (event_fun chat reg fuel ev w))).
Proof. intros Hc Hb. exact (event_fun_preserves_wf fuel ev w (conj Hc Hb)). Qed.

(** C20. Upload bound: one turn, however it ends, uploads at most one
    file to the Gemini Files API per attachment it reads (the files of
    every message of the thread, or those of the event outside a
    thread); the rounds of the tool loop upload nothing. *)
Theorem event_fun_uploads fuel ev w :
  exists l, w_log (st_final (event_fun chat reg fuel ev w)) = w_log w ++ l /\
    count is_upload l <= attachment_count ev w.
Proof.
  unfold event_fun, st_bind at 1, slack_ack. cbv beta iota.
  apply log_bound_after; [done |].
  change (attachment_count ev w) with (attachment_count ev (log EAck w)).
  apply log_bound_bind_at0; [apply build_message_uploads | intros mh; unfold reply; log_bound0].
Qed.

(** C5. A turn that raises posts nothing: Slack is as it was, and every
    effect it logged is something other than a post. The exception
    reaches Bolt, which logs it; the user gets no answer. *)
Theorem event_fun_raises_silent fuel ev w e w' :
  event_fun chat reg fuel ev w = Err (e, w') ->
  w_slack w' = w_slack w /\
  exists l, w_log w' = w_log w ++ l /\ Forall (fun e => is_post e = false) l.
Proof.
  intros H.
  assert (Hp : st_preserves_err silent (event_fun chat reg fuel ev)).
  { unfold event_fun, reply.
    refine (@st_preserves_err_bind _ _ _ _ _ _ _ _ _ _); [intros w0; by apply silent_log | intros []].
    refine (@st_preserves_err_bind _ _ _ _ _ _ _ _ _ _); [apply build_message_silent | intros mh].
    do 3 (refine (@st_preserves_err_bind _ _ _ _ _ _ _ _ _ _); [st_preserves_tac | intros ?]).
    apply st_preserves_err_total. intros w0. by eexists _, _. }
  exact (Hp _ _ _ H).
Qed.

(** C15. A turn that completes acknowledges the event first and
    posts exactly one message, as its last effect; nothing between the
    two is a post. The message is [reply_post] of the answer: the text
    of the response the tool loop ends with, started from the model's
    answer to the built message, and the trace that loop accumulated
    ([say] when it is empty, otherwise [function_call.json] with the
    text as comment); in that trace calls and responses are paired. *)
Theorem event_fun_reply fuel ev w w' :
  event_fun chat reg fuel ev w = Ok (tt, w') ->
  exists mh w1 rs final text l,
    build_message (poll_fuel fuel) ev (log EAck w) = Ok (mh, w1) /\
    send_message chat (start_chat chat mh.2) mh.1 = Ok rs /\
    tool_loop chat reg (loop_fuel fuel) rs.2 rs.1 [] = Ok final /\
    resp_text final.1.1 = Ok text /\
    w_log w1 = w_log w ++ EAck :: l /\ Forall (fun e => is_post e = false) l /\
    w_log w' = w_log w1 ++ [EPost (reply_post ev text final.2)] /\
    sl_posts (w_slack w') = sl_posts (w_slack w) ++ [reply_post ev text final.2] /\
    trace_paired final.2.
Proof.
  intros H. destruct (event_fun_inv _ _ _ _ H) as (mh & w1 & rs & final & text & Hb & Hs & Hl & Ht & ->).
  destruct (st_preserves_Ok (build_message_silent _ _) Hb) as [Hsl (l & Hlog & Hf)].
  exists mh, w1, rs, final, text, l. split_and!; try done.
  - rewrite Hlog. simpl. by rewrite <- app_assoc.
  - simpl. by rewrite Hsl.
  - destruct final as [[r s] tr]. eapply (tool_loop_trace_inv chat reg); [| apply trace_paired_nil | exact Hl].
    intros ? ? ? ?; apply round_paired.
Qed.

(** C19. A mention outside a thread, with text only, whose
    first response calls no tool: the model's text is posted unchanged
    with [say] in the event's thread, and nothing else is posted. *)
Theorem event_fun_plain_answer fuel ev w t resp sess answer :
  ev_thread_ts ev = None -> ev_text ev = Some t -> ev_files ev = None ->
  send_message chat (start_chat chat None) (SendParts [PText t]) = Ok (resp, sess) ->
  final_ok resp -> resp_text resp = Ok answer ->
  exists w', event_fun chat reg fuel ev w = Ok (tt, w') /\
    sl_posts (w_slack w') = sl_posts (w_slack w) ++ [Say answer (ev_channel ev) (ev_ts ev)].
Proof.
  intros Hth Htext Hfiles Hsend (ps & Hp & Hc) Htxt.
  unfold event_fun, slack_ack, build_message, event_message.
  rewrite Hth. st_simpl. rewrite Htext, Hfiles. simpl. rewrite Hsend. simpl.
  rewrite tool_loop_eq, Hp, Hc. simpl. rewrite Htxt. simpl.
  eexists. split; [reflexivity | done].
Qed.

(** C25. Outside a thread the message sent is the event's text
    first and then the files [get_file_part] returns for the event's
    attachments, one per supported attachment and in their order, each
    resolved from the state the previous one left; no history is sent.
    This is the reverse of a thread message's order (files first, text
    last). *)
Theorem build_message_no_thread fuel ev w mh w' :
  ev_thread_ts ev = None -> build_message fuel ev w = Ok (mh, w') ->
  exists t fps, ev_text ev = Some t /\ resolves fuel (default [] (ev_files ev)) w fps w' /\
    mh = (SendParts (PText t :: map PFile fps), None).
Proof.
  intros Hth. unfold build_message. rewrite Hth. intros H.
  apply st_bind_Ok in H as (ps & w1 & Hm & [= <- <-]).
  destruct (event_message_resolves _ _ _ _ _ Hm) as (t & fps & Ht & Hr & ->). eauto.
Qed.

End Handler.

Section RegistryHandler.
Context {Sess : Type}.
Variable chat : ChatModel Sess.
Import Registry.

(** C18. A tool call whose name is not registered aborts the
    turn with [ValueError("Tool '<name>' not found.")]. The turn ends in
    the state it reached when the message was built: nothing is posted,
    and the uploads and cache entries made for the message stay. *)
Theorem event_fun_tool_not_found (reg : registry) fuel ev w mh w1 resp sess ps n a rest :
  build_message (poll_fuel fuel) ev (log EAck w) = Ok (mh, w1) ->
  send_message chat (start_chat chat mh.2) mh.1 = Ok (resp, sess) ->
  resp_parts resp = Ok ps -> function_calls ps = (n, a) :: rest ->
  n ∉ pd_keys reg -> 0 < loop_fuel fuel ->
  event_fun chat reg fuel ev w = Err (ValueError (ToolNotFound n), w1).
Proof.
  intros Hb Hs Hp Hc Hn Hf. unfold event_fun, slack_ack.
  rewrite (st_bind_step _ _ _ tt (log EAck w)) by done.
  rewrite (st_bind_step _ _ _ _ _ Hb). unfold st_lift at 1. st_simpl. rewrite Hs. simpl.
  destruct (loop_fuel fuel) as [|lf]; [lia |].
  rewrite tool_loop_eq, Hp, Hc. simpl.
  unfold dispatch, registry_dispatch, call_function. by rewrite (proj2 (pd_get_None n reg) Hn).
Qed.

End RegistryHandler.

(** ** Concrete runs *)

Module OrchestratorExamples.
Import Registry MediaCacheExamples.

Definition weather : Json :=
  JObj [("city", JStr "Tokyo"); ("weather", JStr "sunny"); ("temperature", JNum 30); ("unit", JStr "C")].

Definition weather_resp : Response :=
  {| candidates := [[PFunctionCall "get_current_weather" [("city", JStr "Tokyo")]]] |}.
Definition answer_resp : Response := {| candidates := [[PText "It is sunny in Tokyo."]] |}.
Definition unknown_resp : Response := {| candidates := [[PFunctionCall "get_time" []]] |}.

(** The same tool twice in one response. *)
Definition dup_calls : list (string * list (string * Json)) :=
  [("get_current_weather", [("city", JStr "Tokyo")]); ("get_current_weather", [("city", JStr "Osaka")])].

Definition ev0 : Event :=
  {| ev_channel := "C1"; ev_ts := "100"; ev_text := Some "<@U1> weather in Tokyo?";
     ev_files := None; ev_thread_ts := None |}.
Definition ev_image : Event :=
  {| ev_channel := "C1"; ev_ts := "101"; ev_text := Some "<@U1> what is this?";
     ev_files := Some [ThreadExamples.image_file]; ev_thread_ts := None |}.
Definition fuel0 : Fuel := {| poll_fuel := 5; loop_fuel := 5 |}.

(** Two calls of one tool: two call records, one response record (the
    first result is dropped). *)
Example round_duplicate_names :
  match execute_calls example_registry dup_calls [] [] with
  | Ok (d, tr) => length (tr ++ response_records d) = 3
  | Err _ => False
  end.
Proof. reflexivity. Qed.

Lemma round_trace_length_witness :
  match execute_calls example_registry dup_calls [] [] with
  | Ok (d, tr') =>
      length (tr' ++ response_records d) = 0 + 2 + 1 /\
      (length (tr' ++ response_records d) = 0 + 2 * 2 <-> NoDup (map fst dup_calls))
  | Err _ => False
  end.
Proof.
  destruct (execute_calls example_registry dup_calls [] []) as [[d tr']|e] eqn:E; [| discriminate].
  exact (round_trace_length example_registry dup_calls [] d tr' E).
Defined.

Lemma execute_calls_last_witness :
  match execute_calls example_registry dup_calls [] [] with
  | Ok (d, tr') =>
      exists v, dispatch example_registry "get_current_weather" [("city", JStr "Osaka")] = Ok v /\
        pd_get "get_current_weather" d = Some v
  | Err _ => False
  end.
Proof.
  destruct (execute_calls example_registry dup_calls [] []) as [[d tr']|e] eqn:E; [| discriminate].
  exact (execute_calls_last example_registry [("get_current_weather", [("city", JStr "Tokyo")])]
           "get_current_weather" [("city", JStr "Osaka")] [] [] [] d tr' (not_elem_of_nil _) E).
Defined.

Definition sess_after : ScriptState :=
  ([], [SendParts [PFunctionResponse "get_current_weather" [("result", weather)]]]).
Definition trace_after : list TraceRecord :=
  [RCall "get_current_weather" [("city", JStr "Tokyo")]; RResponse "get_current_weather" weather].

Lemma tool_loop_refines_witness :
  rtc (OStep (scripted_chat []) example_registry)
      (Inspecting ([answer_resp], []) weather_resp []) (Done answer_resp sess_after trace_after).
Proof. apply tool_loop_refines. exists 1. reflexivity. Defined.

Lemma tool_loop_refines_err_witness :
  rtc (OStep (scripted_chat []) example_registry)
      (Inspecting ([answer_resp], []) unknown_resp []) (Failed (ValueError (ToolNotFound "get_time"))).
Proof. apply tool_loop_refines_err; [discriminate |]. exists 1. reflexivity. Defined.

Lemma tool_loop_trace_complete_witness :
  match tool_loop (scripted_chat []) example_registry 3 ([answer_resp], []) weather_resp [] with
  | Ok (_, _, tr) => trace_paired tr
  | Err _ => False
  end.
Proof.
  destruct (tool_loop (scripted_chat []) example_registry 3 ([answer_resp], []) weather_resp [])
    as [[[r s] tr]|e] eqn:E; [| discriminate].
  exact (tool_loop_trace_complete (scripted_chat []) example_registry _ _ _ _ _ _ E).
Defined.

Lemma round_ok_weather : round_ok example_registry weather_resp.
Proof.
  exists [PFunctionCall "get_current_weather" [("city", JStr "Tokyo")]]. split_and!; [done | done |].
  repeat constructor. exists weather. reflexivity.
Qed.

(** Two tool rounds, then the answer: two units of fuel suffice, one does
    not. *)
Lemma tool_loop_scripted_witness :
  (2 <= 2 ->
   exists tr' sent', tool_loop (scripted_chat []) example_registry 2 ([weather_resp; answer_resp], []) weather_resp []
                     = Ok (answer_resp, ([], sent'), tr') /\ length sent' = 0 + 2) /\
  (2 < 2 -> tool_loop (scripted_chat []) example_registry 2 ([weather_resp; answer_resp], []) weather_resp []
            = Err OutOfFuel).
Proof.
  apply (tool_loop_scripted example_registry [] [weather_resp; weather_resp] answer_resp).
  - repeat constructor; apply round_ok_weather.
  - exists [PText "It is sunny in Tokyo."]. done.
  - reflexivity.
Defined.

Lemma event_fun_reply_witness :
  match event_fun (scripted_chat [weather_resp; answer_resp]) example_registry fuel0 ev0 world0 with
  | Ok (tt, w') =>
      exists mh w1 rs final text l,
        build_message (poll_fuel fuel0) ev0 (log EAck world0) = Ok (mh, w1) /\
        send_message (scripted_chat [weather_resp; answer_resp])
          (start_chat (scripted_chat [weather_resp; answer_resp]) mh.2) mh.1 = Ok rs /\
        tool_loop (scripted_chat [weather_resp; answer_resp]) example_registry (loop_fuel fuel0)
          rs.2 rs.1 [] = Ok final /\
        resp_text final.1.1 = Ok text /\
        w_log w1 = w_log world0 ++ EAck :: l /\ Forall (fun e => is_post e = false) l /\
        w_log w' = w_log w1 ++ [EPost (reply_post ev0 text final.2)] /\
        sl_posts (w_slack w') = sl_posts (w_slack world0) ++ [reply_post ev0 text final.2] /\
        trace_paired final.2
  | Err _ => False
  end.
Proof.
  destruct (event_fun (scripted_chat [weather_resp; answer_resp]) example_registry fuel0 ev0 world0)
    as [[[] w']|e] eqn:E; [| discriminate].
  exact (event_fun_reply _ _ _ _ _ _ E).
Defined.

(** Here the turn raises: the model asks for an unregistered tool after
    the image was uploaded and cached. *)
Lemma event_fun_keeps_wf_witness :
  cache_wf (st_final (event_fun (scripted_chat [unknown_resp]) example_registry fuel0 ev_image world0)) /\
  backend_wf (w_backend (st_final (event_fun (scripted_chat [unknown_resp]) example_registry fuel0 ev_image world0))).
Proof. exact (event_fun_keeps_wf _ _ _ _ _ cache_wf_world0 backend0_wf). Defined.

Lemma event_fun_raises_silent_witness :
  w_slack (log EAck world0) = w_slack world0 /\
  exists l, w_log (log EAck world0) = w_log world0 ++ l /\ Forall (fun e => is_post e = false) l.
Proof.
  apply (event_fun_raises_silent (scripted_chat [unknown_resp]) example_registry fuel0 ev0 world0
           (ValueError (ToolNotFound "get_time"))).
  vm_compute. reflexivity.
Defined.

Lemma event_fun_plain_answer_witness :
  exists w', event_fun (scripted_chat [answer_resp]) example_registry fuel0 ev0 world0 = Ok (tt, w') /\
    sl_posts (w_slack w') = sl_posts (w_slack world0) ++ [Say "It is sunny in Tokyo." "C1" "100"].
Proof.
  apply (event_fun_plain_answer (scripted_chat [answer_resp]) example_registry fuel0 ev0 world0
           "<@U1> weather in Tokyo?" answer_resp ([], [SendParts [PText "<@U1> weather in Tokyo?"]]));
    try reflexivity.
  exists [PText "It is sunny in Tokyo."]. done.
Defined.

Lemma build_message_no_thread_witness :
  match build_message 5 ev_image world0 with
  | Ok (mh, w') => exists t fps, ev_text ev_image = Some t /\
      resolves 5 (default [] (ev_files ev_image)) world0 fps w' /\
      mh = (SendParts (PText t :: map PFile fps), None)
  | Err _ => False
  end.
Proof.
  destruct (build_message 5 ev_image world0) as [[mh w']|e] eqn:E; [| vm_compute in E; discriminate].
  exact (build_message_no_thread 5 ev_image world0 mh w' eq_refl E).
Defined.

Lemma event_fun_tool_not_found_witness :
  event_fun (scripted_chat [unknown_resp]) example_registry fuel0 ev0 world0 =
  Err (ValueError (ToolNotFound "get_time"), log EAck world0).
Proof.
  apply (event_fun_tool_not_found (scripted_chat [unknown_resp]) example_registry fuel0 ev0 world0
           (SendParts [PText "<@U1> weather in Tokyo?"], None) (log EAck world0)
           unknown_resp ([], [SendParts [PText "<@U1> weather in Tokyo?"]])
           [PFunctionCall "get_time" []] "get_time" [] []); try reflexivity.
  - vm_compute. set_solver.
  - simpl. lia.
Defined.

End OrchestratorExamples.
