(* ===== verification/EndToEnd.v ===== *)
(** * Two mentions in one thread

    What Slack does with a post is not code of the repository: [deliver]
    models it. A [say] becomes a bot message of the thread; a
    [files_upload_v2] becomes a bot message carrying the uploaded file,
    whose [url_private_download] then serves the uploaded content. A new
    user message of the thread is added by [user_posts].

    The theorem of this file follows one mention that made the model call
    a tool, then a second mention in the same thread: the reply of the
    first turn is the trace artifact, the second turn reads it back while
    rebuilding the thread, and fails. *)

From stdpp Require Import base list sets gmap strings.
From S2P Require Import Prelude Python Json Registry Services HistoryDecoder MediaCache Thread Orchestrator.
Import Genai Slack Trace Thread.

(** The thread message a post becomes, with the file it uploads. *)
Definition post_message (p : Post) (file_id url : string) : SlackMessage * option (string * Blob) :=
  match p with
  | Say text _ _ => ({| sm_bot_profile := true; sm_text := Some text; sm_files := None |}, None)
  | FilesUpload name content _ comment _ =>
      ({| sm_bot_profile := true; sm_text := Some comment;
          sm_files := Some [{| sf_id := file_id; sf_name := name; sf_mimetype := "application/json";
                               sf_url := url |}] |},
       Some (url, BBytes content))
  end.

Definition post_thread (p : Post) : string * string :=
  match p with
  | Say _ ch ts => (ch, ts)
  | FilesUpload _ _ ch _ ts => (ch, ts)
  end.

(** Slack publishes a post in its thread. *)
Definition deliver (p : Post) (file_id url : string) (s : SlackServer) : SlackServer :=
  let '(m, file) := post_message p file_id url in
  {| sl_files := match file with Some (u, b) => <[u := b]> (sl_files s) | None => sl_files s end;
     sl_threads := alter (fun ms => ms ++ [m]) (post_thread p) (sl_threads s);
     sl_posts := sl_posts s |}.

(** A user writes in a thread. *)
Definition user_posts (ch ts : string) (m : SlackMessage) (s : SlackServer) : SlackServer :=
  {| sl_files := sl_files s; sl_threads := alter (fun ms => ms ++ [m]) (ch, ts) (sl_threads s);
     sl_posts := sl_posts s |}.

Lemma reply_post_files_upload ev text tr name content ch comment ts :
  reply_post ev text tr = FilesUpload name content ch comment ts ->
  tr <> [] /\ name = "function_call.json" /\ content = json_dumps (encode_trace tr) /\
  ch = ev_channel ev /\ ts = ev_ts ev.
Proof. unfold reply_post. destruct tr; [done |]. intros [= <- <- <- _ <-]. done. Qed.

Lemma reply_post_say ev text tr text' ch ts :
  reply_post ev text tr = Say text' ch ts ->
  tr = [] /\ text' = text /\ ch = ev_channel ev /\ ts = ev_ts ev.
Proof. unfold reply_post. destruct tr; [| done]. by intros [= <- <- <-]. Qed.

(** The thread of a reply, once Slack has published it and a user has
    written again. *)
Lemma replies_after_post p fid url s root m2 :
  sl_threads s !! post_thread p = Some [root] ->
  replies (user_posts (post_thread p).1 (post_thread p).2 m2 (deliver p fid url s))
    (post_thread p).1 (post_thread p).2 = Ok [root; (post_message p fid url).1; m2].
Proof.
  intros Hth. unfold replies, user_posts, deliver. destruct (post_message p fid url) as [m f].
  simpl. rewrite <- surjective_pairing, !lookup_alter_eq, Hth. reflexivity.
Qed.

Section TwoMentions.
Context {R : Type} `{!ToolDispatch R} {Sess : Type}.
Variable chat : ChatModel Sess.
Variable reg : R.

(** C1. A mention that made the model call a tool is answered with
    the trace artifact. Once Slack has published that reply, the next
    mention in the same thread (here a thread whose root is the first
    mention) raises [KeyError('parts')] while the thread is rebuilt:
    nothing is posted and the media cache is as it was, and every later
    mention in that thread fails the same way. *)
Theorem second_mention_fails fuel ev1 w w1 p root ev2 m2 fid url :
  event_fun chat reg fuel ev1 w = Ok (tt, w1) ->
  last (sl_posts (w_slack w1)) = Some p ->
  (exists name content ch comment ts, p = FilesUpload name content ch comment ts) ->
  sl_threads (w_slack w1) !! (ev_channel ev1, ev_ts ev1) = Some [root] -> sm_files root = None ->
  ev_channel ev2 = ev_channel ev1 -> ev_thread_ts ev2 = Some (ev_ts ev1) ->
  exists w2, event_fun chat reg fuel ev2
    (set_slack w1 (user_posts (ev_channel ev1) (ev_ts ev1) m2 (deliver p fid url (w_slack w1)))) =
  Err (KeyError "parts", w2) /\
  sl_posts (w_slack w2) = sl_posts (deliver p fid url (w_slack w1)) /\ w_cache w2 = w_cache w1.
Proof.
  intros H1 Hlast (name & content & ch & comment & ts & ->) Hth Hroot Hch Hts.
  destruct (event_fun_inv _ _ _ _ _ _ H1) as (mh & w0 & rs & final & text & _ & _ & _ & _ & Hw1).
  assert (Hp : reply_post ev1 text final.2 = FilesUpload name content ch comment ts).
  { rewrite Hw1 in Hlast. simpl in Hlast. rewrite last_snoc in Hlast. by injection Hlast. }
  destruct (reply_post_files_upload _ _ _ _ _ _ _ _ Hp) as (Htr & -> & -> & -> & ->).
  pose (file := {| sf_id := fid; sf_name := "function_call.json"; sf_mimetype := "application/json";
                   sf_url := url |}).
  eexists. split.
  { unfold event_fun. rewrite (st_bind_step _ _ _ tt (log EAck _)) by done.
    apply st_bind_err. unfold build_message. rewrite Hts, Hch. apply st_bind_err.
    apply (get_thread_messages_artifact_error _ _ _ _ [root]
             {| sm_bot_profile := true; sm_text := Some comment; sm_files := Some [file] |} [m2]
             file [] final.2); simpl; try done.
    - exact (replies_after_post (FilesUpload _ _ (ev_channel ev1) comment (ev_ts ev1)) fid url _ root m2 Hth).
    - by constructor.
    - unfold download. simpl. by rewrite lookup_insert_eq. }
  split; reflexivity.
Qed.

(** C4. The same two mentions when the first turn called no tool: its
    answer was posted with [say], and the second mention rebuilds the
    thread without error. The history is the root message's turn followed
    by the answer as a "model" turn, and the message is the new one. *)
Theorem second_mention_after_say fuel ev1 w w1 text ch ts root ev2 m2 fid url :
  event_fun chat reg fuel ev1 w = Ok (tt, w1) ->
  last (sl_posts (w_slack w1)) = Some (Say text ch ts) ->
  sl_threads (w_slack w1) !! (ev_channel ev1, ev_ts ev1) = Some [root] ->
  sm_files root = None -> sm_files m2 = None ->
  ev_channel ev2 = ev_channel ev1 -> ev_thread_ts ev2 = Some (ev_ts ev1) ->
  exists w2, build_message (poll_fuel fuel) ev2
    (set_slack w1 (user_posts (ev_channel ev1) (ev_ts ev1) m2 (deliver (Say text ch ts) fid url (w_slack w1)))) =
  Ok ((SendContent {| c_role := role_of m2; c_parts := text_parts m2 |},
       Some [{| c_role := role_of root; c_parts := text_parts root |};
             {| c_role := JStr "model"; c_parts := [PText text] |}]), w2).
Proof.
  intros H1 Hlast Hth Hroot Hm2 Hch Hts.
  destruct (event_fun_inv _ _ _ _ _ _ H1) as (mh & w0 & rs & final & text' & _ & _ & _ & _ & Hw1).
  assert (Hp : reply_post ev1 text' final.2 = Say text ch ts).
  { rewrite Hw1 in Hlast. simpl in Hlast. rewrite last_snoc in Hlast. by injection Hlast. }
  destruct (reply_post_say _ _ _ _ _ _ Hp) as (_ & _ & -> & ->).
  unfold build_message. rewrite Hts, Hch. cbn beta iota. unfold st_bind at 1.
  rewrite (get_thread_messages_unfold _ _ _ _ [root; (post_message (Say text (ev_channel ev1) (ev_ts ev1)) fid url).1; m2]);
    [| exact (replies_after_post (Say text _ _) fid url _ root m2 Hth)].
  assert (Hf : Forall (fun m => sm_files m = None)
                [root; (post_message (Say text (ev_channel ev1) (ev_ts ev1)) fid url).1; m2])
    by (repeat constructor; done).
  rewrite (st_bind_step _ _ _ _ _ (process_messages_no_files (poll_fuel fuel) _ [] _ Hf)).
  eexists. reflexivity.
Qed.

End TwoMentions.

Module EndToEndExamples.
Import Registry MediaCacheExamples OrchestratorExamples.

Definition root0 : SlackMessage :=
  {| sm_bot_profile := false; sm_text := Some "<@U1> weather in Tokyo?"; sm_files := None |}.
Definition world_thread : World :=
  {| w_cache := ∅; w_backend := backend0;
     w_slack := {| sl_files := sl_files slack0; sl_threads := {[ ("C1", "100") := [root0] ]}; sl_posts := [] |};
     w_log := [] |}.
Definition ev2 : Event :=
  {| ev_channel := "C1"; ev_ts := "102"; ev_text := Some "<@U1> and in Osaka?";
     ev_files := None; ev_thread_ts := Some "100" |}.
Definition m2 : SlackMessage :=
  {| sm_bot_profile := false; sm_text := Some "<@U1> and in Osaka?"; sm_files := None |}.
Definition chat0 := scripted_chat [weather_resp; answer_resp].

Lemma second_mention_fails_witness :
  match event_fun chat0 example_registry fuel0 ev0 world_thread with
  | Ok (tt, w1) =>
      match last (sl_posts (w_slack w1)) with
      | Some p =>
          exists w2, event_fun chat0 example_registry fuel0 ev2
            (set_slack w1 (user_posts "C1" "100" m2 (deliver p "F99" "https://files.slack.com/F99" (w_slack w1)))) =
          Err (KeyError "parts", w2) /\
          sl_posts (w_slack w2) = sl_posts (deliver p "F99" "https://files.slack.com/F99" (w_slack w1)) /\
          w_cache w2 = w_cache w1
      | None => False
      end
  | Err _ => False
  end.
Proof.
  destruct (event_fun chat0 example_registry fuel0 ev0 world_thread) as [[[] w1]|e] eqn:E;
    [| vm_compute in E; discriminate].
  pose proof E as E'. vm_compute in E'. injection E' as Hw1.
  destruct (last (sl_posts (w_slack w1))) as [p|] eqn:Hl; [| rewrite <- Hw1 in Hl; discriminate].
  apply (second_mention_fails chat0 example_registry fuel0 ev0 world_thread w1 p root0 ev2 m2
           "F99" "https://files.slack.com/F99" E Hl); try reflexivity.
  - rewrite <- Hw1 in Hl. simpl in Hl. injection Hl as <-. eauto 6.
  - rewrite <- Hw1. reflexivity.
Defined.

Definition chat_plain := scripted_chat [answer_resp].

Lemma second_mention_after_say_witness :
  match event_fun chat_plain example_registry fuel0 ev0 world_thread with
  | Ok (tt, w1) =>
      exists w2, build_message (poll_fuel fuel0) ev2
        (set_slack w1 (user_posts "C1" "100" m2
           (deliver (Say "It is sunny in Tokyo." "C1" "100") "F99" "https://files.slack.com/F99" (w_slack w1)))) =
      Ok ((SendContent {| c_role := role_of m2; c_parts := text_parts m2 |},
           Some [{| c_role := role_of root0; c_parts := text_parts root0 |};
                 {| c_role := JStr "model"; c_parts := [PText "It is sunny in Tokyo."] |}]), w2)
  | Err _ => False
  end.
Proof.
  destruct (event_fun chat_plain example_registry fuel0 ev0 world_thread) as [[[] w1]|e] eqn:E;
    [| vm_compute in E; discriminate].
  pose proof E as E'. vm_compute in E'. injection E' as Hw1.
  apply (second_mention_after_say chat_plain example_registry fuel0 ev0 world_thread w1
           "It is sunny in Tokyo." "C1" "100" root0 ev2 m2 "F99" "https://files.slack.com/F99" E);
    try reflexivity; rewrite <- Hw1; reflexivity.
Defined.

End EndToEndExamples.
