(* ===== verification/Startup.v ===== *)
(** * Start-up and the running application: [src/main.py],
      [src/slack_agent/main_function.py] and the set-up part of
      [make_app_mention_event] (app_mention.py:50-68)

    [main.py] loads [.env] into the process environment, reads the three
    tokens with [os.environ[...]] (a missing one raises [KeyError]), fixes
    the model name and the system instruction, and calls
    [make_main_function]. That function creates a Bolt [App] with the bot
    token and registers for ["app_mention"] the handler that
    [make_app_mention_event] builds. Building it configures the Gemini
    client with the API key, creates the [GenerativeModel] with the tools
    [get_functions()] lists, and fills the media cache from
    [genai.list_files]. [main()] opens the Socket Mode connection with the
    app token.

    - [load_dotenv], [environ_get]: the libraries' behaviour (python-dotenv
      does not override a variable the process already has; [os.environ]
      is a dict).
    - [read_config], [model_name], [system_instruction], [main_py]:
      main.py.
    - [make_app_mention_event], [make_main_function]: the closure state of
      the handler ([MentionHandler]) and the application ([App],
      [MainFunction]).
    - [bolt_listener]: Bolt routes an event to the first listener
      registered for its type (library behaviour).
    - [session_step]: what can happen once the app runs. A mention is
      handled by [event_fun] with the configured model, and its effects
      stay even when it raises (Bolt logs the exception and goes on). The
      file service may delete a file or receive an upload from another
      client, and Slack may change in any way. *)

From stdpp Require Import base list sets gmap strings.
From S2P Require Import Prelude Python Registry Services MediaCache Orchestrator.
Import Genai Slack MediaCache Registry.

(** ** The process environment *)

Abbreviation environ := (pydict string string).

(** The variables of a [.env] file as python-dotenv reads them: a
    variable set twice keeps its last value. *)
Definition dotenv_values (dotenv : list (string * string)) : environ :=
  foldl (fun d kv => pd_set kv.1 kv.2 d) [] dotenv.

(** [dotenv.load_dotenv()]: a variable of the file is set unless the
    process environment already has it ([override=False]). *)
Definition load_dotenv (dotenv : list (string * string)) (env : environ) : environ :=
  foldl (fun env kv => match pd_get kv.1 env with Some _ => env | None => pd_set kv.1 kv.2 env end)
        env (dotenv_values dotenv).

(** [os.environ[k]] *)
Definition environ_get (env : environ) (k : string) : pyres string :=
  match pd_get k env with Some v => Ok v | None => Err (KeyError k) end.

(** ** main.py *)

Record Config : Type := {
  google_api_token : string;
  slack_bot_token : string;
  slack_app_token : string
}.

(** main.py:8-10 *)
Definition read_config (env : environ) : pyres Config :=
  let? g := environ_get env "GOOGLE_API_TOKEN" in
  let? b := environ_get env "SLACK_BOT_TOKEN" in
  let? a := environ_get env "SLACK_APP_TOKEN" in
  Ok {| google_api_token := g; slack_bot_token := b; slack_app_token := a |}.

(** main.py:13 *)
Definition model_name : string := "gemini-2.0-flash-exp".

(** main.py:14-20 *)
Definition system_instruction : string := "
あなたはSlack上でユーザとコミュニケーションをとっています。
あなたはユーザからメンションされたとき、以下の指示に従いながら、適切な返答をする必要があります。
- ユーザからのメッセージは必ず @<あなたのID> から始まります。@<あなたのID> はあなた自身を指しているため、返答にこのメンションを含む必要はありません。
- ユーザからの質問に対しては、できるだけ正確な返答をしてください。
- 曖昧な質問に対しては、ユーザに質問を返すことで明確にしてください。ただし、質問を返す際にはどこまでは分かっていて何が分からないのか、どのような情報が必要なのかなど、ユーザに対して質問を返した理由を添えるようにしてください。
".

(** ** The handler's set-up and the application *)

(** [genai.configure(api_key=...)] and
    [genai.GenerativeModel(model_name=..., tools=..., system_instruction=...)]. *)
Record ModelConfig : Type := {
  mc_api_key : string;
  mc_model_name : string;
  mc_tools : option (list Tool);
  mc_system_instruction : string
}.

(** The closure [make_app_mention_event] returns: the model it talks to,
    the bot token of its downloads, and [file_upload_dict]. *)
Record MentionHandler : Type := {
  mh_model : ModelConfig;
  mh_bot_token : string;
  mh_cache : gmap string string
}.

(** app_mention.py:50-68, with the file service as it is at start-up. *)
Definition make_app_mention_event (model_name google_api_token slack_bot_token system_instruction : string)
    (tools : option (list Tool)) (b : Backend) : MentionHandler :=
  {| mh_model := {| mc_api_key := google_api_token; mc_model_name := model_name;
                    mc_tools := tools; mc_system_instruction := system_instruction |};
     mh_bot_token := slack_bot_token;
     mh_cache := init_cache b |}.

(** A Bolt [App]: its bot token and its listeners, in registration order. *)
Record App : Type := {
  app_bot_token : string;
  app_listeners : list (string * MentionHandler)
}.

(** [App(token=...)] *)
Definition bolt_app (token : string) : App := {| app_bot_token := token; app_listeners := [] |}.

(** [app.event(event_type)(handler)] *)
Definition app_event (event_type : string) (h : MentionHandler) (app : App) : App :=
  {| app_bot_token := app_bot_token app; app_listeners := app_listeners app ++ [(event_type, h)] |}.

(** What [make_main_function] returns: [main], which starts
    [SocketModeHandler(app, app_token)]. *)
Record MainFunction : Type := {
  mf_app : App;
  mf_app_token : string
}.

(** main_function.py:10-34 *)
Definition make_main_function (model_name system_instruction google_api_token slack_bot_token slack_app_token : string)
    (reg : registry) (b : Backend) : MainFunction :=
  let app := bolt_app slack_bot_token in
  let app := app_event "app_mention"
               (make_app_mention_event model_name google_api_token slack_bot_token system_instruction
                  (Some (get_functions reg)) b) app in
  {| mf_app := app; mf_app_token := slack_app_token |}.

(** main.py run as a program: load [.env], read the tokens, build [main]. *)
Definition main_py (dotenv : list (string * string)) (env : environ) (reg : registry) (b : Backend)
  : pyres MainFunction :=
  let env := load_dotenv dotenv env in
  let? cfg := read_config env in
  Ok (make_main_function model_name system_instruction (google_api_token cfg) (slack_bot_token cfg)
        (slack_app_token cfg) reg b).

(** Bolt runs the first listener registered for an event's type. *)
Definition bolt_listener (app : App) (event_type : string) : option MentionHandler :=
  match List.find (fun l => String.eqb l.1 event_type) (app_listeners app) with
  | Some (_, h) => Some h
  | None => None
  end.

(** The state when the Socket Mode connection opens. *)
Definition start_world (h : MentionHandler) (b : Backend) (s : SlackServer) : World :=
  {| w_cache := mh_cache h; w_backend := b; w_slack := s; w_log := [] |}.

(** ** The running application *)

Section Session.
Context {Sess : Type}.
(** The chat a configured model opens: a black box. *)
Variable GenerativeModel : ModelConfig -> ChatModel Sess.
Variable fuel : Fuel.
Variable reg : registry.
Variable app : App.

Inductive session_step : World -> World -> Prop :=
| ss_mention h ev w :
    bolt_listener app "app_mention" = Some h ->
    session_step w (st_final (event_fun (GenerativeModel (mh_model h)) reg fuel ev w))
| ss_expire name w :
    session_step w (set_backend w (expire name (w_backend w)))
| ss_other_upload c d m w :
    session_step w (st_final (genai_upload_file c d m w))
| ss_slack s w :
    session_step w (set_slack w s).

End Session.

(** ** Properties *)

(** Which value of a variable the program sees: the process environment's,
    else the [.env] file's (a specification). *)
Definition effective (dotenv : list (string * string)) (env : environ) (k : string) : option string :=
  match pd_get k env with Some v => Some v | None => pd_get k (dotenv_values dotenv) end.

Lemma load_dotenv_get dotenv env k : pd_get k (load_dotenv dotenv env) = effective dotenv env k.
Proof.
  unfold load_dotenv, effective. generalize (dotenv_values dotenv) as D. intros D. revert env.
  induction D as [|[k' v'] D IH]; intros env; simpl; [by destruct (pd_get k env) |].
  rewrite IH. destruct (decide (k = k')) as [-> | Hne].
  - destruct (pd_get k' env) eqn:E; [by rewrite E | by rewrite pd_get_set_eq].
  - destruct (pd_get k' env); [done |]. by rewrite pd_get_set_ne by congruence.
Qed.

(** What a successful start gives the handler. *)
Lemma main_py_listener dotenv env reg b mf h :
  main_py dotenv env reg b = Ok mf -> bolt_listener (mf_app mf) "app_mention" = Some h ->
  mc_tools (mh_model h) = Some (get_functions reg) /\ mh_cache h = init_cache b.
Proof.
  unfold main_py, read_config. destruct (environ_get _ "GOOGLE_API_TOKEN"); [| done]; simpl.
  destruct (environ_get _ "SLACK_BOT_TOKEN"); [| done]; simpl.
  destruct (environ_get _ "SLACK_APP_TOKEN"); [| done]; simpl.
  by intros [= <-] [= <-].
Qed.

Section SessionProperties.
Context {Sess : Type}.
Variable GenerativeModel : ModelConfig -> ChatModel Sess.
Variable fuel : Fuel.
Variable reg : registry.
Variable app : App.

Lemma session_step_keeps_wf w w' : session_step GenerativeModel fuel reg app w w' -> keeps_wf w w'.
Proof.
  destruct 1 as [h ev w _ | name w | c d m w | s w].
  - apply event_fun_preserves_wf.
  - intros [Hc Hb]. split; [exact Hc | by apply backend_wf_expire].
  - exact (grows_keeps_wf _ (genai_upload_file_grows c d m) w).
  - intros [Hc Hb]. by split.
Qed.

Lemma session_keeps_wf w w' : rtc (session_step GenerativeModel fuel reg app) w w' -> keeps_wf w w'.
Proof. induction 1 as [w | w1 w2 w3 H12 _ IH]; [done |]. etrans; [exact (session_step_keeps_wf _ _ H12) | exact IH]. Qed.

End SessionProperties.

(** C21. The configuration the running app gets: each token is the
    process environment's value, else the [.env] file's. When all three
    are set, [main.py] builds an app whose one listener answers
    ["app_mention"] with the model [gemini-2.0-flash-exp], the tools
    [get_functions()] lists and the system instruction. The Gemini API key
    and the bot token are the first two tokens, the cache is filled from
    the files the service lists, and [main()] connects with the third
    token. *)
Theorem main_py_ok dotenv env reg b g bt ap :
  effective dotenv env "GOOGLE_API_TOKEN" = Some g ->
  effective dotenv env "SLACK_BOT_TOKEN" = Some bt ->
  effective dotenv env "SLACK_APP_TOKEN" = Some ap ->
  main_py dotenv env reg b =
  Ok {| mf_app := {| app_bot_token := bt;
                     app_listeners :=
                       [("app_mention",
                         {| mh_model := {| mc_api_key := g; mc_model_name := model_name;
                                           mc_tools := Some (get_functions reg);
                                           mc_system_instruction := system_instruction |};
                            mh_bot_token := bt; mh_cache := init_cache b |})] |};
        mf_app_token := ap |}.
Proof.
  intros Hg Hb Ha. unfold main_py, read_config, environ_get.
  by rewrite !load_dotenv_get, Hg, Hb, Ha.
Qed.

(** C22. A token set neither in the process environment nor in [.env]
    stops [main.py] with [KeyError]: the first missing one in the order
    the code reads them. *)
Theorem main_py_missing_token dotenv env reg b e :
  main_py dotenv env reg b = Err e <->
  (effective dotenv env "GOOGLE_API_TOKEN" = None /\ e = KeyError "GOOGLE_API_TOKEN") \/
  (is_Some (effective dotenv env "GOOGLE_API_TOKEN") /\
   effective dotenv env "SLACK_BOT_TOKEN" = None /\ e = KeyError "SLACK_BOT_TOKEN") \/
  (is_Some (effective dotenv env "GOOGLE_API_TOKEN") /\ is_Some (effective dotenv env "SLACK_BOT_TOKEN") /\
   effective dotenv env "SLACK_APP_TOKEN" = None /\ e = KeyError "SLACK_APP_TOKEN").
Proof.
  unfold main_py, read_config, environ_get. rewrite !load_dotenv_get.
  destruct (effective _ _ "GOOGLE_API_TOKEN"), (effective _ _ "SLACK_BOT_TOKEN"),
    (effective _ _ "SLACK_APP_TOKEN"); simpl; split; try naive_solver; intros [= <-]; naive_solver.
Qed.

(** The tools the model is told about are the ones it can call:
    once the package has registered its tools, the list passed as
    [tools=] has one tool per name, and [call_function] runs each listed
    tool's own body for its name. *)
Theorem main_py_tools_dispatch dotenv env fns b mf h :
  main_py dotenv env (registered fns) b = Ok mf ->
  bolt_listener (mf_app mf) "app_mention" = Some h ->
  exists ts, mc_tools (mh_model h) = Some ts /\ NoDup (map tool_name ts) /\
    forall t kwargs, t ∈ ts -> call_function (registered fns) (tool_name t) kwargs = tool_body t kwargs.
Proof.
  intros Hm Hl. destruct (main_py_listener _ _ _ _ _ _ Hm Hl) as [Ht _].
  pose proof (registered_wf fns) as Hwf. exists (get_functions (registered fns)). split_and!; [done | |].
  - rewrite get_functions_names by done. apply Hwf.
  - intros t kwargs Hin. by apply get_functions_dispatch.
Qed.

(** C17. The state invariant holds all along a run of the app: from the
    start, whatever mentions are handled (those that raise included), files
    the service deletes, uploads of other clients and changes to Slack,
    every name in the media cache is one the service issued, and the
    service's files are stored under their own names. *)
Theorem session_invariant {Sess} (GenerativeModel : ModelConfig -> ChatModel Sess) fuel
    dotenv env reg b s mf h w :
  backend_wf b -> main_py dotenv env reg b = Ok mf -> bolt_listener (mf_app mf) "app_mention" = Some h ->
  rtc (session_step GenerativeModel fuel reg (mf_app mf)) (start_world h b s) w ->
  cache_wf w /\ backend_wf (w_backend w).
Proof.
  intros Hb Hm Hl Hr. destruct (main_py_listener _ _ _ _ _ _ Hm Hl) as [_ Hc].
  apply (session_keeps_wf _ _ _ _ _ _ Hr). unfold start_world. rewrite Hc.
  split; [by apply init_cache_wf | done].
Qed.

(** ** Concrete runs *)

Module StartupExamples.
Import MediaCacheExamples OrchestratorExamples.

(** The bot token is set in the process, the others come from [.env],
    which also holds a bot token that is not used. *)
Definition env0 : environ := [("SLACK_BOT_TOKEN", "xoxb-process"); ("HOME", "/root")].
Definition dotenv0 : list (string * string) :=
  [("GOOGLE_API_TOKEN", "AIza-old"); ("SLACK_BOT_TOKEN", "xoxb-file"); ("SLACK_APP_TOKEN", "xapp-1");
   ("GOOGLE_API_TOKEN", "AIza-new")].

Example effective_bot_token : effective dotenv0 env0 "SLACK_BOT_TOKEN" = Some "xoxb-process".
Proof. reflexivity. Qed.

Lemma main_py_ok_witness :
  main_py dotenv0 env0 example_registry backend1 =
  Ok {| mf_app := {| app_bot_token := "xoxb-process";
                     app_listeners :=
                       [("app_mention",
                         {| mh_model := {| mc_api_key := "AIza-new"; mc_model_name := model_name;
                                           mc_tools := Some (get_functions example_registry);
                                           mc_system_instruction := system_instruction |};
                            mh_bot_token := "xoxb-process"; mh_cache := init_cache backend1 |})] |};
        mf_app_token := "xapp-1" |}.
Proof. apply main_py_ok; reflexivity. Defined.

Lemma main_py_missing_token_witness :
  main_py [] [("GOOGLE_API_TOKEN", "AIza")] example_registry backend0 = Err (KeyError "SLACK_BOT_TOKEN").
Proof.
  apply (main_py_missing_token [] [("GOOGLE_API_TOKEN", "AIza")] example_registry backend0).
  right. left. split_and!; [by eexists | reflexivity | reflexivity].
Defined.

Definition mf0 : MainFunction :=
  match main_py dotenv0 env0 (registered [get_current_weather]) backend1 with
  | Ok mf => mf
  | Err _ => {| mf_app := bolt_app ""; mf_app_token := "" |}
  end.

Lemma main_py_tools_dispatch_witness :
  exists h, bolt_listener (mf_app mf0) "app_mention" = Some h /\
    exists ts, mc_tools (mh_model h) = Some ts /\ NoDup (map tool_name ts) /\
      forall t kwargs, t ∈ ts ->
        call_function (registered [get_current_weather]) (tool_name t) kwargs = tool_body t kwargs.
Proof.
  eexists. split; [reflexivity |].
  apply (main_py_tools_dispatch dotenv0 env0 [get_current_weather] backend1 mf0); reflexivity.
Defined.

(** A run: the service deletes "files/0", then a mention with an image
    is handled by a model that answers at once. *)
Definition h0 : MentionHandler :=
  match bolt_listener (mf_app mf0) "app_mention" with
  | Some h => h
  | None => make_app_mention_event "" "" "" "" None backend0
  end.

Definition w_run : World :=
  let w1 := set_backend (start_world h0 backend1 slack0) (expire "files/0" backend1) in
  st_final (event_fun (scripted_chat [answer_resp]) (registered [get_current_weather]) fuel0 ev_image w1).

Lemma session_invariant_witness : cache_wf w_run /\ backend_wf (w_backend w_run).
Proof.
  apply (session_invariant (fun _ => scripted_chat [answer_resp]) fuel0 dotenv0 env0
           (registered [get_current_weather]) backend1 slack0 mf0 h0);
    [exact backend1_wf | reflexivity | reflexivity |].
  eapply rtc_l; [apply (ss_expire _ _ _ _ "files/0") |].
  eapply rtc_l; [apply (ss_mention _ _ _ _ h0 ev_image); reflexivity |].
  apply rtc_refl.
Defined.

End StartupExamples.
