(* ===== verification/Concurrency.v ===== *)
(** * Concurrent handlers: Bolt's worker threads sharing [file_upload_dict]

    Slack's Socket Mode client hands each incoming event to a pool of
    worker threads, so two mentions can run [event_fun] at the same time.
    The handlers share the closure variable [file_upload_dict], the Gemini
    file service and Slack. The sequential model of the other files runs
    one handler to its end; this file cuts a handler into the atomic steps
    the interpreter can interleave.

    - [thread A]: a computation made of atomic steps, each a computation
      of [M], with the rest of the thread waiting for its result (a free
      monad over [M]). [run_seq] runs a thread without interruption.
    - The atoms: one call to a service (an upload, a download, a
      [genai.get_file], a post) and one operation on the dict. The code's
      [if file_id in file_upload_dict: name = file_upload_dict[file_id]]
      is two atoms, and so is the check-then-upload of a miss: another
      thread may run in between.
    - [get_file_part_t] and the chain up to [event_fun_t] are the code of
      app_mention.py cut at those points. [run_seq] of each is pointwise
      equal ([≡ₛ]) to the sequential definition: cutting changes nothing
      when nothing interleaves.
    - [interleave]: a schedule (a list of thread indices) runs a pool of
      threads one atomic step at a time.
    - [tsafe]: a rely-guarantee reading of a thread: every step keeps the
      state invariant and only lets the service's counter grow, whatever
      the other threads did before it. A pool of safe threads keeps the
      invariant under every schedule. *)

From stdpp Require Import base list sets gmap strings pretty.
From S2P Require Import Prelude Python Registry Services HistoryDecoder MediaCache Thread Orchestrator.
Import Genai Slack Decoder MediaCache Thread.

(** ** Threads of atomic steps *)

Inductive thread (A : Type) : Type :=
| Done (a : A)
| Atomic {X : Type} (c : M X) (k : X -> thread A).
Arguments Done {A} a.
Arguments Atomic {A X} c k.

Fixpoint tbind {A B} (t : thread A) (f : A -> thread B) : thread B :=
  match t with
  | Done a => f a
  | Atomic c k => Atomic c (fun x => tbind (k x) f)
  end.

(** One step the interpreter does not interrupt. *)
Definition atom {A} (c : M A) : thread A := Atomic c Done.

Declare Scope thread_scope.
Delimit Scope thread_scope with thread.
Notation "x <~ t ;; k" := (tbind t (fun x => k))
  (at level 100, t at next level, right associativity) : thread_scope.
Notation "t ;;; k" := (tbind t (fun _ => k))
  (at level 100, right associativity) : thread_scope.
Open Scope thread_scope.

(** A thread run without interruption. *)
Fixpoint run_seq {A} (t : thread A) : M A :=
  match t with
  | Done a => st_ret a
  | Atomic c k => st_bind c (fun x => run_seq (k x))
  end.

Fixpoint tfold {A B} (f : B -> A -> thread B) (l : list A) (b : B) : thread B :=
  match l with
  | [] => Done b
  | x :: xs => b' <~ f b x ;; tfold f xs b'
  end.

(** ** [file_upload_dict], one dict operation at a time *)

(** [file_id in file_upload_dict] *)
Definition cache_contains (id : string) : M bool :=
  fun w => Ok (match w_cache w !! id with Some _ => true | None => false end, w).

(** [file_upload_dict[file_id]] *)
Definition cache_getitem (id : string) : M string :=
  fun w => match w_cache w !! id with
           | Some name => Ok (name, w)
           | None => Err (KeyError id, w)
           end.

(** [del file_upload_dict[file_id]] *)
Definition cache_delitem (id : string) : M unit :=
  fun w => match w_cache w !! id with
           | Some _ => Ok (tt, set_cache w (delete id (w_cache w)))
           | None => Err (KeyError id, w)
           end.

(** [file_upload_dict[file_id] = file.name] *)
Definition cache_setitem (id name : string) : M unit :=
  st_modify (fun w => set_cache w (<[id := name]> (w_cache w))).

(** ** [get_file_part], cut into atomic steps *)

(** Lines 103-111. *)
Definition lookup_cached_t (file_id : string) : thread (option GFile) :=
  present <~ atom (cache_contains file_id) ;;
  if present then
    name <~ atom (cache_getitem file_id) ;;
    r <~ atom (try_get_file name) ;;
    match r with
    | Some f => Done (Some f)
    | None => atom (cache_delitem file_id) ;;; Done None
    end
  else Done None.

(** Lines 113-117. *)
Definition fetch_and_upload_t (file_url file_id mimetype : string) : thread GFile :=
  body <~ atom (requests_get file_url) ;;
  atom (genai_upload_file body file_id mimetype).

(** Lines 120-122. *)
Fixpoint poll_processing_t (fuel : nat) (file : GFile) : thread GFile :=
  if decide (gf_state file = PROCESSING) then
    match fuel with
    | 0 => atom (st_throw OutOfFuel)
    | S fuel' =>
        atom time_sleep ;;;
        file' <~ atom (genai_get_file (gf_name file)) ;;
        poll_processing_t fuel' file'
    end
  else Done file.

(** Lines 119-122. *)
Definition wait_if_video_t (fuel : nat) (mimetype : string) (file : GFile) : thread GFile :=
  if py_in_str "video" mimetype then poll_processing_t fuel file else Done file.

(** Lines 99-125. *)
Definition get_file_part_t (fuel : nat) (file_url file_id mimetype : string) : thread (option GFile) :=
  if negb (py_in_list mimetype SUPPORTED_MIME_TYPES) then Done None
  else
    cached <~ lookup_cached_t file_id ;;
    file <~ match cached with
            | Some f => Done f
            | None => fetch_and_upload_t file_url file_id mimetype
            end ;;
    file <~ wait_if_video_t fuel mimetype file ;;
    atom (cache_setitem file_id (gf_name file)) ;;;
    Done (Some file).

(** ** The handler, cut into atomic steps *)

(** Lines 136-146: reading an artifact is one download. *)
Definition process_file_t (fuel : nat) (acc : list Content * list Part) (file : SlackFile)
  : thread (list Content * list Part) :=
  let '(thread_messages, parts) := acc in
  if String.eqb (sf_name file) "function_call.json" then
    h <~ atom (get_function_call_history (sf_url file)) ;;
    Done (thread_messages ++ h, parts)
  else
    fp <~ get_file_part_t fuel (sf_url file) (sf_id file) (sf_mimetype file) ;;
    Done (thread_messages, match fp with Some f => parts ++ [PFile f] | None => parts end).

(** Lines 132-151. *)
Definition process_message_t (fuel : nat) (thread_messages : list Content) (m : SlackMessage)
  : thread (list Content) :=
  r <~ (match sm_files m with
        | Some files => tfold (process_file_t fuel) files (thread_messages, [])
        | None => Done (thread_messages, [])
        end) ;;
  let '(thread_messages, parts) := r in
  let parts := match sm_text m with Some t => parts ++ [PText t] | None => parts end in
  Done (thread_messages ++ [{| c_role := role_of m; c_parts := parts |}]).

(** Lines 127-154. *)
Definition get_thread_messages_t (fuel : nat) (channel thread_ts : string)
  : thread (Content * list Content) :=
  messages <~ atom (slack_replies channel thread_ts) ;;
  thread_messages <~ tfold (process_message_t fuel) messages [] ;;
  match split_last thread_messages with
  | None => atom (st_throw (ValueError NotEnoughValuesToUnpack))
  | Some (history, message) => Done (message, history)
  end.

(** Lines 166-175. *)
Definition event_message_t (fuel : nat) (ev : Event) : thread (list Part) :=
  text <~ atom (st_lift (match ev_text ev with Some t => Ok t | None => Err (KeyError "text") end)) ;;
  tfold (fun message file =>
           fp <~ get_file_part_t fuel (sf_url file) (sf_id file) (sf_mimetype file) ;;
           Done (match fp with Some f => message ++ [PFile f] | None => message end))
        (default [] (ev_files ev)) [PText text].

(** Lines 163-175. *)
Definition build_message_t (fuel : nat) (ev : Event) : thread (SendInput * option (list Content)) :=
  match ev_thread_ts ev with
  | Some thread_ts =>
      mh <~ get_thread_messages_t fuel (ev_channel ev) thread_ts ;;
      Done (SendContent mh.1, Some mh.2)
  | None =>
      message <~ event_message_t fuel ev ;;
      Done (SendParts message, None)
  end.

Section Handler.
Context {R : Type} `{!ToolDispatch R} {Sess : Type}.
Variable chat : ChatModel Sess.
Variable reg : R.

(** Lines 156-229: the model's rounds do not touch the shared state; each
    exchange is one step. *)
Definition event_fun_t (fuel : Fuel) (ev : Event) : thread unit :=
  atom slack_ack ;;;
  mh <~ build_message_t (poll_fuel fuel) ev ;;
  let sess := start_chat chat mh.2 in
  rs <~ atom (st_lift (send_message chat sess mh.1)) ;;
  final <~ atom (st_lift (tool_loop chat reg (loop_fuel fuel) rs.2 rs.1 [])) ;;
  text <~ atom (st_lift (resp_text final.1.1)) ;;
  atom (reply ev text final.2).

End Handler.

(** ** Run without interruption, a thread is the sequential code *)

Lemma run_seq_tbind {A B} (t : thread A) (f : A -> thread B) :
  run_seq (tbind t f) ≡ₛ st_bind (run_seq t) (fun a => run_seq (f a)).
Proof.
  induction t as [a|X c k IH]; simpl; [by rewrite st_bind_ret_l |].
  rewrite st_bind_assoc. apply st_bind_proper; [done | intros x; apply IH].
Qed.

Lemma run_seq_atom {A} (c : M A) : run_seq (atom c) ≡ₛ c.
Proof. apply st_bind_ret_r. Qed.

Lemma st_fold_proper {A B} (f g : B -> A -> M B) l b :
  (forall b x, f b x ≡ₛ g b x) -> st_fold f l b ≡ₛ st_fold g l b.
Proof.
  intros Hfg. revert b. induction l as [|x l IH]; intros b; simpl; [done |].
  apply st_bind_proper; [apply Hfg | intros b'; apply IH].
Qed.

Lemma run_seq_tfold {A B} (f : B -> A -> thread B) l b :
  run_seq (tfold f l b) ≡ₛ st_fold (fun b x => run_seq (f b x)) l b.
Proof.
  revert b. induction l as [|x l IH]; intros b; simpl; [done |].
  rewrite run_seq_tbind. apply st_bind_proper; [done | intros b'; apply IH].
Qed.

(** The bind of a refined head and refined continuations. *)
Lemma run_seq_tbind_proper {A B} (t : thread A) (f : A -> thread B) (c : M A) (k : A -> M B) :
  run_seq t ≡ₛ c -> (forall a, run_seq (f a) ≡ₛ k a) -> run_seq (tbind t f) ≡ₛ st_bind c k.
Proof. intros Ht Hf. rewrite run_seq_tbind. by apply st_bind_proper. Qed.

Ltac refines :=
  repeat first
    [ apply run_seq_tbind_proper; [| intros ?]
    | apply run_seq_atom
    | progress simpl
    | reflexivity ].

Lemma try_get_file_cache name w r w' :
  try_get_file name w = Ok (r, w') -> w_cache w' = w_cache w.
Proof. intros H. exact (proj1 (st_preserves_Ok (try_get_file_grows name) H)). Qed.

(** Unfold the dict operations and the monad on a concrete state. *)
Local Ltac norm := repeat progress (simpl; unfold cache_contains, cache_getitem, cache_delitem,
                                      st_get, st_bind, st_ret, st_modify).

Lemma lookup_cached_t_refines id : run_seq (lookup_cached_t id) ≡ₛ lookup_cached id.
Proof.
  intros w. unfold lookup_cached_t, lookup_cached. norm. destruct (w_cache w !! id) as [name|] eqn:Hc; norm; [| done]. rewrite Hc.
  destruct (try_get_file name w) as [[[f|] w']|] eqn:Hr; norm; [done | | done].
  by rewrite (try_get_file_cache _ _ _ _ Hr), Hc.
Qed.

Lemma poll_processing_t_refines fuel f : run_seq (poll_processing_t fuel f) ≡ₛ poll_processing fuel f.
Proof.
  revert f. induction fuel as [|fuel IH]; intros f; cbn [poll_processing_t poll_processing];
    (destruct (decide _); [| done]); [apply run_seq_atom |].
  apply run_seq_tbind_proper; [apply run_seq_atom | intros _].
  apply run_seq_tbind_proper; [apply run_seq_atom | intros f'; apply IH].
Qed.

Lemma get_file_part_t_refines fuel url id m :
  run_seq (get_file_part_t fuel url id m) ≡ₛ get_file_part fuel url id m.
Proof.
  unfold get_file_part_t, get_file_part. destruct (negb _); [done |].
  apply run_seq_tbind_proper; [apply lookup_cached_t_refines | intros [f|]].
  all: apply run_seq_tbind_proper; [try apply run_seq_tbind_proper; refines | intros file].
  all: apply run_seq_tbind_proper; [| intros f'; refines].
  all: unfold wait_if_video_t, wait_if_video; destruct (py_in_str _ _); [apply poll_processing_t_refines | done].
Qed.

Lemma process_file_t_refines fuel acc file :
  run_seq (process_file_t fuel acc file) ≡ₛ process_file fuel acc file.
Proof.
  destruct acc as [tm ps]. unfold process_file_t, process_file. destruct (String.eqb _ _).
  - apply run_seq_tbind_proper; [apply run_seq_atom | done].
  - apply run_seq_tbind_proper; [apply get_file_part_t_refines | done].
Qed.

Lemma process_message_t_refines fuel tm m :
  run_seq (process_message_t fuel tm m) ≡ₛ process_message fuel tm m.
Proof.
  unfold process_message_t, process_message.
  apply run_seq_tbind_proper; [| intros [tm' ps]; done].
  destruct (sm_files m); [| done].
  rewrite run_seq_tfold. apply st_fold_proper, process_file_t_refines.
Qed.

Lemma get_thread_messages_t_refines fuel ch ts :
  run_seq (get_thread_messages_t fuel ch ts) ≡ₛ get_thread_messages fuel ch ts.
Proof.
  unfold get_thread_messages_t, get_thread_messages.
  apply run_seq_tbind_proper; [apply run_seq_atom | intros msgs].
  apply run_seq_tbind_proper; [rewrite run_seq_tfold; apply st_fold_proper, process_message_t_refines |].
  intros tm. destruct (split_last tm) as [[]|]; [done | apply run_seq_atom].
Qed.

Lemma build_message_t_refines fuel ev :
  run_seq (build_message_t fuel ev) ≡ₛ build_message fuel ev.
Proof.
  unfold build_message_t, build_message, event_message_t, event_message.
  destruct (ev_thread_ts ev).
  - apply run_seq_tbind_proper; [apply get_thread_messages_t_refines | done].
  - apply run_seq_tbind_proper; [| done].
    apply run_seq_tbind_proper; [apply run_seq_atom | intros t].
    rewrite run_seq_tfold. apply st_fold_proper. intros acc file.
    apply run_seq_tbind_proper; [apply get_file_part_t_refines | done].
Qed.

Section HandlerRefines.
Context {R : Type} `{!ToolDispatch R} {Sess : Type}.
Variable chat : ChatModel Sess.
Variable reg : R.

(** Cutting the handler into atomic steps changes nothing when no
    other thread runs: [event_fun_t], run without interruption, is
    [event_fun] on every start state, for every outcome (an answer, an
    exception, the loops running out of fuel). The concurrent model is
    the same code. *)
Theorem event_fun_t_refines fuel ev :
  run_seq (event_fun_t chat reg fuel ev) ≡ₛ event_fun chat reg fuel ev.
Proof.
  unfold event_fun_t, event_fun.
  apply run_seq_tbind_proper; [apply run_seq_atom | intros _].
  apply run_seq_tbind_proper; [apply build_message_t_refines | intros mh].
  do 3 (apply run_seq_tbind_proper; [apply run_seq_atom | intros ?]).
  apply run_seq_atom.
Qed.

End HandlerRefines.

(** ** A pool of threads and a schedule *)

(** A worker is running a thread or has finished with its outcome. *)
Inductive tstate (A : Type) : Type :=
| Running (t : thread A)
| Finished (r : pyres A).
Arguments Running {A} t.
Arguments Finished {A} r.

(** One atomic step of a thread. *)
Definition tstep {A} (t : thread A) (w : World) : tstate A * World :=
  match t with
  | Done a => (Finished (Ok a), w)
  | Atomic c k =>
      match c w with
      | Ok (x, w') => (Running (k x), w')
      | Err (e, w') => (Finished (Err e), w')
      end
  end.

(** The outcome of a run as a finished worker. *)
Definition finish {A} (r : result (exn * World) (A * World)) : tstate A * World :=
  match r with
  | Ok (a, w') => (Finished (Ok a), w')
  | Err (e, w') => (Finished (Err e), w')
  end.

(** The schedule names, step by step, the worker that runs next; a
    finished worker or an index out of the pool does nothing. *)
Fixpoint interleave {A} (sched : list nat) (pool : list (tstate A)) (w : World)
  : list (tstate A) * World :=
  match sched with
  | [] => (pool, w)
  | i :: sched' =>
      match pool !! i with
      | Some (Running t) =>
          let sw := tstep t w in
          interleave sched' (<[i := sw.1]> pool) sw.2
      | _ => interleave sched' pool w
      end
  end.

Lemma interleave_app {A} s1 s2 (pool : list (tstate A)) w :
  interleave (s1 ++ s2) pool w = interleave s2 (interleave s1 pool w).1 (interleave s1 pool w).2.
Proof.
  revert pool w. induction s1 as [|i s1 IH]; intros pool w; [done |]. simpl.
  destruct (pool !! i) as [[t|]|]; apply IH.
Qed.

(** A worker scheduled alone runs its thread to the sequential outcome. *)
Lemma run_alone {A} (t : thread A) pool i w :
  pool !! i = Some (Running t) ->
  exists n, interleave (replicate n i) pool w =
    (<[i := (finish (run_seq t w)).1]> pool, (finish (run_seq t w)).2).
Proof.
  revert pool w. induction t as [a|X c k IH]; intros pool w Hi.
  - exists 1. simpl. by rewrite Hi.
  - simpl. unfold st_bind. destruct (c w) as [[x w1]|[e w1]] eqn:Hc.
    + destruct (IH x (<[i := Running (k x)]> pool) w1) as [n Hn];
        [apply list_lookup_insert_eq; by eapply lookup_lt_Some |].
      exists (S n). simpl. rewrite Hi. simpl. rewrite Hc. simpl. rewrite Hn.
      by rewrite list_insert_insert_eq.
    + exists 1. simpl. rewrite Hi. simpl. by rewrite Hc.
Qed.

(** ** Rely and guarantee *)

Section Safety.
Variable I : World -> Prop.
Variable G : World -> World -> Prop.
Context `{!PreOrder G}.

(** [tsafe Q w0 t]: started in any state that satisfies [I] and that
    [G]-steps of other threads lead to from [w0], every step of [t] keeps
    [I] and is itself a [G]-step, and [t] ends with a value of which [Q]
    holds in the state its last step left. *)
Inductive tsafe {A} (Q : A -> World -> Prop) : World -> thread A -> Prop :=
| tsafe_done w0 a : Q a w0 -> tsafe Q w0 (Done a)
| tsafe_atomic {X} w0 (c : M X) (k : X -> thread A) :
    (forall w, G w0 w -> I w -> I (st_final (c w)) /\ G w (st_final (c w))) ->
    (forall w x w', G w0 w -> I w -> c w = Ok (x, w') -> tsafe Q w' (k x)) ->
    tsafe Q w0 (Atomic c k).

Lemma tsafe_bind {A B} (Q : A -> World -> Prop) (P : B -> World -> Prop) w0 t f :
  tsafe Q w0 t -> (forall a w, Q a w -> tsafe P w (f a)) -> tsafe P w0 (tbind t f).
Proof.
  induction 1 as [w0 a HQ | X w0 c k Hc Hk IH]; intros Hf; simpl; [auto |].
  constructor; [done | eauto].
Qed.

Lemma tsafe_atom {A} (Q : A -> World -> Prop) w0 (c : M A) :
  (forall w, G w0 w -> I w ->
     I (st_final (c w)) /\ G w (st_final (c w)) /\ forall x w', c w = Ok (x, w') -> Q x w') ->
  tsafe Q w0 (atom c).
Proof.
  intros H. constructor; [intros w HG HI; by destruct (H w HG HI) as (? & ? & _) |].
  intros w x w' HG HI Hc. constructor. by eapply H.
Qed.

Lemma tsafe_tfold {A B} (P : B -> World -> Prop) (f : B -> A -> thread B) l b w0 :
  (forall b x w, P b w -> tsafe P w (f b x)) -> P b w0 -> tsafe P w0 (tfold f l b).
Proof.
  intros Hf. revert b w0. induction l as [|x l IH]; intros b w0 Hb; simpl; [by constructor |].
  eapply tsafe_bind; [by apply Hf | eauto].
Qed.

(** A worker is safe in a state when its thread is safe from a state
    that a [G]-chain leads from to this one. *)
Definition wsafe {A} (s : tstate A) (w : World) : Prop :=
  match s with
  | Running t => exists Q w0, G w0 w /\ tsafe Q w0 t
  | Finished _ => True
  end.

Lemma wsafe_mono {A} (s : tstate A) w w' : G w w' -> wsafe s w -> wsafe s w'.
Proof.
  destruct s; [| done]. intros HG (Q & w0 & H0 & Ht). exists Q, w0. split; [by etrans | done].
Qed.

Lemma tstep_safe {A} (t : thread A) w :
  wsafe (Running t) w -> I w ->
  I (tstep t w).2 /\ G w (tstep t w).2 /\ wsafe (tstep t w).1 (tstep t w).2.
Proof.
  intros (Q & w0 & HG & Ht) HI. destruct Ht as [w0 a _ | X w0 c k Hc Hk]; simpl.
  - split_and!; [done | reflexivity | done].
  - destruct (Hc w HG HI) as [HI' HG']. destruct (c w) as [[x w']|[e w']] eqn:E; simpl in *.
    + split_and!; [done | done |]. exists Q, w'. split; [reflexivity | eauto].
    + split_and!; done.
Qed.

(** Every schedule of a pool of safe workers keeps [I], and the workers
    stay safe. *)
Lemma interleave_safe {A} sched (pool : list (tstate A)) w :
  I w -> Forall (fun s => wsafe s w) pool ->
  I (interleave sched pool w).2 /\
  Forall (fun s => wsafe s (interleave sched pool w).2) (interleave sched pool w).1.
Proof.
  revert pool w. induction sched as [|i sched IH]; intros pool w HI Hp; simpl; [done |].
  destruct (pool !! i) as [[t|]|] eqn:Hi; [| by apply IH..].
  destruct (tstep_safe t w) as (HI' & HG & Hs); [exact (Forall_lookup_1 _ _ _ _ Hp Hi) | done |].
  apply IH; [done |]. apply Forall_insert; [| done].
  eapply Forall_impl; [exact Hp | intros s; by apply wsafe_mono].
Qed.

End Safety.

(** ** The handlers keep the state invariant under every interleaving *)

(** The invariant of [MediaCache], on one state. *)
Definition state_wf (w : World) : Prop := cache_wf w /\ backend_wf (w_backend w).

(** What every step guarantees to the others: the service's counter of
    issued names does not go back. *)
Definition issued_le (w w' : World) : Prop := (b_next (w_backend w) <= b_next (w_backend w'))%N.

#[export] Instance issued_le_preorder : PreOrder issued_le.
Proof. split; [intros w | intros w1 w2 w3 H1 H2]; unfold issued_le in *; lia. Qed.

(** A file whose name the service has issued: what a thread may later
    write into [file_upload_dict]. *)
Definition issued (f : GFile) (w : World) : Prop :=
  exists n, gf_name f = fresh_name n /\ (n < b_next (w_backend w))%N.

Abbreviation safe := (tsafe state_wf issued_le).

Lemma issued_mono f w w' : issued_le w w' -> issued f w -> issued f w'.
Proof. intros Hle (n & Hn & Hlt). exists n. unfold issued_le in Hle. split; [done | lia]. Qed.

Lemma files_issued w name f :
  backend_wf (w_backend w) -> b_files (w_backend w) !! name = Some f -> issued f w.
Proof. intros Hwf Hl. destruct (Hwf _ _ Hl) as [Hn (n & Hname & Hlt)]. exists n. split; [congruence | done]. Qed.

Lemma issued_le_set_cache w c : issued_le w (set_cache w c).
Proof. unfold issued_le. simpl. lia. Qed.

Lemma genai_get_file_lookup name w f w' :
  genai_get_file name w = Ok (f, w') -> b_files (w_backend w') !! name = Some f.
Proof.
  unfold genai_get_file. simpl. destruct (b_files (w_backend w) !! name); [| done].
  intros [= <- <-]. apply lookup_insert_eq.
Qed.

(** An atom that only lets the service grow is safe. *)
Lemma tsafe_grows {A} (Q : A -> World -> Prop) w0 (c : M A) :
  st_preserves grows c -> (forall w x w', state_wf w -> c w = Ok (x, w') -> Q x w') ->
  safe Q w0 (atom c).
Proof.
  intros Hg HQ. apply tsafe_atom. intros w _ HI.
  split_and!; [exact (grows_keeps_wf c Hg w HI) | exact (proj1 (proj2 (Hg w))) | eauto].
Qed.

Lemma tsafe_grows0 {A} w0 (c : M A) : st_preserves grows c -> safe (fun _ _ => True) w0 (atom c).
Proof. intros Hg. by apply tsafe_grows. Qed.

Lemma cache_contains_grows id : st_preserves grows (cache_contains id).
Proof. intros w. reflexivity. Qed.

Lemma cache_getitem_grows id : st_preserves grows (cache_getitem id).
Proof. intros w. unfold cache_getitem. by destruct (w_cache w !! id). Qed.

Lemma get_function_call_history_grows url : st_preserves grows (get_function_call_history url).
Proof. unfold get_function_call_history. st_preserves_tac; auto with agent. Qed.

#[export] Hint Resolve cache_contains_grows cache_getitem_grows get_function_call_history_grows : agent.

Lemma cache_delitem_safe w0 id : safe (fun _ _ => True) w0 (atom (cache_delitem id)).
Proof.
  apply tsafe_atom. intros w _ HI. unfold cache_delitem.
  destruct (w_cache w !! id); simpl; [| split_and!; [done | reflexivity | done]].
  split_and!; [by apply set_cache_delete_keeps_wf | apply issued_le_set_cache | done].
Qed.

(** Writing an issued name into the dict keeps the invariant, whatever
    the other threads did since the name was issued. *)
Lemma cache_setitem_safe w0 id f :
  issued f w0 -> safe (fun _ _ => True) w0 (atom (cache_setitem id (gf_name f))).
Proof.
  intros Hf. apply tsafe_atom. intros w Hle [Hc Hb]. simpl.
  split_and!; [| apply issued_le_set_cache | done]. split; [| done].
  intros id' name. simpl. destruct (decide (id' = id)) as [-> | Hne].
  - rewrite lookup_insert_eq. intros [= <-]. exact (issued_mono _ _ _ Hle Hf).
  - rewrite lookup_insert_ne by done. apply Hc.
Qed.

Lemma genai_get_file_issued name w f w' :
  backend_wf (w_backend w) -> genai_get_file name w = Ok (f, w') -> issued f w'.
Proof.
  intros Hb H. apply (files_issued _ name); [| exact (genai_get_file_lookup _ _ _ _ H)].
  exact (proj2 (proj2 (st_preserves_Ok (genai_get_file_grows name) H)) Hb).
Qed.

Lemma try_get_file_issued name w f w' :
  backend_wf (w_backend w) -> try_get_file name w = Ok (Some f, w') -> issued f w'.
Proof.
  unfold try_get_file. intros Hb H.
  destruct (genai_get_file name w) as [[f' w'']|[[] w'']] eqn:E; try done.
  injection H as <- <-. exact (genai_get_file_issued _ _ _ _ Hb E).
Qed.

Lemma genai_upload_file_issued c d m w f w' :
  backend_wf (w_backend w) -> genai_upload_file c d m w = Ok (f, w') -> issued f w'.
Proof.
  intros Hb H. apply (files_issued _ (gf_name f));
    [exact (proj2 (proj2 (st_preserves_Ok (genai_upload_file_grows c d m) H)) Hb) |].
  rewrite genai_upload_file_spec in H. injection H as <- <-. apply after_upload_stored.
Qed.

Lemma lookup_cached_t_safe id w0 :
  safe (fun r w => forall f, r = Some f -> issued f w) w0 (lookup_cached_t id).
Proof.
  unfold lookup_cached_t. eapply tsafe_bind; [apply tsafe_grows0; auto with agent | intros [] w1 _];
    [| by constructor].
  eapply tsafe_bind; [apply tsafe_grows0; auto with agent | intros name w2 _].
  eapply tsafe_bind with (Q := fun r w => forall f, r = Some f -> issued f w).
  { apply tsafe_grows; [auto with agent | intros w r w' [_ Hb] Hr f ->]. by eapply try_get_file_issued. }
  intros [f|] w3 Hr; [by constructor |].
  eapply tsafe_bind; [apply cache_delitem_safe | intros _ w4 _; by constructor].
Qed.

Lemma fetch_and_upload_t_safe url id m w0 : safe issued w0 (fetch_and_upload_t url id m).
Proof.
  unfold fetch_and_upload_t. eapply tsafe_bind; [apply tsafe_grows0; auto with agent | intros body w1 _].
  apply tsafe_grows; [auto with agent | intros w f w' [_ Hb]]. by apply genai_upload_file_issued.
Qed.

Lemma poll_processing_t_safe fuel f w0 : issued f w0 -> safe issued w0 (poll_processing_t fuel f).
Proof.
  revert f w0. induction fuel as [|fuel IH]; intros f w0 Hf; cbn [poll_processing_t];
    (destruct (decide _); [| by constructor]).
  - apply tsafe_grows; [st_preserves_tac | done].
  - eapply tsafe_bind; [apply tsafe_grows0; auto with agent | intros _ w1 _].
    eapply tsafe_bind; [| intros f' w2 Hf'; by apply IH].
    apply tsafe_grows; [auto with agent | intros w f' w' [_ Hb]]. by apply genai_get_file_issued.
Qed.

Lemma get_file_part_t_safe fuel url id m w0 : safe (fun _ _ => True) w0 (get_file_part_t fuel url id m).
Proof.
  unfold get_file_part_t. destruct (negb _); [by constructor |].
  eapply tsafe_bind; [apply lookup_cached_t_safe | intros cached w1 Hc].
  eapply tsafe_bind with (Q := issued).
  { destruct cached as [f|]; [constructor; by apply Hc | apply fetch_and_upload_t_safe]. }
  intros file w2 Hf. eapply tsafe_bind with (Q := issued).
  { unfold wait_if_video_t. destruct (py_in_str _ _); [by apply poll_processing_t_safe | by constructor]. }
  intros file' w3 Hf'. eapply tsafe_bind; [by apply cache_setitem_safe | intros _ w4 _; by constructor].
Qed.

(** The steps of the handler above [get_file_part]: they only call
    services that let the state grow, and [get_file_part], whose safety
    the Section assumes. *)
Section HandlerSafety.
Hypothesis get_file_part_safe :
  forall fuel url id m w0, safe (fun _ _ => True) w0 (get_file_part_t fuel url id m).

Ltac safe_step :=
  match goal with
  | |- safe _ _ (tbind _ _) => eapply tsafe_bind; [| intros ? ? _]
  | |- safe _ _ (Done _) => by constructor
  | |- safe _ _ (atom _) => apply tsafe_grows0; solve [st_preserves_tac; auto with agent]
  | H : forall _ _ _ _ _, safe _ _ (get_file_part_t _ _ _ _) |- safe _ _ (get_file_part_t _ _ _ _) => apply H
  | |- safe _ _ (tfold _ _ _) => apply (tsafe_tfold _ _ (fun _ _ => True)); [intros ? ? ? _ | done]
  | |- safe _ _ (if ?b then _ else _) => destruct b
  | |- safe _ _ (match ?x with _ => _ end) => destruct x
  | |- safe _ _ _ => progress cbv zeta
  end.
Ltac safe_tac := repeat progress (try safe_step).

Lemma process_message_t_safe fuel tm m w0 : safe (fun _ _ => True) w0 (process_message_t fuel tm m).
Proof. unfold process_message_t, process_file_t. safe_tac. Qed.

Lemma build_message_t_safe fuel ev w0 : safe (fun _ _ => True) w0 (build_message_t fuel ev).
Proof.
  unfold build_message_t, get_thread_messages_t, event_message_t. safe_tac.
  all: try apply process_message_t_safe. safe_tac.
Qed.

Lemma event_fun_t_safe {R} `{!ToolDispatch R} {Sess} (chat : ChatModel Sess) (reg : R) fuel ev w0 :
  safe (fun _ _ => True) w0 (event_fun_t chat reg fuel ev).
Proof. unfold event_fun_t. safe_tac. apply build_message_t_safe. Qed.

End HandlerSafety.

Section ConcurrentHandlers.
Context {R : Type} `{!ToolDispatch R} {Sess : Type}.
Variable chat : ChatModel Sess.
Variable reg : R.

(** The pool of handlers Bolt's workers run for a list of mentions. *)
Definition handlers (fuel : Fuel) (evs : list Event) : list (tstate unit) :=
  map (fun ev => Running (event_fun_t chat reg fuel ev)) evs.

(** C8. Concurrent mentions keep the state invariant: whatever mentions
    run at the same time and however the interpreter interleaves their
    steps (the dict's check and read, the uploads, the polls, the writes),
    every name in [file_upload_dict] is one the service has issued and the
    service's files are stored under their own names, after every
    schedule, with handlers that raise, that finish or that are still
    running. *)
Theorem concurrent_handlers_keep_wf fuel evs sched w :
  cache_wf w -> backend_wf (w_backend w) ->
  cache_wf (interleave sched (handlers fuel evs) w).2 /\
  backend_wf (w_backend (interleave sched (handlers fuel evs) w).2).
Proof.
  intros Hc Hb. apply (interleave_safe state_wf issued_le); [done |].
  apply Forall_forall. intros s (ev & -> & _)%list_elem_of_fmap.
  exists (fun _ _ => True), w. split; [reflexivity | apply event_fun_t_safe, get_file_part_t_safe].
Qed.

End ConcurrentHandlers.

(** ** Two handlers resolving the same attachment *)

Definition gfp_pair (fuel : nat) (url id m : string) : list (tstate (option GFile)) :=
  [Running (get_file_part_t fuel url id m); Running (get_file_part_t fuel url id m)].

(** Both check the dict before either has written it. *)
Definition race_miss : list nat := [0; 1; 0; 0; 0; 0; 1; 1; 1; 1].

Lemma fresh_name_inj n n' : fresh_name n = fresh_name n' -> n = n'.
Proof. unfold fresh_name. intros H. by apply (inj (String.append "files/")), (inj pretty) in H. Qed.

Lemma new_file_display b c d m : gf_display_name (new_file b c d m) = d.
Proof. unfold new_file. by destruct (b_profile b m). Qed.

(** C7. The check-then-act of [get_file_part] is not atomic: two
    handlers that resolve the same Slack file while [file_upload_dict]
    has no entry for it both miss, both download it and both upload it.
    The service then holds two files for one attachment, both with the
    attachment's id as display name, and the dict keeps the second
    only. Run one after the other, the same two calls upload once
    ([get_file_part_idempotent]). *)
Theorem concurrent_duplicate_upload fuel url id m w :
  py_in_list m SUPPORTED_MIME_TYPES = true -> py_in_str "video" m = false -> w_cache w !! id = None ->
  exists f1 f2 w',
    interleave race_miss (gfp_pair fuel url id m) w = ([Finished (Ok (Some f1)); Finished (Ok (Some f2))], w') /\
    gf_name f1 <> gf_name f2 /\ stored w' f1 /\ stored w' f2 /\
    gf_display_name f1 = id /\ gf_display_name f2 = id /\
    w_cache w' !! id = Some (gf_name f2) /\ uploads (w_log w') = uploads (w_log w) + 2.
Proof.
  intros Hs Hv Hc. unfold race_miss, gfp_pair, get_file_part_t, wait_if_video_t. rewrite Hs, Hv. simpl.
  unfold cache_contains, cache_setitem, st_modify. rewrite Hc. simpl.
  eexists _, _, _. split; [reflexivity |]. unfold stored. simpl. rewrite !new_file_name, !new_file_display. simpl.
  assert (Hne : fresh_name (b_next (w_backend w)) <> fresh_name (b_next (w_backend w) + 1)).
  { intros H%fresh_name_inj. lia. }
  split_and!; [done | by rewrite lookup_insert_ne, lookup_insert_eq | by rewrite lookup_insert_eq | done | done | |].
  - by rewrite lookup_insert_eq.
  - repeat (rewrite uploads_snoc_upload || rewrite uploads_snoc_other by done). lia.
Qed.

(** The dict operations on a state whose entry is known. *)
Lemma cache_contains_Some id w : is_Some (w_cache w !! id) -> cache_contains id w = Ok (true, w).
Proof. intros [v Hv]. unfold cache_contains. by rewrite Hv. Qed.

Lemma cache_getitem_Some id w name : w_cache w !! id = Some name -> cache_getitem id w = Ok (name, w).
Proof. intros Hv. unfold cache_getitem. by rewrite Hv. Qed.

Lemma cache_delitem_Some id w : is_Some (w_cache w !! id) ->
  cache_delitem id w = Ok (tt, set_cache w (delete id (w_cache w))).
Proof. intros [v Hv]. unfold cache_delitem. by rewrite Hv. Qed.

Lemma cache_delitem_None id w : w_cache w !! id = None -> cache_delitem id w = Err (KeyError id, w).
Proof. intros Hv. unfold cache_delitem. by rewrite Hv. Qed.

Lemma try_get_file_missing name w :
  b_files (w_backend w) !! name = None -> try_get_file name w = Ok (None, log (EGetFile name) w).
Proof. intros H. unfold try_get_file. by rewrite genai_get_file_missing. Qed.

#[local] Opaque cache_contains cache_getitem cache_delitem try_get_file.

(** Both find the handle in the dict and learn from the service that it
    is gone before either deletes it. *)
Definition race_evict : list nat := [0; 0; 0; 1; 1; 1; 0; 1].

(** C6. The eviction of an expired handle is not atomic either: when two
    handlers resolve the same Slack file whose cached handle the service
    has deleted, both read the handle, both get [PermissionDenied], the
    first deletes the entry, and the second's
    [del file_upload_dict[file_id]] raises [KeyError], which ends that
    handler's turn without an answer. Run alone, the same call re-uploads
    the file and returns it ([get_file_part_reupload]). *)
Theorem concurrent_eviction_keyerror fuel url id m name w :
  py_in_list m SUPPORTED_MIME_TYPES = true ->
  w_cache w !! id = Some name -> b_files (w_backend w) !! name = None ->
  exists t w', interleave race_evict (gfp_pair fuel url id m) w = ([Running t; Finished (Err (KeyError id))], w').
Proof.
  intros Hs Hc Hb. unfold race_evict, gfp_pair, get_file_part_t. rewrite Hs. simpl.
  rewrite cache_contains_Some by (rewrite Hc; eauto). simpl.
  rewrite (cache_getitem_Some _ _ name) by done. simpl.
  rewrite try_get_file_missing by done. simpl.
  rewrite cache_contains_Some by (simpl; rewrite Hc; eauto). simpl.
  rewrite (cache_getitem_Some _ _ name) by done. simpl.
  rewrite try_get_file_missing by done. simpl.
  rewrite cache_delitem_Some by (simpl; rewrite Hc; eauto). simpl.
  rewrite cache_delitem_None by (simpl; apply lookup_delete_eq). simpl.
  eexists _, _. reflexivity.
Qed.

(** ** Concrete runs *)

Module ConcurrencyExamples.
Import Registry MediaCacheExamples OrchestratorExamples.

(** Two mentions of the same image, their steps alternating. *)
Lemma concurrent_handlers_keep_wf_witness :
  cache_wf world0 /\ backend_wf (w_backend world0) /\
  cache_wf (interleave (concat (replicate 20 [0; 1]))
              (handlers (scripted_chat [unknown_resp]) example_registry fuel0 [ev_image; ev_image]) world0).2 /\
  backend_wf (w_backend (interleave (concat (replicate 20 [0; 1]))
              (handlers (scripted_chat [unknown_resp]) example_registry fuel0 [ev_image; ev_image]) world0).2).
Proof.
  split_and!; [exact cache_wf_world0 | exact backend0_wf | |];
    apply (concurrent_handlers_keep_wf _ _ _ _ _ _ cache_wf_world0 backend0_wf).
Defined.

(** F1 is a PNG nobody has uploaded yet. *)
Lemma concurrent_duplicate_upload_witness :
  py_in_list "image/png" SUPPORTED_MIME_TYPES = true /\ py_in_str "video" "image/png" = false /\
  w_cache world0 !! "F1" = None /\
  exists f1 f2 w',
    interleave race_miss (gfp_pair 3 "https://files.slack.com/F1" "F1" "image/png") world0 =
      ([Finished (Ok (Some f1)); Finished (Ok (Some f2))], w') /\
    gf_name f1 <> gf_name f2 /\ stored w' f1 /\ stored w' f2 /\
    gf_display_name f1 = "F1" /\ gf_display_name f2 = "F1" /\
    w_cache w' !! "F1" = Some (gf_name f2) /\ uploads (w_log w') = uploads (w_log world0) + 2.
Proof.
  split_and!; [reflexivity | reflexivity | reflexivity |].
  apply concurrent_duplicate_upload; reflexivity.
Defined.

(** The same two calls, one after the other: one upload, one name. *)
Example sequential_pair_uploads_once :
  match interleave (replicate 5 0 ++ replicate 5 1)
          (gfp_pair 3 "https://files.slack.com/F1" "F1" "image/png") world0 with
  | ([Finished (Ok (Some f1)); Finished (Ok (Some f2))], w') =>
      gf_name f1 = gf_name f2 /\ uploads (w_log w') = 1
  | _ => False
  end.
Proof. vm_compute. split; reflexivity. Qed.

(** F1's cached handle "files/7" has expired. *)
Lemma concurrent_eviction_keyerror_witness :
  py_in_list "image/png" SUPPORTED_MIME_TYPES = true /\
  w_cache world_expired !! "F1" = Some "files/7" /\ b_files (w_backend world_expired) !! "files/7" = None /\
  exists t w', interleave race_evict (gfp_pair 3 "https://files.slack.com/F1" "F1" "image/png") world_expired =
    ([Running t; Finished (Err (KeyError "F1"))], w').
Proof.
  split_and!; [reflexivity | reflexivity | reflexivity |].
  apply (concurrent_eviction_keyerror _ _ _ _ "files/7"); reflexivity.
Defined.

End ConcurrencyExamples.
